(** * imagej_tiff_meta.wrapper: the ImageJ ROI record codec

    A shallow embedding of [src/imagej_tiff_meta/wrapper.py]: the
    fixed-layout record helper [new_record], the ROI encoder
    [imagej_create_roi], the decoder [imagej_parse_overlay], the block
    assembler [imagej_prepare_metadata] and the patched [TiffWriter]
    session ([__init__], [add_roi], [save]).

    Conventions.
    - A Python [bytes] object is a [list byte].
    - A Python [int] is a [Z]; a numpy fixed-width integer is a [Z] with
      its two's-complement wrap-around written out where numpy casts.
      A numpy integer array is the list of its rows together with its
      dtype, which fixes where its own arithmetic wraps.
    - numpy is the legacy one the source needs ([np.asscalar]): storing
      an out-of-range value in an integer field wraps silently, except
      that a Python [int] outside the C [long] range (64 bits) raises
      [OverflowError].
    - A Python [str] is the list of its code points.
    - A numpy record is its dtype together with its raw buffer; reading
      a field decodes the buffer at the field's offset and writing a
      field encodes into it, which is what numpy does.
    - A Python exception is a [Raise] result. *)

From Stdlib Require Import ZArith List String Ascii Lia Bool.
From Stdlib Require Import Init.Byte Strings.Byte.
From stdpp Require Import gmap strings.
Import ListNotations.
Local Open Scope Z_scope.

(** ** Results and exceptions *)

Inductive pyexc : Type :=
| BufferTooSmall      (* TypeError: buffer is too small for requested array *)
| NegativeDimensions  (* ValueError: negative dimensions are not allowed *)
| ZeroSizeReduction   (* ValueError: zero-size array to reduction operation minimum *)
| UnicodeDecodeError
| UnicodeEncodeError
| OverflowError       (* OverflowError: Python int too large to convert to C long *)
| ReadOutsideBuffer.  (* no exception: numpy reads memory in front of the buffer,
                         whose contents are not part of the input; the model stops *)

Inductive result (A : Type) : Type :=
| Ok (a : A)
| Raise (e : pyexc).
Arguments Ok {A} a.
Arguments Raise {A} e.

Definition bind {A B : Type} (r : result A) (k : A -> result B) : result B :=
  match r with
  | Ok a => k a
  | Raise e => Raise e
  end.

Notation "'do' x <- e ; k" := (bind e (fun x => k))
  (at level 10, x name, e at level 100, k at level 200).

(** ** Bytes and fixed-width integers *)

Definition bytes : Type := list byte.

Definition byte_of_Z (z : Z) : byte :=
  match Byte.of_N (Z.to_N (z mod 256)) with
  | Some b => b
  | None => x00
  end.

Definition Z_of_byte (b : byte) : Z := Z.of_N (Byte.to_N b).

(** Casting to an unsigned / signed integer of [w] bits. *)
Definition wrap_unsigned (w : Z) (z : Z) : Z := z mod 2 ^ w.
Definition wrap_signed (w : Z) (z : Z) : Z := (z + 2 ^ (w - 1)) mod 2 ^ w - 2 ^ (w - 1).

(** Big-endian two's-complement representation on [n] bytes. *)
Fixpoint be_bytes (n : nat) (z : Z) : bytes :=
  match n with
  | O => []
  | S m => byte_of_Z (z / 2 ^ (8 * Z.of_nat m)) :: be_bytes m z
  end.

(** The unsigned value of a big-endian byte string. *)
Definition be_value (bs : bytes) : Z :=
  fold_left (fun acc b => acc * 256 + Z_of_byte b) bs 0.

(** Reinterpreting an unsigned [w]-bit value as signed. *)
Definition to_signed (w : Z) (u : Z) : Z :=
  if u <? 2 ^ (w - 1) then u else u - 2 ^ w.

(** ** Python slicing: [data[start:stop]] *)

Definition clamp_index (len i : Z) : Z :=
  let i := if i <? 0 then i + len else i in
  if i <? 0 then 0 else if len <? i then len else i.

Definition py_slice {A : Type} (data : list A) (start stop : Z) : list A :=
  let len := Z.of_nat (length data) in
  let a := clamp_index len start in
  let b := clamp_index len stop in
  firstn (Z.to_nat (b - a)) (skipn (Z.to_nat a) data).

(** ** Structured dtypes

    The primitive codes of the three layouts: ['i1'], ['u1'], ['i2'],
    ['i4'], ['f4'] and the sub-array ['<n>a1'] of one-byte strings. Byte
    order is big-endian throughout ([newbyteorder('>')]). *)

Inductive ftype : Type :=
| i1 | u1 | i2 | i4 | f4
| a1 (count : nat).

Definition fsize (t : ftype) : nat :=
  match t with
  | i1 | u1 => 1
  | i2 => 2
  | i4 | f4 => 4
  | a1 n => n
  end.

Definition dtype : Type := list (string * ftype).

Fixpoint itemsize (d : dtype) : nat :=
  match d with
  | [] => 0
  | (_, t) :: d' => fsize t + itemsize d'
  end.

(** Offset and type of a named field (fields are packed, [aligned=False]). *)
Fixpoint field_lookup (d : dtype) (name : string) (off : nat) : option (nat * ftype) :=
  match d with
  | [] => None
  | (n, t) :: d' =>
      if String.eqb n name then Some (off, t)
      else field_lookup d' name (off + fsize t)
  end.

Definition dtype_names (d : dtype) : list string := map fst d.

(** ** The layouts of the source *)

Definition CONSTANT_MAGIC_NUMBER : Z := 0x494a494a.
Definition CONSTANT_INFO : Z := 0x696e666f.
Definition CONSTANT_LABELS : Z := 0x6c61626c.
Definition CONSTANT_RANGES : Z := 0x72616e67.
Definition CONSTANT_LUTS : Z := 0x6c757473.
Definition CONSTANT_ROI : Z := 0x726f6920.
Definition CONSTANT_OVERLAY : Z := 0x6f766572.

Definition CONST_IJ_POLYGON : Z := 0.
Definition CONST_IJ_RECT : Z := 1.
Definition CONST_IJ_OVAL : Z := 2.
Definition CONST_IJ_LINE : Z := 3.
Definition CONST_IJ_FREELINE : Z := 4.
Definition CONST_IJ_POLYLINE : Z := 5.
Definition CONST_IJ_NOROI : Z := 6.
Definition CONST_IJ_FREEHAND : Z := 7.
Definition CONST_IJ_TRACED : Z := 8.
Definition CONST_IJ_ANGLE : Z := 9.
Definition CONST_IJ_POINT : Z := 10.

Definition IMAGEJ_ROI_HEADER : dtype :=
  [ ("_iout", a1 4);
    ("version", i2);
    ("roi_type", i1);
    ("_pad_byte", u1);
    ("top", i2);
    ("left", i2);
    ("bottom", i2);
    ("right", i2);
    ("n_coordinates", i2);
    ("x1", i4);
    ("y1", i4);
    ("x2", i4);
    ("y2", i4);
    ("stroke_width", i2);
    ("shape_roi_size", i4);
    ("stroke_color", i4);
    ("fill_color", i4);
    ("subtype", i2);
    ("options", i2);
    ("arrow_style_or_aspect_ratio", u1);
    ("arrow_head_size", u1);
    ("rounded_rect_arc_size", i2);
    ("position", i4);
    ("header2_offset", i4) ]%string.

Definition IMAGEJ_ROI_HEADER2 : dtype :=
  [ ("_nil", i4);
    ("c", i4);
    ("z", i4);
    ("t", i4);
    ("name_offset", i4);
    ("name_length", i4);
    ("overlay_label_color", i4);
    ("overlay_font_size", i2);
    ("available_byte1", i1);
    ("image_opacity", i1);
    ("image_size", i4);
    ("float_stroke_width", f4);
    ("roi_props_offset", i4);
    ("roi_props_length", i4);
    ("counters_offset", i4) ]%string.

Definition IMAGEJ_META_HEADER : dtype :=
  [ ("magic", i4);
    ("type", i4);
    ("count", i4) ]%string.

Definition IJM_ROI_VERSION : Z := 226.

Definition IMAGEJ_SUPPORTED_OVERLAYS : gset Z :=
  {[ CONST_IJ_POLYGON; CONST_IJ_FREEHAND; CONST_IJ_TRACED; CONST_IJ_POLYLINE;
     CONST_IJ_FREELINE; CONST_IJ_ANGLE; CONST_IJ_POINT ]}.

(** ** Records *)

Record record : Type := mk_record { rec_dtype : dtype; rec_buf : bytes }.

Definition tobytes (r : record) : bytes := rec_buf r.

(** What [fill(0)] leaves in a field: zero in a number, and the
    character ['0'] in every one-byte string, where numpy stores
    [str(0)]. *)
Definition zero_field (t : ftype) : bytes :=
  match t with
  | a1 n => repeat x30 n
  | i1 | u1 | i2 | i4 | f4 => repeat x00 (fsize t)
  end.

Definition zero_filled (d : dtype) : bytes :=
  concat (map (fun field => zero_field (snd field)) d).

(** [np.recarray(shape=(1,), dtype=dtype, buf=data, offset=offset)
      .newbyteorder('>')[0]], followed by [fill(0)] when no buffer is
    given.
    With a buffer numpy checks [len(buf) < offset + itemsize] and nothing
    else, so a negative offset that passes it reads in front of the
    buffer: the code raises nothing there and goes on with bytes that
    are not part of its input. That outcome is [ReadOutsideBuffer]. *)
Definition new_record (d : dtype) (data : option bytes) (offset : Z) : result record :=
  match data with
  | None => Ok (mk_record d (zero_filled d))
  | Some buf =>
      if Z.of_nat (length buf) <? offset + Z.of_nat (itemsize d) then Raise BufferTooSmall
      else if offset <? 0 then Raise ReadOutsideBuffer
      else Ok (mk_record d (firstn (itemsize d) (skipn (Z.to_nat offset) buf)))
  end.

(** Overwrite [length enc] bytes of the buffer at [off]. *)
Definition splice (buf : bytes) (off : nat) (enc : bytes) : bytes :=
  firstn off buf ++ enc ++ skipn (off + length enc) buf.

(** Storing an integer in an integer field casts it to the field's
    width, without a range check. This is the whole of [record.name = v]
    when [v] is a numpy integer scalar, and also when [v] is a length
    ([len(...)], an [itemsize], or a sum of them), which always fits a
    C [long]. The source assigns only to fields its layouts declare; an
    undeclared name leaves the record as it is. *)
Definition store_int (r : record) (name : string) (v : Z) : record :=
  match field_lookup (rec_dtype r) name 0 with
  | Some (off, t) => mk_record (rec_dtype r) (splice (rec_buf r) off (be_bytes (fsize t) v))
  | None => r
  end.

(** The range of a C [long] of 64 bits. *)
Definition fits_c_long (v : Z) : bool := (- 2 ^ 63 <=? v) && (v <? 2 ^ 63).

(** [record.name = v] for a Python [int] [v]: numpy first converts it
    to a C [long], which raises [OverflowError] outside that range, and
    then stores it as above. *)
Definition set_int (r : record) (name : string) (v : Z) : result record :=
  if fits_c_long v then Ok (store_int r name v) else Raise OverflowError.

(** Assigning a tuple of one-byte strings to an ['<n>a1'] field. *)
Definition set_chars (r : record) (name : string) (cs : bytes) : record :=
  match field_lookup (rec_dtype r) name 0 with
  | Some (off, a1 n) =>
      mk_record (rec_dtype r) (splice (rec_buf r) off (firstn n (cs ++ repeat x00 n)))
  | _ => r
  end.

(** Values the decoder puts in its result dictionary. A 4-byte float is
    carried as its bit pattern. *)
Definition pystr : Type := list Z.

Inductive pyobj : Type :=
| PNone
| PInt (z : Z)
| PFloat32 (bits : Z)
| PChars (cs : bytes)
| PStr (s : pystr)
| PArray (rows : list (Z * Z)).

Definition decode_field (t : ftype) (bs : bytes) : pyobj :=
  match t with
  | i1 => PInt (to_signed 8 (be_value bs))
  | u1 => PInt (be_value bs)
  | i2 => PInt (to_signed 16 (be_value bs))
  | i4 => PInt (to_signed 32 (be_value bs))
  | f4 => PFloat32 (be_value bs)
  | a1 _ => PChars bs
  end.

(** [getattr(record, name)] *)
Definition getfield (r : record) (name : string) : option pyobj :=
  match field_lookup (rec_dtype r) name 0 with
  | Some (off, t) => Some (decode_field t (firstn (fsize t) (skipn off (rec_buf r))))
  | None => None
  end.

(** Integer fields, as the source reads them ([header.n_coordinates] ...). *)
Definition get_int (r : record) (name : string) : Z :=
  match getfield r name with
  | Some (PInt z) => z
  | _ => 0
  end.

(** ** Python strings and UTF-16 (big-endian) *)

Definition str_of_string (s : string) : pystr :=
  map (fun a => Z.of_N (N_of_ascii a)) (list_ascii_of_string s).

Definition is_high_surrogate (u : Z) : bool := (0xD800 <=? u) && (u <=? 0xDBFF).
Definition is_low_surrogate (u : Z) : bool := (0xDC00 <=? u) && (u <=? 0xDFFF).
Definition is_surrogate (u : Z) : bool := (0xD800 <=? u) && (u <=? 0xDFFF).

(** [s.encode('utf-16be')]: one 16-bit unit below U+10000, a surrogate
    pair above; a surrogate code point cannot be encoded. *)
Fixpoint utf16be_encode (s : pystr) : result bytes :=
  match s with
  | [] => Ok []
  | cp :: s' =>
      if is_surrogate cp then Raise UnicodeEncodeError
      else
        do rest <- utf16be_encode s';
        if cp <? 0x10000 then Ok (be_bytes 2 cp ++ rest)
        else
          let v := cp - 0x10000 in
          Ok (be_bytes 2 (0xD800 + v / 1024) ++ be_bytes 2 (0xDC00 + v mod 1024) ++ rest)
  end.

Fixpoint utf16_units (bs : bytes) : result (list Z) :=
  match bs with
  | [] => Ok []
  | [_] => Raise UnicodeDecodeError
  | hi :: lo :: rest =>
      do us <- utf16_units rest;
      Ok (Z_of_byte hi * 256 + Z_of_byte lo :: us)
  end.

Fixpoint utf16_join (us : list Z) : result pystr :=
  match us with
  | [] => Ok []
  | u :: rest =>
      if is_high_surrogate u then
        match rest with
        | lo :: rest' =>
            if is_low_surrogate lo then
              do s <- utf16_join rest';
              Ok (0x10000 + (u - 0xD800) * 1024 + (lo - 0xDC00) :: s)
            else Raise UnicodeDecodeError
        | [] => Raise UnicodeDecodeError
        end
      else if is_low_surrogate u then Raise UnicodeDecodeError
      else
        do s <- utf16_join rest;
        Ok (u :: s)
  end.

(** [str(b, 'utf-16be')] *)
Definition utf16be_decode (bs : bytes) : result pystr :=
  do us <- utf16_units bs;
  utf16_join us.

(** ** Python ['%'] formatting of integers *)

Definition digit_char (d : Z) : Z := if d <? 10 then 48 + d else 87 + d.

Fixpoint digits_loop (base : Z) (fuel : nat) (n : Z) (acc : pystr) : pystr :=
  match fuel with
  | O => acc
  | S fuel' =>
      let acc' := digit_char (n mod base) :: acc in
      if n / base =? 0 then acc' else digits_loop base fuel' (n / base) acc'
  end.

(** The digits of [n >= 0], most significant first; [n] has at most
    [log2 n + 1] digits in any base from 2 up. *)
Definition digits (base n : Z) : pystr :=
  digits_loop base (S (Z.to_nat (Z.log2 n))) n [].

Definition signed_digits (base n : Z) : pystr :=
  if n <? 0 then 45 :: digits base (- n) else digits base n.

(** ['%d' % n], ['%x' % n] and ['%02d' % n] (zero-padded to width 2). *)
Definition fmt_d (n : Z) : pystr := signed_digits 10 n.
Definition fmt_x (n : Z) : pystr := signed_digits 16 n.
Definition fmt_02d (n : Z) : pystr :=
  let s := fmt_d n in
  if (length s <? 2)%nat then 48 :: s else s.

(** ** numpy arrays of points *)

(** The integer dtypes an array of points can have. *)
Inductive np_int : Type :=
| int8 | int16 | int32 | int64
| uint8 | uint16 | uint32 | uint64.

Definition np_bits (dt : np_int) : Z :=
  match dt with
  | int8 | uint8 => 8
  | int16 | uint16 => 16
  | int32 | uint32 => 32
  | int64 | uint64 => 64
  end.

Definition np_signed (dt : np_int) : bool :=
  match dt with
  | int8 | int16 | int32 | int64 => true
  | uint8 | uint16 | uint32 | uint64 => false
  end.

(** The result of integer arithmetic done in dtype [dt]: it wraps. *)
Definition np_cast (dt : np_int) (v : Z) : Z :=
  if np_signed dt then wrap_signed (np_bits dt) v else wrap_unsigned (np_bits dt) v.

(** [column.min()] *)
Definition array_min (column : list Z) : result Z :=
  match column with
  | [] => Raise ZeroSizeReduction
  | x :: rest => Ok (fold_left Z.min rest x)
  end.

(** [points.astype('>i2').tobytes(order='F')]: every x, then every y. *)
Definition astype_int16 (points : list (Z * Z)) : list (Z * Z) :=
  map (fun p => (wrap_signed 16 (fst p), wrap_signed 16 (snd p))) points.

Definition tobytes_F (points : list (Z * Z)) : bytes :=
  concat (map (fun p => be_bytes 2 (fst p)) points)
  ++ concat (map (fun p => be_bytes 2 (snd p)) points).

Definition int16_at (buffer : bytes) (k : nat) : Z :=
  to_signed 16 (be_value (firstn 2 (skipn (2 * k) buffer))).

(** [np.ndarray(shape=(n, 2), dtype='>i2', buffer=buffer, order='F').copy()] *)
Definition ndarray_F_int16 (n : Z) (buffer : bytes) : result (list (Z * Z)) :=
  if n <? 0 then Raise NegativeDimensions
  else if Z.of_nat (length buffer) <? 2 * (n * 2) then Raise BufferTooSmall
  else
    Ok (map (fun i => (int16_at buffer i, int16_at buffer (Z.to_nat n + i)))
            (seq 0 (Z.to_nat n))).

(** ** The decoder *)

Definition is_private (key : string) : bool :=
  match key with
  | String c _ => Ascii.eqb c "_"
  | EmptyString => false
  end.

(** [np.asscalar]: the Python scalar of a numpy scalar. The one
    array-valued field, [_iout], is skipped before it is reached. *)
Definition asscalar (v : pyobj) : pyobj := v.

Definition insert_fields (overlay : gmap string pyobj) (to_insert : record) : gmap string pyobj :=
  fold_left
    (fun ov key =>
       if is_private key then ov
       else match getfield to_insert key with
            | Some v => <[key := asscalar v]> ov
            | None => ov
            end)
    (dtype_names (rec_dtype to_insert)) overlay.

Definition imagej_parse_overlay (data : bytes) : result (gmap string pyobj) :=
  do header <- new_record IMAGEJ_ROI_HEADER (Some data) 0;
  do header2 <- new_record IMAGEJ_ROI_HEADER2 (Some data) (get_int header "header2_offset");
  do name <-
    (if 0 <? get_int header2 "name_offset" then
       utf16be_decode
         (py_slice data (get_int header2 "name_offset")
            (get_int header2 "name_offset" + get_int header2 "name_length" * 2))
     else Ok []);
  let overlay : gmap string pyobj :=
    <["coordinates" := PNone]> (<["name" := PStr name]> ∅) in
  do overlay <-
    (if decide (get_int header "roi_type" ∈ IMAGEJ_SUPPORTED_OVERLAYS) then
       let hsize := Z.of_nat (itemsize (rec_dtype header)) in
       do arr <-
         ndarray_F_int16 (get_int header "n_coordinates")
           (py_slice data hsize (hsize + 2 * 2 * get_int header "n_coordinates"));
       Ok (<["coordinates" := PArray arr]> overlay)
     else Ok overlay);
  Ok (fold_left insert_fields [header; header2] overlay).

(** ** The encoder

    [rnd] is the value [np.random.randint(0, 2**32 - 1)] returns. The
    points are an integer array of dtype [dt] and [points] its rows.
    [c], [z], [t] and [index] are Python integers. *)

Definition synthesize_name (rnd : Z) (name : option pystr) (t : Z) (index : option Z) : pystr :=
  match name with
  | Some name => name
  | None =>
      match index with
      | None => str_of_string "F" ++ fmt_02d (t + 1) ++ str_of_string "-" ++ fmt_x rnd
      | Some index =>
          str_of_string "F" ++ fmt_02d (t + 1) ++ str_of_string "-C" ++ fmt_d index
      end
  end.

(** [points[:, 0] -= left; points[:, 1] -= top]: the subtraction is done
    in place, so in the array's own dtype. *)
Definition translate (dt : np_int) (left top : Z) (points : list (Z * Z)) : list (Z * Z) :=
  map (fun p => (np_cast dt (fst p - left), np_cast dt (snd p - top))) points.

(** [left] and [top] are numpy scalars (of dtype [dt]) and
    [header2_offset + itemsize] is one too; the other values assigned
    are Python integers, of which only [t + 1] is not a constant or a
    length. *)
Definition imagej_create_roi (dt : np_int) (rnd : Z) (points : list (Z * Z))
    (name : option pystr) (c z t : Z) (index : option Z) : result bytes :=
  let name := synthesize_name rnd name t index in
  do left <- array_min (map fst points);
  do top <- array_min (map snd points);
  let points := translate dt left top points in
  let encoded_data := tobytes_F (astype_int16 points) in
  let encoded_data_size := Z.of_nat (length encoded_data) in
  do header <- new_record IMAGEJ_ROI_HEADER None 0;
  let header := set_chars header "_iout" ["I"; "o"; "u"; "t"]%byte in
  do header <- set_int header "version" IJM_ROI_VERSION;
  do header <- set_int header "roi_type" CONST_IJ_FREEHAND;
  let header := store_int header "left" left in
  let header := store_int header "top" top in
  let header := store_int header "n_coordinates" (Z.of_nat (length points)) in
  do header <- set_int header "options" 40;
  do header <- set_int header "position" (t + 1);
  let header :=
    store_int header "header2_offset"
      (Z.of_nat (itemsize (rec_dtype header)) + encoded_data_size) in
  do header2 <- new_record IMAGEJ_ROI_HEADER2 None 0;
  let header2 :=
    store_int header2 "name_offset"
      (get_int header "header2_offset" + Z.of_nat (itemsize (rec_dtype header2))) in
  let header2 := store_int header2 "name_length" (Z.of_nat (length name)) in
  do name_bytes <- utf16be_encode name;
  Ok (tobytes header ++ encoded_data ++ tobytes header2 ++ name_bytes).

(** ** The metadata block *)

Definition imagej_prepare_metadata (overlays : list bytes) : result (bytes * list Z) :=
  do mh <- new_record IMAGEJ_META_HEADER None 0;
  do mh <- set_int mh "magic" CONSTANT_MAGIC_NUMBER;
  do mh <- set_int mh "type" CONSTANT_OVERLAY;
  let mh := store_int mh "count" (Z.of_nat (length overlays)) in
  let meta_data := tobytes mh ++ concat overlays in
  let byte_counts :=
    Z.of_nat (itemsize (rec_dtype mh)) :: map (fun r => Z.of_nat (length r)) overlays in
  Ok (meta_data, byte_counts).

(** ** The patched writer session

    The TIFF library's own [TiffWriter] is a collaborator: what the
    patch does to it is the sequence of calls it makes to the original
    [save], each with the image, the keyword arguments and the extra
    tags it passes. *)

Inductive tag_value : Type :=
| TagInts (values : list Z)
| TagBytes (values : bytes).

(** An entry of [extratags]: (code, dtype, count, value, writeonce). *)
Record extratag : Type := mk_extratag {
  tag_code : Z;
  tag_dtype : string;
  tag_count : Z;
  tag_data : tag_value;
  tag_writeonce : bool
}.

Section Session.
(** The image array handed to [save], and the values of its keyword
    arguments: [**kwargs] is a dictionary from names to values. *)
Variable image : Type.
Variable value : Type.

(** A call of the original [save]: the image, the keyword arguments
    other than [extratags], and [extratags]. *)
Record save_call : Type := mk_save_call {
  call_data : image;
  call_kwargs : gmap string value;
  call_extratags : list extratag
}.

Record TiffWriter : Type := mk_TiffWriter {
  ijm_roi_data : list bytes;
  ijm_rois_per_frame : gmap Z Z;
  ijm_first_written : bool;
  original_saves : list save_call
}.

(** A fresh session. The file name only reaches the original
    [__init__], with [bigtiff=False], [imagej=True], [byteorder='>']. *)
Definition TiffWriter___init__ : TiffWriter :=
  mk_TiffWriter [] ∅ false [].

(** [self.__original_save(data, extratags=..., **kwargs)] *)
Definition original_save (self : TiffWriter) (data : image) (kwargs : gmap string value)
    (extratags : list extratag) : TiffWriter :=
  mk_TiffWriter (ijm_roi_data self) (ijm_rois_per_frame self) (ijm_first_written self)
    (original_saves self ++ [mk_save_call data kwargs extratags]).

(** [dt] is the dtype of the array [points]; [rnd] is the random draw
    [imagej_create_roi] would make. When the encoder raises, the
    per-frame counter has already been advanced. *)
Definition TiffWriter_add_roi (self : TiffWriter) (dt : np_int) (rnd : Z)
    (points : list (Z * Z)) (name : option pystr) (c z t : Z) : TiffWriter * result unit :=
  let '(per_frame, index) :=
    match name with
    | None =>
        let per_frame :=
          if decide (is_Some (ijm_rois_per_frame self !! t)) then ijm_rois_per_frame self
          else <[t := 0]> (ijm_rois_per_frame self) in
        let per_frame := <[t := default 0 (per_frame !! t) + 1]> per_frame in
        (per_frame, per_frame !! t)
    | Some _ => (ijm_rois_per_frame self, None)
    end in
  let self :=
    mk_TiffWriter (ijm_roi_data self) per_frame (ijm_first_written self)
      (original_saves self) in
  match imagej_create_roi dt rnd points name c z t index with
  | Ok roi =>
      (mk_TiffWriter (ijm_roi_data self ++ [roi]) (ijm_rois_per_frame self)
         (ijm_first_written self) (original_saves self), Ok tt)
  | Raise e => (self, Raise e)
  end.

(** The keyword arguments are accepted and not passed on: both calls
    of the original [save] are written without [**kwargs]. *)
Definition TiffWriter_new_save (self : TiffWriter) (data : image)
    (kwargs : gmap string value) : TiffWriter * result unit :=
  if ijm_first_written self || (length (ijm_roi_data self) =? 0)%nat then
    (original_save self data ∅ [], Ok tt)
  else
    match imagej_prepare_metadata (ijm_roi_data self) with
    | Ok (meta_data, byte_counts) =>
        let self :=
          mk_TiffWriter (ijm_roi_data self) (ijm_rois_per_frame self) true
            (original_saves self) in
        (original_save self data ∅
           [ mk_extratag 50838 "I" (Z.of_nat (length byte_counts)) (TagInts byte_counts) true;
             mk_extratag 50839 "B" (Z.of_nat (length meta_data)) (TagBytes meta_data) true ],
         Ok tt)
    | Raise e => (self, Raise e)
    end.

(** What a caller does with a session. *)
Inductive call : Type :=
| AddRoi (dt : np_int) (rnd : Z) (points : list (Z * Z)) (name : option pystr) (c z t : Z)
| Save (data : image) (kwargs : gmap string value).

Definition step (self : TiffWriter) (op : call) : TiffWriter :=
  match op with
  | AddRoi dt rnd points name c z t =>
      fst (TiffWriter_add_roi self dt rnd points name c z t)
  | Save data kwargs => fst (TiffWriter_new_save self data kwargs)
  end.

Definition run (self : TiffWriter) (ops : list call) : TiffWriter :=
  fold_left step ops self.

Definition is_save (op : call) : bool :=
  match op with
  | Save _ _ => true
  | AddRoi _ _ _ _ _ _ _ => false
  end.

End Session.

Arguments mk_save_call {image value} _ _ _.
Arguments call_data {image value} _.
Arguments call_kwargs {image value} _.
Arguments call_extratags {image value} _.
Arguments ijm_roi_data {image value} _.
Arguments ijm_rois_per_frame {image value} _.
Arguments ijm_first_written {image value} _.
Arguments original_saves {image value} _.
Arguments TiffWriter___init__ {image value}.
Arguments original_save {image value} _ _ _ _.
Arguments TiffWriter_add_roi {image value} _ _ _ _ _ _ _ _.
Arguments TiffWriter_new_save {image value} _ _ _.
Arguments AddRoi {image value} _ _ _ _ _ _ _.
Arguments Save {image value} _ _.
Arguments step {image value} _ _.
Arguments run {image value} _ _.
Arguments is_save {image value} _.

(** ** Vocabulary of the statements *)

(** The two headers as [imagej_create_roi] fills them in, when no
    assignment raises. *)
Definition encoder_header (left top n t header2_offset : Z) : record :=
  let header := mk_record IMAGEJ_ROI_HEADER (zero_filled IMAGEJ_ROI_HEADER) in
  let header := set_chars header "_iout" ["I"; "o"; "u"; "t"]%byte in
  let header := store_int header "version" IJM_ROI_VERSION in
  let header := store_int header "roi_type" CONST_IJ_FREEHAND in
  let header := store_int header "left" left in
  let header := store_int header "top" top in
  let header := store_int header "n_coordinates" n in
  let header := store_int header "options" 40 in
  let header := store_int header "position" (t + 1) in
  store_int header "header2_offset" header2_offset.

Definition encoder_header2 (name_offset name_length : Z) : record :=
  let header2 := mk_record IMAGEJ_ROI_HEADER2 (zero_filled IMAGEJ_ROI_HEADER2) in
  let header2 := store_int header2 "name_offset" name_offset in
  store_int header2 "name_length" name_length.

(** The record [imagej_create_roi] returns when nothing raises. *)
Definition encoded_record (dt : np_int) (left top t : Z) (points : list (Z * Z))
    (name : pystr) (name_bytes : bytes) : bytes :=
  let n := Z.of_nat (length points) in
  rec_buf (encoder_header left top n t (64 + 4 * n))
  ++ tobytes_F (astype_int16 (translate dt left top points))
  ++ rec_buf (encoder_header2 (wrap_signed 32 (64 + 4 * n) + 52) (Z.of_nat (length name)))
  ++ name_bytes.

(** The dictionary the decoder starts from. *)
Definition initial_overlay (name : pystr) : gmap string pyobj :=
  <["coordinates"%string := PNone]> (<["name"%string := PStr name]> ∅).

(** One step of [insert_fields]. *)
Definition insert_field (r : record) (ov : gmap string pyobj) (key : string)
    : gmap string pyobj :=
  if is_private key then ov
  else match getfield r key with
       | Some v => <[key := asscalar v]> ov
       | None => ov
       end.

(** The name the decoder reads, given the secondary header. *)
Definition overlay_name (data : bytes) (header2 : record) : result pystr :=
  if 0 <? get_int header2 "name_offset" then
    utf16be_decode
      (py_slice data (get_int header2 "name_offset")
         (get_int header2 "name_offset" + get_int header2 "name_length" * 2))
  else Ok [].

Definition int16_range (v : Z) : Prop := -32768 <= v <= 32767.

(** The largest value an array of dtype [dt] holds. *)
Definition np_max (dt : np_int) : Z :=
  if np_signed dt then 2 ^ (np_bits dt - 1) - 1 else 2 ^ np_bits dt - 1.

(** The range of a C [long], as a proposition. *)
Definition c_long_range (v : Z) : Prop := - 2 ^ 63 <= v < 2 ^ 63.

(** A character that UTF-16 stores in one unit. *)
Definition bmp_char (cp : Z) : Prop := 0 <= cp < 0x10000 /\ is_surrogate cp = false.

Definition bmp_name (name : option pystr) : Prop :=
  match name with
  | Some name => Forall bmp_char name
  | None => True
  end.

(** The value of a digit character and of a digit string. *)
Definition digit_value (ch : Z) : Z := if ch <? 58 then ch - 48 else ch - 87.

Definition digits_value (base : Z) (s : pystr) : Z :=
  fold_left (fun acc ch => acc * base + digit_value ch) s 0.

Definition is_hex_digit (ch : Z) : Prop := 48 <= ch <= 57 \/ 97 <= ch <= 102.
Definition is_dec_digit (ch : Z) : Prop := 48 <= ch <= 57.

(** Adding the bounding-box origin back to decoded coordinates. *)
Definition add_origin (left top : Z) (coordinates : list (Z * Z)) : list (Z * Z) :=
  map (fun p => (fst p + left, snd p + top)) coordinates.

(** Encoding [points] and decoding the record gives [points] back. *)
Definition roundtrips (dt : np_int) (rnd : Z) (points : list (Z * Z)) (name : option pystr)
    (c z t : Z) (index : option Z) : Prop :=
  exists data overlay coordinates left top,
    imagej_create_roi dt rnd points name c z t index = Ok data
    /\ imagej_parse_overlay data = Ok overlay
    /\ overlay !! "coordinates"%string = Some (PArray coordinates)
    /\ overlay !! "left"%string = Some (PInt left)
    /\ overlay !! "top"%string = Some (PInt top)
    /\ add_origin left top coordinates = points.

(** The keys a decoded overlay carries besides [name] and [coordinates]. *)
Definition public_names (d : dtype) : list string :=
  List.filter (fun key => negb (is_private key)) (dtype_names d).

(** Every key of a decoded overlay. *)
Definition overlay_keys : list string :=
  ("name" :: "coordinates" :: public_names IMAGEJ_ROI_HEADER
   ++ public_names IMAGEJ_ROI_HEADER2)%string.

(** The extra tags the first emitting [save] passes on. *)
Definition emission_tags (roi_data : list bytes) : list extratag :=
  match imagej_prepare_metadata roi_data with
  | Ok (meta_data, byte_counts) =>
      [ mk_extratag 50838 "I" (Z.of_nat (length byte_counts)) (TagInts byte_counts) true;
        mk_extratag 50839 "B" (Z.of_nat (length meta_data)) (TagBytes meta_data) true ]
  | Raise _ => []
  end.

(** Some earlier [save] of the session was made while ROI records were
    pending. *)
Definition emitted_before {image value : Type} (before : list (call image value))
    : Prop :=
  exists pre data kwargs post,
    before = pre ++ Save data kwargs :: post
    /\ ijm_roi_data (run TiffWriter___init__ pre) <> [].

(** A call to the underlying [save] that carries no extra tags. *)
Definition plain_call {image value : Type} (c : save_call image value) : Prop :=
  call_extratags c = [].

(** ** Reading metadata back: [new_imagej_metadata]

    The dictionary the library's own [imagej_metadata] returns. Its entry
    [overlays], when there is one, is a sequence of raw byte buffers, one
    per stored ROI; every other entry is kept in [md_rest], where the
    patch adds [parsed_overlays]. *)

Section Metadata.
Variable other : Type.

Inductive meta_value : Type :=
| MRecords (overlays : list (gmap string pyobj))
| MOther (v : other).

Record metadata : Type := mk_metadata {
  md_overlays : option (list bytes);
  md_rest : gmap string meta_value
}.

(** The list of [Record(imagej_parse_overlay(data))], for [data] in the
    [overlays] entry, in order. *)
Fixpoint parse_overlays (buffers : list bytes) : result (list (gmap string pyobj)) :=
  match buffers with
  | [] => Ok []
  | data :: rest =>
      do overlay <- imagej_parse_overlay data;
      do overlays <- parse_overlays rest;
      Ok (overlay :: overlays)
  end.

(** [original] is what [__original_imagej_metadata] returned. *)
Definition new_imagej_metadata (original : metadata) : result metadata :=
  match md_overlays original with
  | Some buffers =>
      do parsed <- parse_overlays buffers;
      Ok (mk_metadata (md_overlays original)
            (<["parsed_overlays"%string := MRecords parsed]> (md_rest original)))
  | None => Ok original
  end.

End Metadata.

Arguments MRecords {other} _.
Arguments MOther {other} _.
Arguments mk_metadata {other} _ _.
Arguments md_overlays {other} _.
Arguments md_rest {other} _.
Arguments new_imagej_metadata {other} _.

(** ** Further vocabulary *)




(** A character above U+FFFF, which UTF-16 stores as a surrogate pair. *)
Definition is_astral (cp : Z) : bool := 0x10000 <=? cp.

(** The number of UTF-16 units of a string. *)
Definition utf16_length (s : pystr) : nat :=
  (length s + length (List.filter is_astral s))%nat.


(** The primary-header fields the encoder never assigns, and the
    integer fields of the secondary header it never assigns. *)
Definition unassigned_header_fields : list string :=
  [ "_pad_byte"; "bottom"; "right"; "x1"; "y1"; "x2"; "y2"; "stroke_width";
    "shape_roi_size"; "stroke_color"; "fill_color"; "subtype";
    "arrow_style_or_aspect_ratio"; "arrow_head_size"; "rounded_rect_arc_size" ]%string.

Definition unassigned_header2_fields : list string :=
  [ "_nil"; "c"; "z"; "t"; "overlay_label_color"; "overlay_font_size";
    "available_byte1"; "image_opacity"; "image_size"; "roi_props_offset";
    "roi_props_length"; "counters_offset" ]%string.

(** The sum of a list of integers. *)
Definition total (l : list Z) : Z := fold_right Z.add 0 l.

(** The number of [add_roi] calls without a name made for frame [t]. *)
Definition unnamed_adds {image value : Type} (t : Z) (ops : list (call image value))
    : Z :=
  Z.of_nat
    (length
       (List.filter
          (fun op =>
             match op with
             | AddRoi _ _ _ None _ _ t' => Z.eqb t' t
             | _ => false
             end) ops)).

(** * Properties *)

(** ** Bytes and integers *)

Lemma Z_of_byte_range (b : byte) : 0 <= Z_of_byte b < 256.
Proof.
  unfold Z_of_byte. pose proof (Byte.to_N_bounded b). lia.
Qed.

Lemma Z_of_byte_of_Z (z : Z) : Z_of_byte (byte_of_Z z) = z mod 256.
Proof.
  unfold Z_of_byte, byte_of_Z.
  assert (Hr : 0 <= z mod 256 < 256) by (apply Z.mod_pos_bound; lia).
  destruct (Byte.of_N (Z.to_N (z mod 256))) as [b|] eqn:E.
  - apply Byte.to_of_N in E. rewrite E. lia.
  - apply Byte.of_N_None_iff in E. lia.
Qed.

Lemma byte_of_Z_of_byte (b : byte) : byte_of_Z (Z_of_byte b) = b.
Proof.
  unfold byte_of_Z. rewrite Z.mod_small by apply Z_of_byte_range.
  unfold Z_of_byte. rewrite N2Z.id, Byte.of_to_N. reflexivity.
Qed.

Lemma be_bytes_length (n : nat) (z : Z) : length (be_bytes n z) = n.
Proof. induction n; simpl; congruence. Qed.

Lemma be_fold_be_bytes (n : nat) (z acc : Z) :
  fold_left (fun a b => a * 256 + Z_of_byte b) (be_bytes n z) acc
  = acc * 2 ^ (8 * Z.of_nat n) + z mod 2 ^ (8 * Z.of_nat n).
Proof.
  revert acc. induction n as [|m IH]; intros acc.
  - simpl. rewrite Z.mod_1_r. lia.
  - cbn [be_bytes fold_left]. rewrite IH, Z_of_byte_of_Z.
    replace (8 * Z.of_nat (S m)) with (8 * Z.of_nat m + 8) by lia.
    rewrite Z.pow_add_r by lia.
    assert (Hp : 0 < 2 ^ (8 * Z.of_nat m)) by (apply Z.pow_pos_nonneg; lia).
    change (2 ^ 8) with 256.
    rewrite (Z.rem_mul_r z (2 ^ (8 * Z.of_nat m)) 256) by lia.
    lia.
Qed.

Lemma be_value_be_bytes (n : nat) (z : Z) :
  be_value (be_bytes n z) = z mod 2 ^ (8 * Z.of_nat n).
Proof. unfold be_value. rewrite be_fold_be_bytes. lia. Qed.

Lemma to_signed_mod (w z : Z) : 0 < w -> to_signed w (z mod 2 ^ w) = wrap_signed w z.
Proof.
  intros Hw. unfold to_signed, wrap_signed.
  assert (H2 : 2 ^ w = 2 * 2 ^ (w - 1)).
  { rewrite <- Z.pow_succ_r by lia. f_equal. lia. }
  assert (Hp : 0 < 2 ^ (w - 1)) by (apply Z.pow_pos_nonneg; lia).
  pose proof (Z.mod_pos_bound z (2 ^ w) ltac:(lia)) as Hb.
  destruct (Z.ltb_spec (z mod 2 ^ w) (2 ^ (w - 1))) as [Hlt|Hge].
  - symmetry. apply Z.sub_move_r.
    symmetry. apply (Z.mod_unique_pos _ _ ((z / 2 ^ w))); [lia|].
    pose proof (Z.div_mod z (2 ^ w) ltac:(lia)). lia.
  - symmetry. apply Z.sub_move_r.
    symmetry. apply (Z.mod_unique_pos _ _ ((z / 2 ^ w) + 1)); [lia|].
    pose proof (Z.div_mod z (2 ^ w) ltac:(lia)). lia.
Qed.

Lemma wrap_signed_small (w z : Z) :
  0 < w -> - 2 ^ (w - 1) <= z < 2 ^ (w - 1) -> wrap_signed w z = z.
Proof.
  intros Hw Hz. unfold wrap_signed.
  assert (H2 : 2 ^ w = 2 * 2 ^ (w - 1)).
  { rewrite <- Z.pow_succ_r by lia. f_equal. lia. }
  rewrite Z.mod_small by lia. lia.
Qed.

Lemma wrap_signed_range (w z : Z) :
  0 < w -> - 2 ^ (w - 1) <= wrap_signed w z < 2 ^ (w - 1).
Proof.
  intros Hw. unfold wrap_signed.
  assert (H2 : 2 ^ w = 2 * 2 ^ (w - 1)).
  { rewrite <- Z.pow_succ_r by lia. f_equal. lia. }
  assert (Hp : 0 < 2 ^ (w - 1)) by (apply Z.pow_pos_nonneg; lia).
  pose proof (Z.mod_pos_bound (z + 2 ^ (w - 1)) (2 ^ w) ltac:(lia)). lia.
Qed.

Lemma np_cast_small (dt : np_int) (v : Z) : 0 <= v <= np_max dt -> np_cast dt v = v.
Proof.
  unfold np_cast, np_max.
  destruct dt; cbn [np_signed np_bits]; intros H;
    first [ apply wrap_signed_small; lia | apply Z.mod_small; lia ].
Qed.

Lemma fits_c_long_spec (v : Z) : fits_c_long v = true <-> c_long_range v.
Proof. unfold fits_c_long, c_long_range. lia. Qed.


(** Reading back an integer field of [n] bytes that was written with [z]. *)
Lemma signed_be_roundtrip (n : nat) (z : Z) :
  (0 < n)%nat ->
  to_signed (8 * Z.of_nat n) (be_value (be_bytes n z)) = wrap_signed (8 * Z.of_nat n) z.
Proof.
  intros Hn. rewrite be_value_be_bytes. apply to_signed_mod. lia.
Qed.

(** ** Lists of bytes *)

Lemma firstn_app_exact {A : Type} (l1 l2 : list A) (n : nat) :
  n = length l1 -> firstn n (l1 ++ l2) = l1.
Proof.
  intros ->. rewrite firstn_app, Nat.sub_diag, firstn_all. simpl. apply app_nil_r.
Qed.

Lemma skipn_app_exact {A : Type} (l1 l2 : list A) (n : nat) :
  n = length l1 -> skipn n (l1 ++ l2) = l2.
Proof.
  intros ->. rewrite skipn_app, Nat.sub_diag, skipn_all. reflexivity.
Qed.

Lemma clamp_index_inside (len i : Z) : 0 <= i <= len -> clamp_index len i = i.
Proof.
  intros H. unfold clamp_index.
  destruct (Z.ltb_spec i 0) as [|_]; [lia|]. cbv zeta iota.
  destruct (Z.ltb_spec i 0) as [|_]; [lia|].
  destruct (Z.ltb_spec len i); lia.
Qed.

Lemma py_slice_middle {A : Type} (pre mid post : list A) (a b : Z) :
  a = Z.of_nat (length pre) ->
  b = Z.of_nat (length pre) + Z.of_nat (length mid) ->
  py_slice (pre ++ mid ++ post) a b = mid.
Proof.
  intros -> ->. unfold py_slice.
  rewrite !clamp_index_inside by (rewrite !length_app; lia).
  rewrite skipn_app_exact by lia.
  apply firstn_app_exact. lia.
Qed.

Lemma py_slice_tail {A : Type} (pre post : list A) (a b : Z) :
  a = Z.of_nat (length pre) ->
  b = Z.of_nat (length pre) + Z.of_nat (length post) ->
  py_slice (pre ++ post) a b = post.
Proof.
  intros Ha Hb. rewrite <- (app_nil_r post) at 1.
  apply py_slice_middle; assumption.
Qed.

(** ** Records *)

Lemma new_record_at (d : dtype) (pre body post : bytes) (offset : Z) :
  length body = itemsize d ->
  offset = Z.of_nat (length pre) ->
  new_record d (Some (pre ++ body ++ post)) offset = Ok (mk_record d body).
Proof.
  intros Hb ->. unfold new_record. rewrite !length_app.
  destruct (Z.ltb_spec (Z.of_nat (length pre + (length body + length post)))
              (Z.of_nat (length pre) + Z.of_nat (itemsize d))); [lia|].
  destruct (Z.ltb_spec (Z.of_nat (length pre)) 0); [lia|].
  rewrite Nat2Z.id, skipn_app_exact by reflexivity.
  rewrite firstn_app_exact by congruence. reflexivity.
Qed.

Lemma new_record_start (d : dtype) (body post : bytes) :
  length body = itemsize d ->
  new_record d (Some (body ++ post)) 0 = Ok (mk_record d body).
Proof.
  intros Hb. apply (new_record_at d [] body post 0 Hb). reflexivity.
Qed.

Lemma new_record_too_short (d : dtype) (data : bytes) (offset : Z) :
  Z.of_nat (length data) < offset + Z.of_nat (itemsize d) ->
  new_record d (Some data) offset = Raise BufferTooSmall.
Proof.
  intros H. unfold new_record.
  destruct (Z.ltb_spec (Z.of_nat (length data)) (offset + Z.of_nat (itemsize d))); [reflexivity|lia].
Qed.

Lemma new_record_dtype (d : dtype) (data : option bytes) (offset : Z) (r : record) :
  new_record d data offset = Ok r -> rec_dtype r = d.
Proof.
  unfold new_record. destruct data as [buf|].
  - destruct (_ <? _); [discriminate|]. destruct (_ <? _); [discriminate|].
    intros [= <-]. reflexivity.
  - intros [= <-]. reflexivity.
Qed.

Lemma encoder_header_length (left top n t off : Z) :
  length (rec_buf (encoder_header left top n t off)) = 64%nat.
Proof. reflexivity. Qed.

Lemma encoder_header2_length (name_offset name_length : Z) :
  length (rec_buf (encoder_header2 name_offset name_length)) = 52%nat.
Proof. reflexivity. Qed.

Lemma encoder_header_eta (left top n t off : Z) :
  mk_record IMAGEJ_ROI_HEADER (rec_buf (encoder_header left top n t off))
  = encoder_header left top n t off.
Proof. reflexivity. Qed.

Lemma encoder_header2_eta (name_offset name_length : Z) :
  mk_record IMAGEJ_ROI_HEADER2 (rec_buf (encoder_header2 name_offset name_length))
  = encoder_header2 name_offset name_length.
Proof. reflexivity. Qed.

(** The fields the encoder writes, as the decoder reads them. *)
Section EncoderFields.
Variables left top n t off : Z.
Let h := encoder_header left top n t off.

Lemma header_version : get_int h "version" = 226.
Proof. reflexivity. Qed.

Lemma header_roi_type : get_int h "roi_type" = CONST_IJ_FREEHAND.
Proof. reflexivity. Qed.

Lemma header_options : get_int h "options" = 40.
Proof. reflexivity. Qed.

Lemma header_left : get_int h "left" = wrap_signed 16 left.
Proof. apply (signed_be_roundtrip 2 left). lia. Qed.

Lemma header_top : get_int h "top" = wrap_signed 16 top.
Proof. apply (signed_be_roundtrip 2 top). lia. Qed.

Lemma header_n_coordinates : get_int h "n_coordinates" = wrap_signed 16 n.
Proof. apply (signed_be_roundtrip 2 n). lia. Qed.

Lemma header_position : get_int h "position" = wrap_signed 32 (t + 1).
Proof. apply (signed_be_roundtrip 4 (t + 1)). lia. Qed.

Lemma header_header2_offset : get_int h "header2_offset" = wrap_signed 32 off.
Proof. apply (signed_be_roundtrip 4 off). lia. Qed.
End EncoderFields.

Section EncoderFields2.
Variables name_offset name_length : Z.
Let h2 := encoder_header2 name_offset name_length.

Lemma header2_name_offset : get_int h2 "name_offset" = wrap_signed 32 name_offset.
Proof. apply (signed_be_roundtrip 4 name_offset). lia. Qed.

Lemma header2_name_length : get_int h2 "name_length" = wrap_signed 32 name_length.
Proof. apply (signed_be_roundtrip 4 name_length). lia. Qed.

Lemma header2_czt : get_int h2 "c" = 0 /\ get_int h2 "z" = 0 /\ get_int h2 "t" = 0.
Proof. repeat split; reflexivity. Qed.
End EncoderFields2.

(** ** Coordinate arrays *)

Lemma column_bytes_length {A : Type} (f : A -> Z) (l : list A) :
  length (concat (map (fun p => be_bytes 2 (f p)) l)) = (2 * length l)%nat.
Proof.
  induction l as [|a l IH]; [reflexivity|].
  cbn [map concat]. rewrite length_app, IH, be_bytes_length. simpl. lia.
Qed.

Lemma tobytes_F_length (points : list (Z * Z)) :
  length (tobytes_F points) = (4 * length points)%nat.
Proof.
  unfold tobytes_F. rewrite length_app, !column_bytes_length. lia.
Qed.

Lemma int16_at_column {A : Type} (f : A -> Z) (l : list A) (rest : bytes) (k : nat) (d : A) :
  (k < length l)%nat ->
  int16_at (concat (map (fun p => be_bytes 2 (f p)) l) ++ rest) k
  = wrap_signed 16 (f (nth k l d)).
Proof.
  revert k. induction l as [|a l IH]; intros k Hk; [simpl in Hk; lia|].
  destruct k as [|k].
  - unfold int16_at. cbn [map concat nth].
    change (2 * 0)%nat with 0%nat. rewrite skipn_O, <- !app_assoc.
    rewrite firstn_app_exact by (rewrite be_bytes_length; reflexivity).
    apply (signed_be_roundtrip 2 (f a)). lia.
  - unfold int16_at in *. cbn [map concat nth].
    replace (2 * S k)%nat with (2 * k + 2)%nat by lia.
    rewrite <- skipn_skipn, <- !app_assoc.
    rewrite skipn_app_exact by (rewrite be_bytes_length; reflexivity).
    apply IH. simpl in Hk. lia.
Qed.

Lemma map_seq_nth {A B : Type} (f : A -> B) (d : A) (l : list A) (g : nat -> B) :
  (forall i, (i < length l)%nat -> g i = f (nth i l d)) ->
  map g (seq 0 (length l)) = map f l.
Proof.
  revert g. induction l as [|a l IH]; intros g Hg; [reflexivity|].
  cbn [length seq map]. rewrite <- seq_shift, map_map.
  f_equal.
  - apply (Hg 0%nat). simpl. lia.
  - apply IH. intros i Hi. apply (Hg (S i)). simpl. lia.
Qed.

(** Reading the coordinate block back gives the 16-bit points it was
    written from. *)
Lemma ndarray_tobytes_F (points : list (Z * Z)) (n : Z) :
  n = Z.of_nat (length points) ->
  ndarray_F_int16 n (tobytes_F points) = Ok (astype_int16 points).
Proof.
  intros ->. unfold ndarray_F_int16.
  destruct (Z.ltb_spec (Z.of_nat (length points)) 0); [lia|].
  rewrite tobytes_F_length.
  destruct (Z.ltb_spec (Z.of_nat (4 * length points)) (2 * (Z.of_nat (length points) * 2))); [lia|].
  f_equal. rewrite Nat2Z.id. unfold astype_int16.
  apply (map_seq_nth _ (0, 0)). intros i Hi. unfold tobytes_F. f_equal.
  - apply (int16_at_column fst). exact Hi.
  - unfold int16_at.
    replace (2 * (length points + i))%nat with (2 * i + 2 * length points)%nat by lia.
    rewrite <- skipn_skipn.
    rewrite skipn_app_exact by (rewrite column_bytes_length; reflexivity).
    pose proof (int16_at_column snd points [] i (0, 0) Hi) as E.
    unfold int16_at in E. rewrite app_nil_r in E. exact E.
Qed.

(** ** UTF-16 *)

Lemma bmp_unit (cp : Z) :
  0 <= cp < 0x10000 ->
  Z_of_byte (byte_of_Z (cp / 2 ^ (8 * Z.of_nat 1))) * 256
  + Z_of_byte (byte_of_Z (cp / 2 ^ (8 * Z.of_nat 0))) = cp.
Proof.
  intros H. rewrite !Z_of_byte_of_Z.
  change (2 ^ (8 * Z.of_nat 1)) with 256. change (2 ^ (8 * Z.of_nat 0)) with 1.
  rewrite Z.div_1_r.
  rewrite (Z.mod_small (cp / 256)) by (split; [apply Z.div_pos; lia | apply Z.div_lt_upper_bound; lia]).
  pose proof (Z.div_mod cp 256 ltac:(lia)). lia.
Qed.

Lemma utf16be_encode_bmp (name : pystr) :
  Forall bmp_char name ->
  utf16be_encode name = Ok (concat (map (be_bytes 2) name)).
Proof.
  induction 1 as [|cp name [Hr Hs] _ IH]; [reflexivity|].
  cbn [utf16be_encode map concat]. rewrite Hs, IH. cbn [bind].
  destruct (Z.ltb_spec cp 65536); [reflexivity|lia].
Qed.

Lemma utf16_units_cons (cp : Z) (rest : bytes) :
  utf16_units (be_bytes 2 cp ++ rest)
  = do us <- utf16_units rest;
    Ok (Z_of_byte (byte_of_Z (cp / 2 ^ (8 * Z.of_nat 1))) * 256
        + Z_of_byte (byte_of_Z (cp / 2 ^ (8 * Z.of_nat 0))) :: us).
Proof. reflexivity. Qed.

Lemma utf16_units_bmp (name : pystr) :
  Forall bmp_char name ->
  utf16_units (concat (map (be_bytes 2) name)) = Ok name.
Proof.
  induction 1 as [|cp name [Hr Hs] _ IH]; [reflexivity|].
  cbn [map concat]. rewrite utf16_units_cons, IH. cbn [bind].
  rewrite bmp_unit by exact Hr. reflexivity.
Qed.

Lemma utf16_join_bmp (name : pystr) :
  Forall bmp_char name -> utf16_join name = Ok name.
Proof.
  induction 1 as [|cp name [Hr Hs] _ IH]; [reflexivity|].
  cbn [utf16_join]. rewrite IH.
  unfold is_surrogate in Hs. unfold is_high_surrogate, is_low_surrogate.
  destruct (Z.leb_spec 0xD800 cp), (Z.leb_spec cp 0xDBFF), (Z.leb_spec 0xDC00 cp),
    (Z.leb_spec cp 0xDFFF); cbn [andb bind] in *; try reflexivity; try discriminate; lia.
Qed.

Lemma utf16be_decode_bmp (name : pystr) :
  Forall bmp_char name ->
  utf16be_decode (concat (map (be_bytes 2) name)) = Ok name.
Proof.
  intros H. unfold utf16be_decode. rewrite utf16_units_bmp by exact H.
  cbn [bind]. apply utf16_join_bmp, H.
Qed.

Lemma utf16_bytes_length (name : pystr) :
  length (concat (map (be_bytes 2) name)) = (2 * length name)%nat.
Proof. apply (column_bytes_length (fun cp => cp)). Qed.

(** ** Formatting integers *)

Lemma digit_char_range (d : Z) : 0 <= d < 16 -> is_hex_digit (digit_char d).
Proof.
  intros H. unfold is_hex_digit, digit_char. destruct (Z.ltb_spec d 10); lia.
Qed.

Lemma digit_char_decimal (d : Z) : 0 <= d < 10 -> is_dec_digit (digit_char d).
Proof.
  intros H. unfold is_dec_digit, digit_char. destruct (Z.ltb_spec d 10); lia.
Qed.

Lemma digit_value_char (d : Z) : 0 <= d < 16 -> digit_value (digit_char d) = d.
Proof.
  intros H. unfold digit_value, digit_char.
  destruct (Z.ltb_spec d 10).
  - destruct (Z.ltb_spec (48 + d) 58); lia.
  - destruct (Z.ltb_spec (87 + d) 58); lia.
Qed.

Lemma hex_digit_bmp (ch : Z) : is_hex_digit ch -> bmp_char ch.
Proof.
  unfold is_hex_digit, bmp_char, is_surrogate. intros H. split; [lia|].
  destruct (Z.leb_spec 0xD800 ch); [lia|]. reflexivity.
Qed.

Lemma digits_value_fold (base : Z) (s : pystr) (acc : Z) :
  fold_left (fun a ch => a * base + digit_value ch) s acc
  = acc * base ^ Z.of_nat (length s) + digits_value base s.
Proof.
  unfold digits_value. revert acc. induction s as [|ch s IH]; intros acc.
  - simpl. lia.
  - cbn [fold_left length]. rewrite IH, (IH (0 * base + digit_value ch)).
    rewrite Nat2Z.inj_succ, Z.pow_succ_r by lia. lia.
Qed.

Lemma digits_value_cons (base ch : Z) (s : pystr) :
  digits_value base (ch :: s)
  = digit_value ch * base ^ Z.of_nat (length s) + digits_value base s.
Proof.
  unfold digits_value at 1. cbn [fold_left]. rewrite digits_value_fold. lia.
Qed.

Lemma digits_loop_value (base : Z) (fuel : nat) (n : Z) (acc : pystr) :
  2 <= base <= 16 -> 0 <= n < 2 ^ Z.of_nat fuel ->
  digits_value base (digits_loop base fuel n acc)
  = n * base ^ Z.of_nat (length acc) + digits_value base acc.
Proof.
  intros Hb. revert n acc. induction fuel as [|fuel IH]; intros n acc Hn.
  - simpl in Hn. assert (n = 0) by lia. subst n. simpl. lia.
  - cbn [digits_loop].
    pose proof (Z.div_mod n base ltac:(lia)) as Hdm.
    pose proof (Z.mod_pos_bound n base ltac:(lia)) as Hm.
    assert (Hq : 0 <= n / base) by (apply Z.div_pos; lia).
    destruct (Z.eqb_spec (n / base) 0) as [E|E].
    + rewrite digits_value_cons, digit_value_char by lia. nia.
    + rewrite IH.
      * rewrite digits_value_cons, digit_value_char by lia.
        cbn [length]. rewrite Nat2Z.inj_succ, Z.pow_succ_r by lia. nia.
      * split; [lia|]. rewrite Nat2Z.inj_succ, Z.pow_succ_r in Hn by lia.
        apply Z.div_lt_upper_bound; [lia|].
        assert (0 < 2 ^ Z.of_nat fuel) by (apply Z.pow_pos_nonneg; lia). nia.
Qed.

Lemma digits_value_digits (base n : Z) :
  2 <= base <= 16 -> 0 <= n -> digits_value base (digits base n) = n.
Proof.
  intros Hb Hn. unfold digits. rewrite digits_loop_value; [|exact Hb|].
  { change (digits_value base []) with 0. cbn [length]. rewrite Z.pow_0_r. lia. }
  split; [lia|]. rewrite Nat2Z.inj_succ, Z2Nat.id by apply Z.log2_nonneg.
  destruct (Z.eq_dec n 0) as [->|Hne]; [reflexivity|].
  apply Z.log2_spec. lia.
Qed.

Lemma digits_loop_longer (base : Z) (fuel : nat) (n : Z) (acc : pystr) :
  (length acc <= length (digits_loop base fuel n acc))%nat.
Proof.
  revert n acc. induction fuel as [|fuel IH]; intros n acc; [simpl; lia|].
  cbn [digits_loop]. destruct (n / base =? 0); [simpl; lia|].
  etransitivity; [|apply IH]. simpl. lia.
Qed.

Lemma digits_loop_shorter (base : Z) (fuel : nat) (n : Z) (acc : pystr) (k : nat) :
  2 <= base -> 0 <= n < base ^ Z.of_nat k -> (1 <= k)%nat ->
  (length (digits_loop base fuel n acc) <= length acc + k)%nat.
Proof.
  intros Hb. revert n acc k. induction fuel as [|fuel IH]; intros n acc k Hn Hk; [simpl; lia|].
  cbn [digits_loop]. destruct (Z.eqb_spec (n / base) 0) as [E|E]; [simpl; lia|].
  destruct k as [|[|k]]; [lia| |].
  - exfalso. apply E. apply Z.div_small. simpl in Hn. lia.
  - etransitivity; [apply (IH _ _ (S k))|simpl; lia]; [|lia].
    split; [apply Z.div_pos; lia|].
    apply Z.div_lt_upper_bound; [lia|].
    rewrite (Nat2Z.inj_succ (S k)), Z.pow_succ_r in Hn by lia. lia.
Qed.

Lemma digits_loop_Forall (P : Z -> Prop) (base : Z) (fuel : nat) (n : Z) (acc : pystr) :
  0 < base -> (forall d, 0 <= d < base -> P (digit_char d)) ->
  Forall P acc -> Forall P (digits_loop base fuel n acc).
Proof.
  intros Hb HP. revert n acc. induction fuel as [|fuel IH]; intros n acc Hacc; [exact Hacc|].
  cbn [digits_loop].
  assert (Forall P (digit_char (n mod base) :: acc)).
  { constructor; [apply HP, Z.mod_pos_bound; lia|exact Hacc]. }
  destruct (n / base =? 0); [assumption|]. apply IH. assumption.
Qed.

Lemma digits_nonempty (base n : Z) : (1 <= length (digits base n))%nat.
Proof.
  unfold digits. cbn [digits_loop]. destruct (n / base =? 0); [simpl; lia|].
  etransitivity; [|apply digits_loop_longer]. simpl. lia.
Qed.

Lemma digits_length (base n : Z) (k : nat) :
  2 <= base -> 0 <= n < base ^ Z.of_nat k -> (1 <= k)%nat ->
  (1 <= length (digits base n) <= k)%nat.
Proof.
  intros Hb Hn Hk. unfold digits. split.
  - cbn [digits_loop]. destruct (n / base =? 0); [simpl; lia|].
    etransitivity; [|apply digits_loop_longer]. simpl. lia.
  - apply (digits_loop_shorter base _ n [] k); assumption.
Qed.

Lemma digits_hex (n : Z) : Forall is_hex_digit (digits 16 n).
Proof.
  apply digits_loop_Forall; [lia| |constructor].
  intros d Hd. apply digit_char_range. lia.
Qed.

Lemma digits_decimal (n : Z) : Forall is_dec_digit (digits 10 n).
Proof.
  apply digits_loop_Forall; [lia| |constructor].
  intros d Hd. apply digit_char_decimal. lia.
Qed.

Lemma signed_digits_bmp (base n : Z) :
  0 < base <= 16 -> Forall bmp_char (signed_digits base n).
Proof.
  intros Hb.
  assert (H : forall m, Forall bmp_char (digits base m)).
  { intros m. apply digits_loop_Forall; [lia| |constructor].
    intros d Hd. apply hex_digit_bmp, digit_char_range. lia. }
  unfold signed_digits. destruct (n <? 0); [|apply H].
  constructor; [|apply H]. split; [lia|reflexivity].
Qed.

Lemma str_of_string_bmp (s : string) : Forall bmp_char (str_of_string s).
Proof.
  unfold str_of_string. apply Forall_map, Forall_forall. intros a _.
  pose proof (N_ascii_bounded a) as Hb.
  unfold bmp_char, is_surrogate. split; [lia|].
  destruct (Z.leb_spec 0xD800 (Z.of_N (N_of_ascii a))); [lia|]. reflexivity.
Qed.

(** Every name the encoder makes up is plain ASCII. *)
Lemma synthesized_name_bmp (rnd : Z) (name : option pystr) (t : Z) (index : option Z) :
  bmp_name name -> Forall bmp_char (synthesize_name rnd name t index).
Proof.
  intros Hn. unfold synthesize_name.
  assert (H2 : Forall bmp_char (fmt_02d (t + 1))).
  { unfold fmt_02d. destruct (_ <? _)%nat; [constructor; [split; [lia|reflexivity]|]|];
      apply signed_digits_bmp; lia. }
  destruct name as [name|]; [exact Hn|].
  destruct index as [index|];
    repeat (apply Forall_app; split); try apply str_of_string_bmp; try exact H2;
    apply signed_digits_bmp; lia.
Qed.

(** ** Column minima *)

Lemma fold_min_spec (l : list Z) (x : Z) :
  let m := fold_left Z.min l x in
  m <= x /\ Forall (fun y => m <= y) l /\ (m = x \/ In m l).
Proof.
  revert x. induction l as [|y l IH]; intros x; cbn [fold_left].
  - repeat split; [lia|constructor|left; reflexivity].
  - destruct (IH (Z.min x y)) as (H1 & H2 & H3). repeat split.
    + lia.
    + constructor; [lia|exact H2].
    + destruct H3 as [H3|H3]; [|right; right; exact H3].
      destruct (Z.min_spec x y) as [[_ E]|[_ E]].
      * left. rewrite H3. exact E.
      * right; left. rewrite H3. symmetry; exact E.
Qed.

(** [array_min] returns an element that bounds every element below. *)
Lemma array_min_spec (l : list Z) (m : Z) :
  array_min l = Ok m -> In m l /\ Forall (fun y => m <= y) l.
Proof.
  destruct l as [|x l]; [discriminate|]. intros [= <-].
  destruct (fold_min_spec l x) as (H1 & H2 & H3). split.
  - destruct H3 as [->|H3]; [left; reflexivity|right; exact H3].
  - constructor; assumption.
Qed.

Lemma array_min_nonempty (l : list Z) : l <> [] -> exists m, array_min l = Ok m.
Proof. destruct l; [congruence|]. intros _. eexists. reflexivity. Qed.

(** ** The shape of an encoded record *)

Lemma translate_length (dt : np_int) (left top : Z) (points : list (Z * Z)) :
  length (translate dt left top points) = length points.
Proof. apply length_map. Qed.

Lemma astype_int16_length (points : list (Z * Z)) :
  length (astype_int16 points) = length points.
Proof. apply length_map. Qed.

Lemma imagej_create_roi_unfold (dt : np_int) (rnd : Z) (points : list (Z * Z)) (name : option pystr)
    (c z t : Z) (index : option Z) :
  imagej_create_roi dt rnd points name c z t index
  = do left <- array_min (map fst points);
    do top <- array_min (map snd points);
    if fits_c_long (t + 1) then
      do name_bytes <- utf16be_encode (synthesize_name rnd name t index);
      let moved := translate dt left top points in
      let encoded_data := tobytes_F (astype_int16 moved) in
      let header :=
        encoder_header left top (Z.of_nat (length moved)) t
          (64 + Z.of_nat (length encoded_data)) in
      let header2 :=
        encoder_header2 (get_int header "header2_offset" + 52)
          (Z.of_nat (length (synthesize_name rnd name t index))) in
      Ok (rec_buf header ++ encoded_data ++ rec_buf header2 ++ name_bytes)
    else Raise OverflowError.
Proof.
  unfold imagej_create_roi, set_int.
  destruct (array_min (map fst points)) as [left|e]; [|reflexivity].
  destruct (array_min (map snd points)) as [top|e]; [|reflexivity].
  destruct (fits_c_long (t + 1)); reflexivity.
Qed.

Lemma imagej_create_roi_eq (dt : np_int) (rnd : Z) (points : list (Z * Z)) (name : option pystr)
    (c z t : Z) (index : option Z) (left top : Z) (name_bytes : bytes) :
  array_min (map fst points) = Ok left ->
  array_min (map snd points) = Ok top ->
  fits_c_long (t + 1) = true ->
  utf16be_encode (synthesize_name rnd name t index) = Ok name_bytes ->
  imagej_create_roi dt rnd points name c z t index
  = Ok (encoded_record dt left top t points (synthesize_name rnd name t index) name_bytes).
Proof.
  intros Hl Ht Hf Hn. rewrite imagej_create_roi_unfold, Hl, Ht. cbn [bind]. rewrite Hf, Hn.
  cbn [bind]. unfold encoded_record.
  rewrite header_header2_offset, tobytes_F_length, astype_int16_length, !translate_length.
  replace (64 + Z.of_nat (4 * length points))
    with (64 + 4 * Z.of_nat (length points)) by lia.
  reflexivity.
Qed.

Lemma imagej_create_roi_inv (dt : np_int) (rnd : Z) (points : list (Z * Z)) (name : option pystr)
    (c z t : Z) (index : option Z) (data : bytes) :
  imagej_create_roi dt rnd points name c z t index = Ok data ->
  exists left top name_bytes,
    array_min (map fst points) = Ok left
    /\ array_min (map snd points) = Ok top
    /\ fits_c_long (t + 1) = true
    /\ utf16be_encode (synthesize_name rnd name t index) = Ok name_bytes
    /\ data = encoded_record dt left top t points (synthesize_name rnd name t index) name_bytes.
Proof.
  intros H.
  destruct (array_min (map fst points)) as [left|e] eqn:Hl;
    [|rewrite imagej_create_roi_unfold, Hl in H; discriminate].
  destruct (array_min (map snd points)) as [top|e] eqn:Ht;
    [|rewrite imagej_create_roi_unfold, Hl, Ht in H; discriminate].
  destruct (fits_c_long (t + 1)) eqn:Hf;
    [|rewrite imagej_create_roi_unfold, Hl, Ht in H; cbn [bind] in H; rewrite Hf in H;
      discriminate].
  destruct (utf16be_encode (synthesize_name rnd name t index)) as [nb|e] eqn:Hn.
  - rewrite (imagej_create_roi_eq _ _ _ _ _ _ _ _ left top nb Hl Ht Hf Hn) in H.
    injection H as <-. eauto 10.
  - rewrite imagej_create_roi_unfold, Hl, Ht in H. cbn [bind] in H.
    rewrite Hf, Hn in H. discriminate.
Qed.

(** ** Decoding what the encoder wrote *)

Lemma supported_freehand : CONST_IJ_FREEHAND ∈ IMAGEJ_SUPPORTED_OVERLAYS.
Proof. unfold IMAGEJ_SUPPORTED_OVERLAYS. set_solver. Qed.

Lemma unknown_not_supported (v : Z) :
  ~ (0 <= v <= 10) -> v ∉ IMAGEJ_SUPPORTED_OVERLAYS.
Proof.
  intros Hv. unfold IMAGEJ_SUPPORTED_OVERLAYS, CONST_IJ_POLYGON, CONST_IJ_FREEHAND,
    CONST_IJ_TRACED, CONST_IJ_POLYLINE, CONST_IJ_FREELINE, CONST_IJ_ANGLE, CONST_IJ_POINT.
  rewrite !elem_of_union, !elem_of_singleton. lia.
Qed.

Lemma imagej_parse_overlay_encoded (dt : np_int) (left top t : Z) (points : list (Z * Z))
    (name : pystr) :
  let n := Z.of_nat (length points) in
  n <= 32767 ->
  Forall bmp_char name ->
  Z.of_nat (length name) < 2 ^ 31 ->
  imagej_parse_overlay
    (encoded_record dt left top t points name (concat (map (be_bytes 2) name)))
  = Ok (fold_left insert_fields
          [ encoder_header left top n t (64 + 4 * n);
            encoder_header2 (wrap_signed 32 (64 + 4 * n) + 52) (Z.of_nat (length name)) ]
          (<["coordinates"%string := PArray (astype_int16 (translate dt left top points))]>
             (initial_overlay name))).
Proof.
  intros n Hn Hbmp Hlen. unfold encoded_record. fold n.
  assert (Hoff : wrap_signed 32 (64 + 4 * n) = 64 + 4 * n)
    by (apply wrap_signed_small; lia).
  rewrite Hoff.
  pose proof (encoder_header_length left top n t (64 + 4 * n)) as Lh.
  pose proof (encoder_header2_length (64 + 4 * n + 52) (Z.of_nat (length name))) as Lh2.
  pose proof (tobytes_F_length (astype_int16 (translate dt left top points))) as Lc.
  rewrite astype_int16_length, translate_length in Lc.
  pose proof (utf16_bytes_length name) as Ln.
  pose proof (header_header2_offset left top n t (64 + 4 * n)) as F1.
  pose proof (header_roi_type left top n t (64 + 4 * n)) as F2.
  pose proof (header_n_coordinates left top n t (64 + 4 * n)) as F3.
  pose proof (header2_name_offset (64 + 4 * n + 52) (Z.of_nat (length name))) as G1.
  pose proof (header2_name_length (64 + 4 * n + 52) (Z.of_nat (length name))) as G2.
  rewrite Hoff in F1.
  rewrite wrap_signed_small in F3 by lia.
  rewrite wrap_signed_small in G1 by lia.
  rewrite wrap_signed_small in G2 by lia.
  pose proof (encoder_header_eta left top n t (64 + 4 * n)) as E1.
  pose proof (encoder_header2_eta (64 + 4 * n + 52) (Z.of_nat (length name))) as E2.
  assert (D1 : rec_dtype (encoder_header left top n t (64 + 4 * n)) = IMAGEJ_ROI_HEADER)
    by reflexivity.
  pose proof (ndarray_tobytes_F (astype_int16 (translate dt left top points)) n) as Hc.
  rewrite astype_int16_length, translate_length in Hc. specialize (Hc eq_refl).
  assert (Hidem : astype_int16 (astype_int16 (translate dt left top points))
                  = astype_int16 (translate dt left top points)).
  { unfold astype_int16. rewrite map_map. apply map_ext. intros [x y]. cbn [fst snd].
    rewrite !(wrap_signed_small 16 (wrap_signed 16 _)) by (try lia; apply wrap_signed_range; lia).
    reflexivity. }
  rewrite Hidem in Hc.
  pose proof (utf16be_decode_bmp name Hbmp) as Hd.
  generalize dependent (encoder_header left top n t (64 + 4 * n)). intros h Lh F1 F2 F3 E1 D1.
  generalize dependent (encoder_header2 (64 + 4 * n + 52) (Z.of_nat (length name))).
  intros h2 Lh2 G1 G2 E2.
  generalize dependent (tobytes_F (astype_int16 (translate dt left top points))). intros cb Lc Hc.
  generalize dependent (concat (map (be_bytes 2) name)). intros nb Ln Hd.
  unfold imagej_parse_overlay.
  rewrite new_record_start by exact Lh. rewrite E1. cbn [bind].
  rewrite F1.
  rewrite (app_assoc (rec_buf h) cb).
  rewrite (new_record_at IMAGEJ_ROI_HEADER2 (rec_buf h ++ cb) (rec_buf h2) nb)
    by (try exact Lh2; rewrite length_app; lia).
  rewrite E2. cbn [bind]. rewrite G1, G2.
  destruct (Z.ltb_spec 0 (64 + 4 * n + 52)) as [_|]; [|lia].
  rewrite (app_assoc (rec_buf h ++ cb) (rec_buf h2)).
  rewrite (py_slice_tail ((rec_buf h ++ cb) ++ rec_buf h2) nb)
    by (rewrite ?length_app; lia).
  rewrite Hd. cbn [bind].
  rewrite F2. destruct (decide (CONST_IJ_FREEHAND ∈ IMAGEJ_SUPPORTED_OVERLAYS)) as [_|Hns];
    [|destruct (Hns supported_freehand)].
  rewrite F3, D1.
  rewrite <- !app_assoc.
  rewrite (py_slice_middle (rec_buf h) cb (rec_buf h2 ++ nb))
    by (try rewrite Lh; try reflexivity; change (Z.of_nat (itemsize IMAGEJ_ROI_HEADER)) with 64; lia).
  rewrite Hc. cbn [bind]. reflexivity.
Qed.

(** ** The fields of a decoded overlay *)

Lemma field_lookup_is_Some (d : dtype) (key : string) (off : nat) :
  key ∈ dtype_names d -> is_Some (field_lookup d key off).
Proof.
  revert off. induction d as [|[k ty] d IH]; intros off Hin; [inversion Hin|].
  cbn [field_lookup]. destruct (String.eqb_spec k key) as [->|Hne]; [eauto|].
  apply IH. cbn [dtype_names map fst] in Hin.
  apply elem_of_cons in Hin as [->|Hin]; [congruence|exact Hin].
Qed.

Lemma getfield_is_Some (r : record) (key : string) :
  key ∈ dtype_names (rec_dtype r) -> is_Some (getfield r key).
Proof.
  intros Hin. unfold getfield.
  destruct (field_lookup_is_Some _ _ 0%nat Hin) as [[off ty] ->]. eauto.
Qed.

Lemma insert_field_other (r : record) (ov : gmap string pyobj) (k key : string) :
  k <> key -> insert_field r ov k !! key = ov !! key.
Proof.
  intros Hne. unfold insert_field. destruct (is_private k); [reflexivity|].
  destruct (getfield r k); [|reflexivity]. apply lookup_insert_ne, Hne.
Qed.

Lemma insert_fields_other (r : record) (ov : gmap string pyobj) (key : string) :
  key ∉ public_names (rec_dtype r) -> insert_fields ov r !! key = ov !! key.
Proof.
  unfold insert_fields, public_names. fold (insert_field r).
  generalize (dtype_names (rec_dtype r)) as ks. intros ks. revert ov.
  induction ks as [|k ks IH]; intros ov Hnot; [reflexivity|].
  cbn [fold_left]. cbn [List.filter] in Hnot.
  destruct (decide (k = key)) as [->|Hne].
  - unfold insert_field at 2. destruct (is_private key) eqn:Hp; cbn [negb] in Hnot.
    + apply IH. exact Hnot.
    + exfalso. apply Hnot. left.
  - rewrite IH; [apply insert_field_other, Hne|].
    intros Hin. apply Hnot. destruct (negb (is_private k)); [right|]; exact Hin.
Qed.

Lemma insert_fields_field (r : record) (ov : gmap string pyobj) (key : string) :
  key ∈ public_names (rec_dtype r) ->
  exists v, getfield r key = Some v /\ insert_fields ov r !! key = Some v.
Proof.
  intros Hin.
  assert (Hk : key ∈ dtype_names (rec_dtype r) /\ is_private key = false).
  { unfold public_names in Hin. apply list_elem_of_In, filter_In in Hin as [Hin Hp].
    split; [apply list_elem_of_In, Hin|]. destruct (is_private key); [discriminate|reflexivity]. }
  destruct Hk as [Hk Hp]. destruct (getfield_is_Some r key Hk) as [v Hv].
  exists v. split; [exact Hv|].
  unfold insert_fields. fold (insert_field r).
  revert Hk. generalize (dtype_names (rec_dtype r)) as ks. intros ks. revert ov.
  induction ks as [|k ks IH]; intros ov Hk; [inversion Hk|].
  cbn [fold_left]. destruct (decide (key ∈ ks)) as [Hin'|Hnin].
  - apply IH, Hin'.
  - apply elem_of_cons in Hk as [->|Hk]; [|contradiction].
    assert (Hrest : forall ov', fold_left (insert_field r) ks ov' !! k = ov' !! k).
    { clear -Hnin. induction ks as [|k' ks IH]; intros ov'; [reflexivity|].
      cbn [fold_left]. rewrite IH by (intros H; apply Hnin; right; exact H).
      apply insert_field_other. intros ->. apply Hnin. left. }
    rewrite Hrest. unfold insert_field. rewrite Hp, Hv. apply lookup_insert_eq.
Qed.

Lemma headers_disjoint :
  Forall (fun key => key ∉ dtype_names IMAGEJ_ROI_HEADER2) (dtype_names IMAGEJ_ROI_HEADER).
Proof. compute_done. Qed.

Lemma reserved_keys_free (key : string) :
  key = "name"%string \/ key = "coordinates"%string ->
  (key ∉ dtype_names IMAGEJ_ROI_HEADER) /\ (key ∉ dtype_names IMAGEJ_ROI_HEADER2).
Proof. intros [->| ->]; split; compute_done. Qed.

Lemma public_names_sub (d : dtype) (key : string) :
  key ∈ public_names d -> key ∈ dtype_names d.
Proof.
  unfold public_names. intros H. apply list_elem_of_In, filter_In in H as [H _].
  apply list_elem_of_In, H.
Qed.

(** Looking a key up in the decoder's result. *)
Lemma overlay_lookup_header (h h2 : record) (ov : gmap string pyobj) (key : string) :
  rec_dtype h = IMAGEJ_ROI_HEADER -> rec_dtype h2 = IMAGEJ_ROI_HEADER2 ->
  key ∈ public_names IMAGEJ_ROI_HEADER ->
  exists v, getfield h key = Some v /\ fold_left insert_fields [h; h2] ov !! key = Some v.
Proof.
  intros D1 D2 Hin. cbn [fold_left].
  rewrite insert_fields_other.
  - apply insert_fields_field. rewrite D1. exact Hin.
  - rewrite D2. intros H. apply public_names_sub in H, Hin.
    pose proof headers_disjoint as Hd. rewrite Forall_forall in Hd.
    apply (Hd key); assumption.
Qed.

Lemma overlay_lookup_header2 (h h2 : record) (ov : gmap string pyobj) (key : string) :
  rec_dtype h2 = IMAGEJ_ROI_HEADER2 ->
  key ∈ public_names IMAGEJ_ROI_HEADER2 ->
  exists v, getfield h2 key = Some v /\ fold_left insert_fields [h; h2] ov !! key = Some v.
Proof.
  intros D2 Hin. cbn [fold_left]. apply insert_fields_field. rewrite D2. exact Hin.
Qed.

Lemma overlay_lookup_reserved (h h2 : record) (ov : gmap string pyobj) (key : string) :
  rec_dtype h = IMAGEJ_ROI_HEADER -> rec_dtype h2 = IMAGEJ_ROI_HEADER2 ->
  key = "name"%string \/ key = "coordinates"%string ->
  fold_left insert_fields [h; h2] ov !! key = ov !! key.
Proof.
  intros D1 D2 Hk. cbn [fold_left]. destruct (reserved_keys_free key Hk) as [N1 N2].
  rewrite !insert_fields_other; [reflexivity| |].
  - rewrite D1. intros H. apply N1, public_names_sub, H.
  - rewrite D2. intros H. apply N2, public_names_sub, H.
Qed.

Lemma get_int_getfield (r : record) (key : string) (v : Z) :
  getfield r key = Some (PInt v) -> get_int r key = v.
Proof. unfold get_int. intros ->. reflexivity. Qed.

(** * The claims *)

(** ** The primary header layout *)

Lemma itemsize_sum (d : dtype) :
  itemsize d = list_sum (map (fun field => fsize (snd field)) d).
Proof.
  induction d as [|[name ty] d IH]; [reflexivity|].
  cbn [itemsize map snd]. rewrite IH. reflexivity.
Qed.

Lemma zero_filled_length (d : dtype) : length (zero_filled d) = itemsize d.
Proof.
  induction d as [|[name ty] d IH]; [reflexivity|].
  unfold zero_filled in *. cbn [map concat snd itemsize]. rewrite length_app, IH.
  f_equal. destruct ty; apply repeat_length.
Qed.

Lemma new_record_zero_length (d : dtype) (r : record) :
  new_record d None 0 = Ok r -> length (tobytes r) = itemsize d.
Proof. intros [= <-]. apply zero_filled_length. Qed.

(** C7, as stated, fails: the primary header does not serialize to 62
    bytes. Neither the sum of its field sizes nor the length of a fresh
    record's bytes is 62. *)
Lemma primary_header_size_not_62 :
  itemsize IMAGEJ_ROI_HEADER <> 62%nat
  /\ list_sum (map (fun field => fsize (snd field)) IMAGEJ_ROI_HEADER) <> 62%nat
  /\ forall r, new_record IMAGEJ_ROI_HEADER None 0 = Ok r -> length (tobytes r) <> 62%nat.
Proof.
  repeat split; try discriminate.
  intros r Hr. rewrite (new_record_zero_length _ _ Hr). discriminate.
Qed.

(** C7, amended: the primary ROI header has 24 declared fields, the
    first being the 4-byte tag that the encoder fills with "Iout"; its
    serialized size is fixed at 64 bytes, the sum of its field sizes; and
    every record the encoder returns starts with "Iout" and carries
    version 226. *)
Theorem primary_header_layout (dt : np_int) (rnd : Z) (points : list (Z * Z)) (name : option pystr)
    (c z t : Z) (index : option Z) (data : bytes) :
  imagej_create_roi dt rnd points name c z t index = Ok data ->
  length IMAGEJ_ROI_HEADER = 24%nat
  /\ hd_error IMAGEJ_ROI_HEADER = Some ("_iout"%string, a1 4)
  /\ itemsize IMAGEJ_ROI_HEADER = 64%nat
  /\ itemsize IMAGEJ_ROI_HEADER
     = list_sum (map (fun field => fsize (snd field)) IMAGEJ_ROI_HEADER)
  /\ (forall r, new_record IMAGEJ_ROI_HEADER None 0 = Ok r -> length (tobytes r) = 64%nat)
  /\ firstn 4 data = ["I"; "o"; "u"; "t"]%byte
  /\ exists header,
       new_record IMAGEJ_ROI_HEADER (Some data) 0 = Ok header
       /\ length (tobytes header) = 64%nat
       /\ getfield header "_iout" = Some (PChars ["I"; "o"; "u"; "t"]%byte)
       /\ get_int header "version" = IJM_ROI_VERSION
       /\ IJM_ROI_VERSION = 226.
Proof.
  intros H.
  destruct (imagej_create_roi_inv _ _ _ _ _ _ _ _ _ H)
    as (left & top & nb & _ & _ & Hfits & _ & ->).
  split; [reflexivity|]. split; [reflexivity|]. split; [reflexivity|].
  split; [apply itemsize_sum|].
  split; [intros r Hr; apply (new_record_zero_length _ _ Hr)|].
  split; [reflexivity|].
  unfold encoded_record.
  rewrite new_record_start by apply encoder_header_length.
  eexists. split; [reflexivity|]. repeat split.
Qed.

Lemma primary_header_layout_witness :
  exists data,
    imagej_create_roi int64 0 [(10, 20); (15, 20); (15, 25); (10, 25)]
      (Some (str_of_string "cellA")) 0 0 2 None = Ok data
    /\ firstn 4 data = ["I"; "o"; "u"; "t"]%byte.
Proof.
  eexists. split; [vm_compute; reflexivity|].
  eapply (primary_header_layout int64 0 [(10, 20); (15, 20); (15, 25); (10, 25)]
            (Some (str_of_string "cellA")) 0 0 2 None).
  vm_compute. reflexivity.
Defined.

(** ** The metadata block *)

(** The block the assembler returns, and its header read back. *)
Lemma imagej_prepare_metadata_eq (overlays : list bytes) :
  imagej_prepare_metadata overlays
  = Ok ((be_bytes 4 CONSTANT_MAGIC_NUMBER ++ be_bytes 4 CONSTANT_OVERLAY
         ++ be_bytes 4 (Z.of_nat (length overlays))) ++ concat overlays,
        Z.of_nat (itemsize IMAGEJ_META_HEADER)
        :: map (fun r => Z.of_nat (length r)) overlays).
Proof. reflexivity. Qed.

Lemma meta_header_count (n : Z) :
  get_int
    (mk_record IMAGEJ_META_HEADER
       (be_bytes 4 CONSTANT_MAGIC_NUMBER ++ be_bytes 4 CONSTANT_OVERLAY ++ be_bytes 4 n))
    "count"
  = wrap_signed 32 n.
Proof. apply (signed_be_roundtrip 4 n). lia. Qed.

(** C4, as stated, fails: the count of the block header is a signed
    32-bit field assigned without a range check. With 2^31 records (of
    no bytes each, here) the header does not hold the count 2^31: it
    reads -2^31. *)
Lemma metadata_count_overflow :
  let overlays : list bytes := repeat [] (Z.to_nat (2 ^ 31)) in
  exists block byte_counts header,
    imagej_prepare_metadata overlays = Ok (block, byte_counts)
    /\ Z.of_nat (length overlays) = 2 ^ 31
    /\ new_record IMAGEJ_META_HEADER (Some block) 0 = Ok header
    /\ get_int header "count" = - 2 ^ 31
    /\ get_int header "count" <> Z.of_nat (length overlays).
Proof.
  intros overlays.
  assert (Hlen : Z.of_nat (length overlays) = 2 ^ 31).
  { unfold overlays. rewrite repeat_length. apply Z2Nat.id. lia. }
  clearbody overlays.
  eexists _, _, _. split; [apply imagej_prepare_metadata_eq|].
  split; [exact Hlen|].
  split; [apply new_record_start; reflexivity|].
  rewrite meta_header_count, Hlen.
  split; [reflexivity|]. change (wrap_signed 32 (2 ^ 31)) with (- 2 ^ 31). lia.
Qed.

(** C4, amended: for every list of fewer than 2^31 encoded records the
    assembler returns the 12-byte block header (magic 0x494A494A, type
    0x6F766572 and the number of records, each big-endian on four
    bytes) followed by the records in input order, together with the
    byte-length list made of the header size and then the length of
    each record: one entry more than there are records. Read back as a
    record, the header gives the magic and type constants and the
    count. For a longer list everything but the count is as said, and
    the count field holds the number of records cast to signed 32
    bits. *)
Theorem prepare_metadata_block (overlays : list bytes) :
  exists block byte_counts header,
    imagej_prepare_metadata overlays = Ok (block, byte_counts)
    /\ block
       = (be_bytes 4 0x494A494A ++ be_bytes 4 0x6F766572
          ++ be_bytes 4 (Z.of_nat (length overlays)))
         ++ concat overlays
    /\ be_bytes 4 0x494A494A ++ be_bytes 4 0x6F766572
       = ["I"; "J"; "I"; "J"; "o"; "v"; "e"; "r"]%byte
    /\ byte_counts
       = Z.of_nat (itemsize IMAGEJ_META_HEADER)
         :: map (fun r => Z.of_nat (length r)) overlays
    /\ itemsize IMAGEJ_META_HEADER = 12%nat
    /\ length byte_counts = S (length overlays)
    /\ new_record IMAGEJ_META_HEADER (Some block) 0 = Ok header
    /\ get_int header "magic" = CONSTANT_MAGIC_NUMBER
    /\ get_int header "type" = CONSTANT_OVERLAY
    /\ get_int header "count" = wrap_signed 32 (Z.of_nat (length overlays))
    /\ (Z.of_nat (length overlays) < 2 ^ 31 ->
        get_int header "count" = Z.of_nat (length overlays)).
Proof.
  eexists _, _, _. split; [reflexivity|]. split; [reflexivity|].
  split; [reflexivity|]. split; [reflexivity|]. split; [reflexivity|].
  split; [cbn [length]; rewrite length_map; reflexivity|].
  split; [apply new_record_start; reflexivity|].
  split; [reflexivity|]. split; [reflexivity|].
  assert (Hc : get_int
                 (mk_record IMAGEJ_META_HEADER
                    (be_bytes 4 0x494A494A ++ be_bytes 4 0x6F766572
                     ++ be_bytes 4 (Z.of_nat (length overlays)))) "count"
               = wrap_signed 32 (Z.of_nat (length overlays))).
  { apply (signed_be_roundtrip 4 (Z.of_nat (length overlays))). lia. }
  split; [exact Hc|].
  intros Hn. transitivity (wrap_signed 32 (Z.of_nat (length overlays))); [exact Hc|].
  apply wrap_signed_small; lia.
Qed.

Lemma prepare_metadata_block_witness :
  exists block byte_counts,
    imagej_prepare_metadata [[x01; x02]; []; [x03]] = Ok (block, byte_counts)
    /\ block = ["I"; "J"; "I"; "J"; "o"; "v"; "e"; "r"; x00; x00; x00; x03; x01; x02; x03]%byte
    /\ byte_counts = [12; 2; 0; 1].
Proof.
  destruct (prepare_metadata_block [[x01; x02]; []; [x03]])
    as (block & counts & header & H1 & H2 & _ & H4 & _).
  exists block, counts. split; [exact H1|]. split; [rewrite H2|rewrite H4]; reflexivity.
Defined.

(** ** Independence from the channel and slice arguments *)

(** C10: for fixed points, explicit name and frame index, the encoder
    returns the same result whatever the channel [c] and the slice [z]
    are; and in every record it returns, the secondary header (found
    right after the coordinates) has its c, z and t fields at zero. *)
Theorem encoder_ignores_channel_and_slice (dt : np_int) (rnd : Z) (points : list (Z * Z))
    (name : pystr) (c z c' z' t : Z) (index : option Z) :
  imagej_create_roi dt rnd points (Some name) c z t index
  = imagej_create_roi dt rnd points (Some name) c' z' t index
  /\ forall data,
       imagej_create_roi dt rnd points (Some name) c z t index = Ok data ->
       exists header2,
         new_record IMAGEJ_ROI_HEADER2 (Some data)
           (Z.of_nat (itemsize IMAGEJ_ROI_HEADER) + 4 * Z.of_nat (length points))
         = Ok header2
         /\ get_int header2 "c" = 0
         /\ get_int header2 "z" = 0
         /\ get_int header2 "t" = 0.
Proof.
  split; [reflexivity|]. intros data H.
  destruct (imagej_create_roi_inv _ _ _ _ _ _ _ _ _ H)
    as (left & top & nb & _ & _ & Hfits & _ & ->).
  unfold encoded_record. eexists. split.
  - rewrite app_assoc. apply new_record_at; [apply encoder_header2_length|].
    rewrite length_app, encoder_header_length, tobytes_F_length, astype_int16_length,
      translate_length.
    change (itemsize IMAGEJ_ROI_HEADER) with 64%nat. lia.
  - rewrite encoder_header2_eta. apply header2_czt.
Qed.

Lemma encoder_ignores_channel_and_slice_witness :
  imagej_create_roi int64 0 [(10, 20); (15, 20)] (Some (str_of_string "cellA")) 0 0 2 None
  = imagej_create_roi int64 0 [(10, 20); (15, 20)] (Some (str_of_string "cellA")) 3 5 2 None
  /\ exists data header2,
       imagej_create_roi int64 0 [(10, 20); (15, 20)] (Some (str_of_string "cellA")) 3 5 2 None
       = Ok data
       /\ new_record IMAGEJ_ROI_HEADER2 (Some data) 72 = Ok header2
       /\ get_int header2 "c" = 0.
Proof.
  pose proof (encoder_ignores_channel_and_slice int64 0 [(10, 20); (15, 20)]
                (str_of_string "cellA") 3 5 0 0 2 None) as [Heq Hz].
  split; [symmetry; exact Heq|].
  destruct (imagej_create_roi int64 0 [(10, 20); (15, 20)] (Some (str_of_string "cellA")) 3 5 2 None)
    as [data|e] eqn:E; [|vm_compute in E; discriminate].
  destruct (Hz data eq_refl) as (h2 & Hh2 & Hc & _).
  exists data, h2. repeat split; assumption.
Defined.

(** ** Offsets *)

(** Where the encoder puts the secondary header and the name, and what
    it writes in the two offset fields. *)
Lemma encoded_offsets (dt : np_int) (rnd : Z) (points : list (Z * Z)) (name : option pystr)
    (c z t : Z) (index : option Z) (data : bytes) :
  let n := Z.of_nat (length points) in
  imagej_create_roi dt rnd points name c z t index = Ok data ->
  exists header header2 name_bytes,
    new_record IMAGEJ_ROI_HEADER (Some data) 0 = Ok header
    /\ new_record IMAGEJ_ROI_HEADER2 (Some data) (64 + 4 * n) = Ok header2
    /\ utf16be_encode (synthesize_name rnd name t index) = Ok name_bytes
    /\ skipn (Z.to_nat (64 + 4 * n + 52)) data = name_bytes
    /\ get_int header "header2_offset" = wrap_signed 32 (64 + 4 * n)
    /\ get_int header2 "name_offset" = wrap_signed 32 (wrap_signed 32 (64 + 4 * n) + 52)
    /\ get_int header2 "name_length"
       = wrap_signed 32 (Z.of_nat (length (synthesize_name rnd name t index))).
Proof.
  intros n H.
  destruct (imagej_create_roi_inv _ _ _ _ _ _ _ _ _ H)
    as (left & top & nb & _ & _ & Hfits & Hn & ->).
  unfold encoded_record. fold n.
  pose proof (encoder_header_length left top n t (64 + 4 * n)) as Lh.
  pose proof (tobytes_F_length (astype_int16 (translate dt left top points))) as Lc.
  rewrite astype_int16_length, translate_length in Lc.
  exists (encoder_header left top n t (64 + 4 * n)),
    (encoder_header2 (wrap_signed 32 (64 + 4 * n) + 52)
       (Z.of_nat (length (synthesize_name rnd name t index)))), nb.
  split; [apply new_record_start, Lh|].
  split.
  { rewrite app_assoc. apply new_record_at; [reflexivity|]. rewrite length_app. lia. }
  split; [exact Hn|].
  split.
  { rewrite !app_assoc. apply skipn_app_exact.
    rewrite !length_app, encoder_header2_length. lia. }
  split; [apply header_header2_offset|].
  split; [apply header2_name_offset|apply header2_name_length].
Qed.

Lemma array_min_repeat (x : Z) (k : nat) : (0 < k)%nat -> array_min (repeat x k) = Ok x.
Proof.
  destruct k as [|k]; [lia|]. intros _. cbn [repeat array_min]. f_equal.
  induction k as [|k IH]; [reflexivity|]. cbn [repeat fold_left]. rewrite Z.min_id. exact IH.
Qed.

Lemma map_repeat {A B : Type} (f : A -> B) (x : A) (k : nat) :
  map f (repeat x k) = repeat (f x) k.
Proof. induction k as [|k IH]; [reflexivity|]. cbn [repeat map]. rewrite IH. reflexivity. Qed.

Lemma imagej_create_roi_repeat (dt : np_int) (rnd : Z) (p : Z * Z) (k : nat) (name : pystr)
    (c z t : Z) (index : option Z) :
  (0 < k)%nat -> Forall bmp_char name -> fits_c_long (t + 1) = true ->
  exists data, imagej_create_roi dt rnd (repeat p k) (Some name) c z t index = Ok data.
Proof.
  intros Hk Hn Hf. eexists. apply (imagej_create_roi_eq _ _ _ _ _ _ _ _ (fst p) (snd p)).
  - rewrite map_repeat. apply array_min_repeat, Hk.
  - rewrite map_repeat. apply array_min_repeat, Hk.
  - exact Hf.
  - apply utf16be_encode_bmp, Hn.
Qed.

(** C2, as stated, fails: with 536870896 points the offset is 2^31,
    which the signed 32-bit field [header2_offset] holds as -2^31. *)
Lemma header2_offset_overflow :
  let points := repeat (0, 0) (Z.to_nat 536870896) in
  exists data header,
    imagej_create_roi int64 0 points (Some []) 0 0 0 None = Ok data
    /\ new_record IMAGEJ_ROI_HEADER (Some data) 0 = Ok header
    /\ get_int header "header2_offset" = -2147483648
    /\ get_int header "header2_offset"
       <> Z.of_nat (itemsize IMAGEJ_ROI_HEADER) + 4 * Z.of_nat (length points).
Proof.
  intros points.
  destruct (imagej_create_roi_repeat int64 0 (0, 0) (Z.to_nat 536870896) [] 0 0 0 None)
    as [data Hd]; [lia|constructor|reflexivity|].
  fold points in Hd.
  destruct (encoded_offsets _ _ _ _ _ _ _ _ _ Hd) as (h & h2 & nb & H1 & _ & _ & _ & H5 & _).
  assert (Hlen : Z.of_nat (length points) = 536870896).
  { unfold points. rewrite repeat_length. apply Z2Nat.id. lia. }
  rewrite Hlen in H5. change (wrap_signed 32 (64 + 4 * 536870896)) with (-2147483648) in H5.
  exists data, h. split; [exact Hd|]. split; [exact H1|]. split; [exact H5|].
  rewrite H5, Hlen. change (Z.of_nat (itemsize IMAGEJ_ROI_HEADER)) with 64. lia.
Qed.

(** C2, amended: for every record the encoder returns from [n] points
    with [4 * n + 116 < 2^31] (so that both offsets fit their signed
    32-bit fields), the primary header's [header2_offset] is the primary
    header size plus [4 * n], the secondary header is found there, its
    [name_offset] is [header2_offset] plus the secondary header size, and
    the name bytes start there. *)
Theorem offset_invariants (dt : np_int) (rnd : Z) (points : list (Z * Z)) (name : option pystr)
    (c z t : Z) (index : option Z) (data : bytes) :
  imagej_create_roi dt rnd points name c z t index = Ok data ->
  4 * Z.of_nat (length points) + 116 < 2 ^ 31 ->
  exists header header2 name_bytes,
    new_record IMAGEJ_ROI_HEADER (Some data) 0 = Ok header
    /\ new_record IMAGEJ_ROI_HEADER2 (Some data) (get_int header "header2_offset") = Ok header2
    /\ get_int header "header2_offset"
       = Z.of_nat (itemsize IMAGEJ_ROI_HEADER) + 4 * Z.of_nat (length points)
    /\ get_int header2 "name_offset"
       = get_int header "header2_offset" + Z.of_nat (itemsize IMAGEJ_ROI_HEADER2)
    /\ utf16be_encode (synthesize_name rnd name t index) = Ok name_bytes
    /\ skipn (Z.to_nat (get_int header2 "name_offset")) data = name_bytes.
Proof.
  intros H Hn.
  destruct (encoded_offsets _ _ _ _ _ _ _ _ _ H)
    as (h & h2 & nb & H1 & H2 & H3 & H4 & H5 & H6 & _).
  rewrite (wrap_signed_small 32 (64 + 4 * Z.of_nat (length points))) in H5, H6 by lia.
  rewrite wrap_signed_small in H6 by lia.
  exists h, h2, nb. rewrite H5, H6.
  change (Z.of_nat (itemsize IMAGEJ_ROI_HEADER)) with 64.
  change (Z.of_nat (itemsize IMAGEJ_ROI_HEADER2)) with 52.
  repeat split; assumption.
Qed.

Lemma offset_invariants_witness :
  exists data header header2,
    imagej_create_roi int64 0 [(10, 20); (15, 20); (15, 25); (10, 25)]
      (Some (str_of_string "cellA")) 0 0 2 None = Ok data
    /\ new_record IMAGEJ_ROI_HEADER (Some data) 0 = Ok header
    /\ new_record IMAGEJ_ROI_HEADER2 (Some data) 80 = Ok header2
    /\ get_int header "header2_offset" = 80
    /\ get_int header2 "name_offset" = 132.
Proof.
  destruct (imagej_create_roi int64 0 [(10, 20); (15, 20); (15, 25); (10, 25)]
              (Some (str_of_string "cellA")) 0 0 2 None) as [data|e] eqn:E;
    [|vm_compute in E; discriminate].
  destruct (offset_invariants int64 0 [(10, 20); (15, 20); (15, 25); (10, 25)]
              (Some (str_of_string "cellA")) 0 0 2 None data E)
    as (h & h2 & nb & H1 & H2 & H3 & H4 & _); [cbn; lia|].
  exists data, h, h2. rewrite H3 in H2, H4.
  repeat split; assumption.
Defined.

(** ** The bounding box *)

Lemma moved_in_range (dt : np_int) (left top : Z) (points : list (Z * Z)) :
  Forall (fun p => int16_range (fst p - left) /\ int16_range (snd p - top)) points ->
  Forall (fun p => 0 <= fst p - left <= np_max dt /\ 0 <= snd p - top <= np_max dt) points ->
  astype_int16 (translate dt left top points)
  = map (fun p => (fst p - left, snd p - top)) points.
Proof.
  intros H Hdt. unfold astype_int16, translate. rewrite map_map.
  apply map_ext_in. intros p Hp. rewrite List.Forall_forall in H, Hdt.
  destruct (H p Hp) as [Hx Hy]. destruct (Hdt p Hp) as [Dx Dy].
  unfold int16_range in Hx, Hy. cbn [fst snd].
  rewrite !np_cast_small by assumption. rewrite !(wrap_signed_small 16) by lia.
  reflexivity.
Qed.

Lemma astype_int16_id (points : list (Z * Z)) :
  Forall (fun q => int16_range (fst q) /\ int16_range (snd q)) points ->
  astype_int16 points = points.
Proof.
  intros H. unfold astype_int16. rewrite <- (map_id points) at 2.
  apply map_ext_in. intros [x y] Hp. rewrite List.Forall_forall in H.
  destruct (H _ Hp) as [Hx Hy]. unfold int16_range in Hx, Hy. cbn [fst snd] in *.
  rewrite !(wrap_signed_small 16) by lia. reflexivity.
Qed.

Lemma encoded_coordinates (dt : np_int) (left top t : Z) (points : list (Z * Z)) (name : pystr)
    (name_bytes : bytes) :
  let n := Z.of_nat (length points) in
  py_slice (encoded_record dt left top t points name name_bytes) 64 (64 + 2 * 2 * n)
  = tobytes_F (astype_int16 (translate dt left top points)).
Proof.
  intros n. unfold encoded_record. apply py_slice_middle.
  - rewrite encoder_header_length. reflexivity.
  - rewrite encoder_header_length, tobytes_F_length, astype_int16_length, translate_length.
    lia.
Qed.

(** C3, as stated, fails three times over. The header's [left] is a
    signed 16-bit field: a minimum x of 40000 is stored as -25536. The
    coordinates are cast to signed 16 bits: a translated x of 40000 is
    serialized as -25536, which is negative. And the translation itself
    is done in the array's dtype: in an [int8] array with x values -100
    and 100 the translated 200 wraps to -56. *)
Lemma bounding_box_overflow :
  (exists data header,
     imagej_create_roi int64 0 [(40000, 7)] (Some (str_of_string "cellA")) 0 0 0 None = Ok data
     /\ new_record IMAGEJ_ROI_HEADER (Some data) 0 = Ok header
     /\ array_min (map fst [(40000, 7)]) = Ok 40000
     /\ get_int header "left" = -25536)
  /\ (exists data,
        imagej_create_roi int64 0 [(0, 0); (40000, 0)] (Some (str_of_string "cellA")) 0 0 0 None
        = Ok data
        /\ ndarray_F_int16 2 (py_slice data 64 (64 + 2 * 2 * 2)) = Ok [(0, 0); (-25536, 0)])
  /\ (exists data,
        imagej_create_roi int8 0 [(-100, 0); (100, 0)] (Some (str_of_string "cellA")) 0 0 0 None
        = Ok data
        /\ ndarray_F_int16 2 (py_slice data 64 (64 + 2 * 2 * 2)) = Ok [(0, 0); (-56, 0)]).
Proof.
  split; [|split].
  - eexists _, _. split; [vm_compute; reflexivity|]. split; [vm_compute; reflexivity|].
    split; reflexivity.
  - eexists. split; [vm_compute; reflexivity|]. vm_compute. reflexivity.
  - eexists. split; [vm_compute; reflexivity|]. vm_compute. reflexivity.
Qed.

(** C3, amended: for every non-empty array of points, of any integer
    dtype, whose minimum x and minimum y lie in the signed 16-bit range
    and whose translated coordinates exceed neither 32767 nor the
    largest value of the array's dtype, the primary header of the
    record has [left] equal to the minimum x and [top] equal to the
    minimum y, and the coordinates serialized into the record are the
    translated ones, [x - left] and [y - top], each greater than or
    equal to zero. *)
Theorem bounding_box (dt : np_int) (rnd : Z) (points : list (Z * Z)) (name : option pystr)
    (c z t : Z) (index : option Z) (left top : Z) (data : bytes) :
  array_min (map fst points) = Ok left ->
  array_min (map snd points) = Ok top ->
  imagej_create_roi dt rnd points name c z t index = Ok data ->
  int16_range left ->
  int16_range top ->
  Forall (fun p => fst p - left <= 32767 /\ snd p - top <= 32767) points ->
  Forall (fun p => fst p - left <= np_max dt /\ snd p - top <= np_max dt) points ->
  (In left (map fst points) /\ Forall (fun p => left <= fst p) points)
  /\ (In top (map snd points) /\ Forall (fun p => top <= snd p) points)
  /\ exists header coordinates,
       new_record IMAGEJ_ROI_HEADER (Some data) 0 = Ok header
       /\ get_int header "left" = left
       /\ get_int header "top" = top
       /\ ndarray_F_int16 (Z.of_nat (length points))
            (py_slice data 64 (64 + 2 * 2 * Z.of_nat (length points)))
          = Ok coordinates
       /\ coordinates = map (fun p => (fst p - left, snd p - top)) points
       /\ Forall (fun q => 0 <= fst q /\ 0 <= snd q) coordinates.
Proof.
  intros Hl Ht H Rl Rt Hmax Hdt.
  destruct (array_min_spec _ _ Hl) as [Il Bl]. destruct (array_min_spec _ _ Ht) as [It Bt].
  rewrite List.Forall_map in Bl, Bt. cbn [fst snd] in Bl, Bt.
  split; [split; assumption|]. split; [split; assumption|].
  destruct (imagej_create_roi_inv _ _ _ _ _ _ _ _ _ H)
    as (l' & t' & nb & Hl' & Ht' & Hfits & _ & ->).
  rewrite Hl in Hl'. rewrite Ht in Ht'. injection Hl' as <-. injection Ht' as <-.
  assert (Hrange : Forall (fun p => int16_range (fst p - left) /\ int16_range (snd p - top))
                     points).
  { rewrite List.Forall_forall in *. intros p Hp.
    specialize (Hmax p Hp). specialize (Bl p Hp). specialize (Bt p Hp).
    unfold int16_range. lia. }
  assert (Hfit : Forall (fun p => 0 <= fst p - left <= np_max dt
                                  /\ 0 <= snd p - top <= np_max dt) points).
  { rewrite List.Forall_forall in *. intros p Hp.
    specialize (Hdt p Hp). specialize (Bl p Hp). specialize (Bt p Hp). lia. }
  assert (Hmoved : astype_int16 (map (fun p => (fst p - left, snd p - top)) points)
                   = map (fun p => (fst p - left, snd p - top)) points).
  { apply astype_int16_id. rewrite List.Forall_map. exact Hrange. }
  exists (encoder_header left top (Z.of_nat (length points)) t
            (64 + 4 * Z.of_nat (length points))),
    (map (fun p => (fst p - left, snd p - top)) points).
  split.
  { unfold encoded_record. apply new_record_start, encoder_header_length. }
  rewrite header_left, header_top.
  unfold int16_range in Rl, Rt.
  split; [apply wrap_signed_small; lia|]. split; [apply wrap_signed_small; lia|].
  split.
  { rewrite encoded_coordinates, moved_in_range by assumption.
    rewrite <- Hmoved at 2. apply ndarray_tobytes_F.
    rewrite length_map. reflexivity. }
  split; [reflexivity|].
  rewrite List.Forall_map. rewrite List.Forall_forall in *. intros p Hp. cbn [fst snd].
  specialize (Bl p Hp). specialize (Bt p Hp). lia.
Qed.

Lemma bounding_box_witness :
  exists data header,
    imagej_create_roi int64 0 [(10, 20); (15, 20); (15, 25); (10, 25)]
      (Some (str_of_string "cellA")) 0 0 2 None = Ok data
    /\ new_record IMAGEJ_ROI_HEADER (Some data) 0 = Ok header
    /\ get_int header "left" = 10
    /\ get_int header "top" = 20
    /\ ndarray_F_int16 4 (py_slice data 64 (64 + 2 * 2 * 4))
       = Ok [(0, 0); (5, 0); (5, 5); (0, 5)].
Proof.
  destruct (imagej_create_roi int64 0 [(10, 20); (15, 20); (15, 25); (10, 25)]
              (Some (str_of_string "cellA")) 0 0 2 None) as [data|e] eqn:E;
    [|vm_compute in E; discriminate].
  destruct (bounding_box int64 0 [(10, 20); (15, 20); (15, 25); (10, 25)]
              (Some (str_of_string "cellA")) 0 0 2 None 10 20 data)
    as (_ & _ & h & cs & H1 & H2 & H3 & H4 & H5 & _).
  - reflexivity.
  - reflexivity.
  - exact E.
  - unfold int16_range. lia.
  - unfold int16_range. lia.
  - repeat constructor; cbn; lia.
  - repeat constructor; cbn; lia.
  - exists data, h. subst cs. repeat split; assumption.
Defined.

(** ** Round trip *)

Lemma encoder_getfield_left (left top n t off : Z) :
  getfield (encoder_header left top n t off) "left" = Some (PInt (wrap_signed 16 left)).
Proof.
  transitivity (Some (PInt (to_signed (8 * Z.of_nat 2) (be_value (be_bytes 2 left)))));
    [reflexivity|].
  rewrite signed_be_roundtrip by lia. reflexivity.
Qed.

Lemma encoder_getfield_top (left top n t off : Z) :
  getfield (encoder_header left top n t off) "top" = Some (PInt (wrap_signed 16 top)).
Proof.
  transitivity (Some (PInt (to_signed (8 * Z.of_nat 2) (be_value (be_bytes 2 top)))));
    [reflexivity|].
  rewrite signed_be_roundtrip by lia. reflexivity.
Qed.

Lemma add_origin_moved (left top : Z) (points : list (Z * Z)) :
  add_origin left top (map (fun p => (fst p - left, snd p - top)) points) = points.
Proof.
  unfold add_origin. rewrite map_map. rewrite <- (map_id points) at 2.
  apply map_ext. intros [x y]. cbn [fst snd]. f_equal; lia.
Qed.

(** What a round trip says, with the two calls chained. *)
Lemma roundtrips_chain (dt : np_int) (rnd : Z) (points : list (Z * Z)) (name : option pystr)
    (c z t : Z) (index : option Z) :
  roundtrips dt rnd points name c z t index ->
  exists overlay coordinates left top,
    (do data <- imagej_create_roi dt rnd points name c z t index; imagej_parse_overlay data)
    = Ok overlay
    /\ overlay !! "coordinates"%string = Some (PArray coordinates)
    /\ overlay !! "left"%string = Some (PInt left)
    /\ overlay !! "top"%string = Some (PInt top)
    /\ add_origin left top coordinates = points.
Proof.
  intros (data & ov & cs & l & tp & H1 & H2 & H3 & H4 & H5 & H6).
  exists ov, cs, l, tp. rewrite H1. cbn [bind]. repeat split; assumption.
Qed.

(** C1, as stated, fails. Every input below has translated coordinates
    within the signed 16-bit range. (1) A minimum x of 40000 does not
    fit the 16-bit [left] field, so adding [left] back gives -25536.
    (2) With 32768 points [n_coordinates] is stored as -32768 and the
    decoder raises. (3) A name with a character above U+FFFF takes two
    UTF-16 units but counts for one in [name_length], so the decoder
    reads half of a surrogate pair and raises. (4) The translation is
    done in the array's dtype: in an [int8] array with x values -100
    and 100 the translated 200 wraps to -56, and adding [left] back
    gives -156. (5) With t = 2^63 - 1 the assignment of t + 1 to
    [position] raises and there are no bytes to decode. *)
Lemma roundtrip_failures :
  ~ roundtrips int64 0 [(40000, 7)] (Some (str_of_string "cellA")) 0 0 2 None
  /\ ~ roundtrips int64 0 (repeat (0, 0) (Z.to_nat 32768)) (Some (str_of_string "cellA"))
        0 0 2 None
  /\ ~ roundtrips int64 0 [(0, 0)] (Some [0x1D49C]) 0 0 2 None
  /\ ~ roundtrips int8 0 [(-100, 0); (100, 0)] (Some (str_of_string "cellA")) 0 0 2 None
  /\ ~ roundtrips int64 0 [(1, 2)] (Some (str_of_string "a")) 0 0 (2 ^ 63 - 1) None.
Proof.
  assert (E1 : match (do data <- imagej_create_roi int64 0 [(40000, 7)]
                                   (Some (str_of_string "cellA")) 0 0 2 None;
                      imagej_parse_overlay data) with
               | Ok ov =>
                   ov !! "coordinates"%string = Some (PArray [(0, 0)])
                   /\ ov !! "left"%string = Some (PInt (-25536))
                   /\ ov !! "top"%string = Some (PInt 7)
               | Raise _ => False
               end)
    by (vm_compute; repeat split; reflexivity).
  assert (E2 : (do data <- imagej_create_roi int64 0 (repeat (0, 0) (Z.to_nat 32768))
                             (Some (str_of_string "cellA")) 0 0 2 None;
                imagej_parse_overlay data) = Raise NegativeDimensions)
    by (vm_compute; reflexivity).
  assert (E3 : (do data <- imagej_create_roi int64 0 [(0, 0)] (Some [0x1D49C]) 0 0 2 None;
                imagej_parse_overlay data) = Raise UnicodeDecodeError)
    by (vm_compute; reflexivity).
  assert (E4 : match (do data <- imagej_create_roi int8 0 [(-100, 0); (100, 0)]
                                   (Some (str_of_string "cellA")) 0 0 2 None;
                      imagej_parse_overlay data) with
               | Ok ov =>
                   ov !! "coordinates"%string = Some (PArray [(0, 0); (-56, 0)])
                   /\ ov !! "left"%string = Some (PInt (-100))
                   /\ ov !! "top"%string = Some (PInt 0)
               | Raise _ => False
               end)
    by (vm_compute; repeat split; reflexivity).
  assert (E5 : (do data <- imagej_create_roi int64 0 [(1, 2)] (Some (str_of_string "a"))
                             0 0 (2 ^ 63 - 1) None;
                imagej_parse_overlay data) = Raise OverflowError)
    by (vm_compute; reflexivity).
  split; [|split; [|split; [|split]]]; intros H; apply roundtrips_chain in H;
    destruct H as (ov & cs & l & tp & H1 & H2 & H3 & H4 & H5).
  - rewrite H1 in E1. destruct E1 as (F2 & F3 & F4).
    rewrite F2 in H2. rewrite F3 in H3. rewrite F4 in H4.
    injection H2 as <-. injection H3 as <-. injection H4 as <-.
    discriminate H5.
  - rewrite E2 in H1. discriminate.
  - rewrite E3 in H1. discriminate.
  - rewrite H1 in E4. destruct E4 as (F2 & F3 & F4).
    rewrite F2 in H2. rewrite F3 in H3. rewrite F4 in H4.
    injection H2 as <-. injection H3 as <-. injection H4 as <-.
    discriminate H5.
  - rewrite E5 in H1. discriminate.
Qed.

(** C1, amended: for every non-empty array of at most 32767 points, of
    any integer dtype, whose minimum x and minimum y lie in the signed
    16-bit range, whose coordinates translated by (-min x, -min y) lie
    in that range too and do not exceed the largest value of the
    array's dtype, whose frame index t has t + 1 in the range of a C
    long, and whose name (given or synthesized) has fewer than 2^31
    characters, each below U+10000 and not a surrogate, the encoder
    returns a record, and decoding it yields coordinates that, after
    adding the header's (left, top) back, equal the points exactly. In
    particular encoding [(10,20),(15,20),(15,25),(10,25)] with t=2 and
    name "cellA" decodes to name "cellA" and local coordinates
    [(0,0),(5,0),(5,5),(0,5)]. *)
Theorem encode_decode_roundtrip (dt : np_int) (rnd : Z) (points : list (Z * Z))
    (name : option pystr) (c z t : Z) (index : option Z) (left top : Z) :
  array_min (map fst points) = Ok left ->
  array_min (map snd points) = Ok top ->
  Z.of_nat (length points) <= 32767 ->
  int16_range left ->
  int16_range top ->
  Forall (fun p => int16_range (fst p - left) /\ int16_range (snd p - top)) points ->
  Forall (fun p => fst p - left <= np_max dt /\ snd p - top <= np_max dt) points ->
  c_long_range (t + 1) ->
  bmp_name name ->
  Z.of_nat (length (synthesize_name rnd name t index)) < 2 ^ 31 ->
  roundtrips dt rnd points name c z t index
  /\ match (do data <- imagej_create_roi dt rnd [(10, 20); (15, 20); (15, 25); (10, 25)]
                         (Some (str_of_string "cellA")) 0 0 2 None;
            imagej_parse_overlay data) with
     | Ok overlay =>
         overlay !! "name"%string = Some (PStr (str_of_string "cellA"))
         /\ overlay !! "coordinates"%string = Some (PArray [(0, 0); (5, 0); (5, 5); (0, 5)])
         /\ overlay !! "left"%string = Some (PInt 10)
         /\ overlay !! "top"%string = Some (PInt 20)
         /\ overlay !! "n_coordinates"%string = Some (PInt 4)
         /\ overlay !! "position"%string = Some (PInt 3)
         /\ overlay !! "roi_type"%string = Some (PInt CONST_IJ_FREEHAND)
         /\ add_origin 10 20 [(0, 0); (5, 0); (5, 5); (0, 5)]
            = [(10, 20); (15, 20); (15, 25); (10, 25)]
     | Raise _ => False
     end.
Proof.
  intros Hl Ht Hn Rl Rt Hrange Hdt Hpos Hname Hlen. split.
  - pose proof (synthesized_name_bmp rnd name t index Hname) as Hbmp.
    apply fits_c_long_spec in Hpos.
    assert (Hfit : Forall (fun p => 0 <= fst p - left <= np_max dt
                                    /\ 0 <= snd p - top <= np_max dt) points).
    { destruct (array_min_spec _ _ Hl) as [_ Bl]. destruct (array_min_spec _ _ Ht) as [_ Bt].
      rewrite List.Forall_map in Bl, Bt. cbn [fst snd] in Bl, Bt.
      rewrite List.Forall_forall in *. intros p Hp.
      specialize (Hdt p Hp). specialize (Bl p Hp). specialize (Bt p Hp). lia. }
    set (nm := synthesize_name rnd name t index) in *.
    set (n := Z.of_nat (length points)).
    set (h := encoder_header left top n t (64 + 4 * n)).
    set (h2 := encoder_header2 (wrap_signed 32 (64 + 4 * n) + 52) (Z.of_nat (length nm))).
    set (ov := <["coordinates"%string := PArray (astype_int16 (translate dt left top points))]>
                 (initial_overlay nm)).
    exists (encoded_record dt left top t points nm (concat (map (be_bytes 2) nm))),
      (fold_left insert_fields [h; h2] ov),
      (map (fun p => (fst p - left, snd p - top)) points), left, top.
    split; [apply imagej_create_roi_eq; try assumption; apply utf16be_encode_bmp, Hbmp|].
    split; [apply imagej_parse_overlay_encoded; try assumption; lia|].
    split.
    { rewrite overlay_lookup_reserved by (try reflexivity; right; reflexivity).
      unfold ov. rewrite lookup_insert_eq, moved_in_range by assumption. reflexivity. }
    unfold int16_range in Rl, Rt.
    split.
    { destruct (overlay_lookup_header h h2 ov "left") as (v & Hv & Hlk);
        [reflexivity|reflexivity|compute_done|].
      unfold h in Hv. rewrite encoder_getfield_left, wrap_signed_small in Hv by lia.
      rewrite Hlk. congruence. }
    split.
    { destruct (overlay_lookup_header h h2 ov "top") as (v & Hv & Hlk);
        [reflexivity|reflexivity|compute_done|].
      unfold h in Hv. rewrite encoder_getfield_top, wrap_signed_small in Hv by lia.
      rewrite Hlk. congruence. }
    apply add_origin_moved.
  - destruct dt; vm_compute; repeat split; reflexivity.
Qed.

Lemma encode_decode_roundtrip_witness :
  roundtrips uint8 7 [(10, 20); (15, 20); (15, 25); (10, 25)] None 0 0 2 (Some 1).
Proof.
  destruct (encode_decode_roundtrip uint8 7 [(10, 20); (15, 20); (15, 25); (10, 25)]
              None 0 0 2 (Some 1) 10 20)
    as [H _]; [| | | | | | | | | |exact H].
  - reflexivity.
  - reflexivity.
  - cbn. lia.
  - unfold int16_range. lia.
  - unfold int16_range. lia.
  - unfold int16_range. repeat constructor; cbn; lia.
  - repeat constructor; cbn; lia.
  - unfold c_long_range. lia.
  - exact I.
  - vm_compute. reflexivity.
Defined.

(** ** Decoding arbitrary buffers *)

Lemma imagej_parse_overlay_unfold (data : bytes) :
  imagej_parse_overlay data
  = do header <- new_record IMAGEJ_ROI_HEADER (Some data) 0;
    do header2 <- new_record IMAGEJ_ROI_HEADER2 (Some data) (get_int header "header2_offset");
    do name <- overlay_name data header2;
    do overlay <-
      (if decide (get_int header "roi_type" ∈ IMAGEJ_SUPPORTED_OVERLAYS) then
         let hsize := Z.of_nat (itemsize (rec_dtype header)) in
         do arr <-
           ndarray_F_int16 (get_int header "n_coordinates")
             (py_slice data hsize (hsize + 2 * 2 * get_int header "n_coordinates"));
         Ok (<["coordinates"%string := PArray arr]> (initial_overlay name))
       else Ok (initial_overlay name));
    Ok (fold_left insert_fields [header; header2] overlay).
Proof. reflexivity. Qed.

(** A successful decode went through both headers and the name, and its
    dictionary is the fields of both headers on top of [name] and
    [coordinates]. *)
Lemma imagej_parse_overlay_inv (data : bytes) (overlay : gmap string pyobj) :
  imagej_parse_overlay data = Ok overlay ->
  exists header header2 name coordinates,
    new_record IMAGEJ_ROI_HEADER (Some data) 0 = Ok header
    /\ new_record IMAGEJ_ROI_HEADER2 (Some data) (get_int header "header2_offset") = Ok header2
    /\ overlay_name data header2 = Ok name
    /\ overlay
       = fold_left insert_fields [header; header2]
           (<["coordinates"%string := coordinates]> (initial_overlay name)).
Proof.
  rewrite imagej_parse_overlay_unfold. intros H.
  destruct (new_record IMAGEJ_ROI_HEADER (Some data) 0) as [h|] eqn:E1; [|discriminate].
  cbn [bind] in H.
  destruct (new_record IMAGEJ_ROI_HEADER2 (Some data) (get_int h "header2_offset"))
    as [h2|] eqn:E2; [|discriminate].
  cbn [bind] in H.
  destruct (overlay_name data h2) as [nm|] eqn:E3; [|discriminate].
  cbn [bind] in H.
  destruct (decide (get_int h "roi_type" ∈ IMAGEJ_SUPPORTED_OVERLAYS)).
  - cbv zeta in H.
    destruct (ndarray_F_int16 _ _) as [arr|]; [|discriminate].
    cbn [bind] in H. injection H as <-.
    exists h, h2, nm, (PArray arr). repeat split; try reflexivity; assumption.
  - cbn [bind] in H. injection H as <-.
    exists h, h2, nm, PNone. repeat split; try reflexivity; assumption.
Qed.

Lemma getfield_roi_type (header : record) :
  rec_dtype header = IMAGEJ_ROI_HEADER ->
  getfield header "roi_type" = Some (PInt (get_int header "roi_type")).
Proof. intros D. unfold get_int, getfield. rewrite D. reflexivity. Qed.

(** C6: decoding a record whose two headers and name can be read and
    whose [roi_type] is none of the 11 known values does not fail. The
    result has [coordinates] absent ([None]), carries the [roi_type]
    value as it is, the name, and every field of the primary and of the
    secondary header whose name does not start with an underscore. *)
Theorem unknown_roi_type_decodes (data : bytes) (header header2 : record) (name : pystr) :
  new_record IMAGEJ_ROI_HEADER (Some data) 0 = Ok header ->
  new_record IMAGEJ_ROI_HEADER2 (Some data) (get_int header "header2_offset") = Ok header2 ->
  overlay_name data header2 = Ok name ->
  ~ (CONST_IJ_POLYGON <= get_int header "roi_type" <= CONST_IJ_POINT) ->
  exists overlay,
    imagej_parse_overlay data = Ok overlay
    /\ overlay !! "coordinates"%string = Some PNone
    /\ overlay !! "roi_type"%string = Some (PInt (get_int header "roi_type"))
    /\ overlay !! "name"%string = Some (PStr name)
    /\ (0 < get_int header2 "name_offset" ->
        utf16be_decode
          (py_slice data (get_int header2 "name_offset")
             (get_int header2 "name_offset" + get_int header2 "name_length" * 2))
        = Ok name)
    /\ (forall key, key ∈ public_names IMAGEJ_ROI_HEADER ->
        exists v, getfield header key = Some v /\ overlay !! key = Some v)
    /\ (forall key, key ∈ public_names IMAGEJ_ROI_HEADER2 ->
        exists v, getfield header2 key = Some v /\ overlay !! key = Some v).
Proof.
  intros H1 H2 H3 Hty.
  pose proof (new_record_dtype _ _ _ _ H1) as D1.
  pose proof (new_record_dtype _ _ _ _ H2) as D2.
  exists (fold_left insert_fields [header; header2] (initial_overlay name)).
  split.
  { rewrite imagej_parse_overlay_unfold, H1. cbn [bind]. rewrite H2. cbn [bind].
    rewrite H3. cbn [bind].
    destruct (decide (get_int header "roi_type" ∈ IMAGEJ_SUPPORTED_OVERLAYS)) as [Hin|_];
      [|reflexivity].
    destruct (unknown_not_supported _ Hty Hin). }
  split.
  { rewrite overlay_lookup_reserved by (try assumption; right; reflexivity). reflexivity. }
  split.
  { destruct (overlay_lookup_header header header2 (initial_overlay name) "roi_type" D1 D2)
      as (v & Hv & Hlk); [compute_done|].
    rewrite getfield_roi_type in Hv by exact D1. rewrite Hlk. congruence. }
  split.
  { rewrite overlay_lookup_reserved by (try assumption; left; reflexivity). reflexivity. }
  split.
  { intros Hpos. unfold overlay_name in H3.
    destruct (Z.ltb_spec 0 (get_int header2 "name_offset")); [exact H3|lia]. }
  split.
  - intros key Hk. apply overlay_lookup_header; assumption.
  - intros key Hk. apply overlay_lookup_header2; assumption.
Qed.

Lemma unknown_roi_type_decodes_witness :
  let data :=
    match imagej_create_roi int64 0 [(10, 20); (15, 20)] (Some (str_of_string "cellA")) 0 0 2 None with
    | Ok d => firstn 6 d ++ ["*"%byte] ++ skipn 7 d
    | Raise _ => []
    end in
  exists overlay,
    imagej_parse_overlay data = Ok overlay
    /\ overlay !! "coordinates"%string = Some PNone
    /\ overlay !! "roi_type"%string = Some (PInt 42)
    /\ overlay !! "name"%string = Some (PStr (str_of_string "cellA")).
Proof.
  intros data.
  assert (Hty : get_int (mk_record IMAGEJ_ROI_HEADER (firstn 64 data)) "roi_type" = 42)
    by (vm_compute; reflexivity).
  destruct (unknown_roi_type_decodes data
              (mk_record IMAGEJ_ROI_HEADER (firstn 64 data))
              (mk_record IMAGEJ_ROI_HEADER2 (firstn 52 (skipn 72 data)))
              (str_of_string "cellA"))
    as (ov & H1 & H2 & H3 & H4 & _).
  - vm_compute. reflexivity.
  - vm_compute. reflexivity.
  - vm_compute. reflexivity.
  - rewrite Hty. unfold CONST_IJ_POLYGON, CONST_IJ_POINT. lia.
  - exists ov. rewrite Hty in H3. repeat split; assumption.
Defined.

(** ** Truncated buffers *)

(** C9: decoding a buffer shorter than the primary header fails with
    numpy's "buffer is too small" error; so does any fixed-layout read
    at an offset [o] from a buffer of fewer than [o + itemsize] bytes,
    the read of the secondary header included; and a decode either
    raises or returns a dictionary holding every key, the name, the
    coordinates and each public field of both headers: there is no
    partial result. *)
Theorem truncated_buffer_fails (d : dtype) (data : bytes) (offset : Z) :
  (Z.of_nat (length data) < Z.of_nat (itemsize IMAGEJ_ROI_HEADER) ->
   imagej_parse_overlay data = Raise BufferTooSmall)
  /\ (Z.of_nat (length data) < offset + Z.of_nat (itemsize d) ->
      new_record d (Some data) offset = Raise BufferTooSmall)
  /\ (forall header,
        new_record IMAGEJ_ROI_HEADER (Some data) 0 = Ok header ->
        Z.of_nat (length data)
        < get_int header "header2_offset" + Z.of_nat (itemsize IMAGEJ_ROI_HEADER2) ->
        imagej_parse_overlay data = Raise BufferTooSmall)
  /\ ((exists e, imagej_parse_overlay data = Raise e)
      \/ (exists overlay,
            imagej_parse_overlay data = Ok overlay
            /\ forall key, key ∈ overlay_keys -> is_Some (overlay !! key))).
Proof.
  split; [|split; [|split]].
  - intros H. rewrite imagej_parse_overlay_unfold, new_record_too_short by lia. reflexivity.
  - apply new_record_too_short.
  - intros header H1 H. rewrite imagej_parse_overlay_unfold, H1. cbn [bind].
    rewrite new_record_too_short by lia. reflexivity.
  - destruct (imagej_parse_overlay data) as [overlay|e] eqn:E; [right|left; eauto].
    exists overlay. split; [reflexivity|].
    destruct (imagej_parse_overlay_inv _ _ E) as (h & h2 & nm & cv & H1 & H2 & _ & ->).
    pose proof (new_record_dtype _ _ _ _ H1) as D1.
    pose proof (new_record_dtype _ _ _ _ H2) as D2.
    intros key Hk. unfold overlay_keys in Hk.
    apply elem_of_cons in Hk as [->|Hk].
    { rewrite overlay_lookup_reserved by (try assumption; left; reflexivity).
      unfold initial_overlay. rewrite lookup_insert_ne by discriminate.
      rewrite lookup_insert_ne by discriminate. rewrite lookup_insert_eq. eauto. }
    apply elem_of_cons in Hk as [->|Hk].
    { rewrite overlay_lookup_reserved by (try assumption; right; reflexivity).
      rewrite lookup_insert_eq. eauto. }
    apply elem_of_app in Hk as [Hk|Hk].
    + destruct (overlay_lookup_header h h2 (<["coordinates"%string := cv]> (initial_overlay nm))
                  key D1 D2 Hk) as (v & _ & ->). eauto.
    + destruct (overlay_lookup_header2 h h2
                  (<["coordinates"%string := cv]> (initial_overlay nm)) key D2 Hk)
        as (v & _ & ->). eauto.
Qed.

Lemma truncated_buffer_fails_witness :
  imagej_parse_overlay (repeat x00 63) = Raise BufferTooSmall
  /\ new_record IMAGEJ_ROI_HEADER2 (Some (repeat x00 100)) 49 = Raise BufferTooSmall.
Proof.
  split.
  - apply (truncated_buffer_fails IMAGEJ_ROI_HEADER (repeat x00 63) 0). cbn. lia.
  - apply (truncated_buffer_fails IMAGEJ_ROI_HEADER2 (repeat x00 100) 49). cbn. lia.
Defined.

(** ** Synthesized names *)

Lemma fmt_d_nonneg (n : Z) : 0 <= n -> fmt_d n = digits 10 n.
Proof.
  intros H. unfold fmt_d, signed_digits. destruct (Z.ltb_spec n 0); [lia|reflexivity].
Qed.

Lemma fmt_x_nonneg (n : Z) : 0 <= n -> fmt_x n = digits 16 n.
Proof.
  intros H. unfold fmt_x, signed_digits. destruct (Z.ltb_spec n 0); [lia|reflexivity].
Qed.

(** ['%02d'] of a number from 0 up: decimal digits, at least two of
    them, whose value is the number. *)
Lemma fmt_02d_spec (n : Z) :
  0 <= n ->
  digits_value 10 (fmt_02d n) = n
  /\ Forall is_dec_digit (fmt_02d n)
  /\ (2 <= length (fmt_02d n))%nat
  /\ (10 <= n -> fmt_02d n = digits 10 n).
Proof.
  intros H. unfold fmt_02d. rewrite fmt_d_nonneg by exact H.
  pose proof (digits_value_digits 10 n ltac:(lia) H) as Hv.
  pose proof (digits_decimal n) as Hd.
  pose proof (digits_nonempty 10 n) as Hl.
  destruct (Nat.ltb_spec (length (digits 10 n)) 2) as [Hlt|Hge].
  - repeat split.
    + rewrite digits_value_cons, Hv. reflexivity.
    + constructor; [unfold is_dec_digit; lia|exact Hd].
    + simpl. lia.
    + intros H10. exfalso.
      assert (Hone : length (digits 10 n) = 1%nat) by lia.
      destruct (digits 10 n) as [|d [|d' s]] eqn:E; try discriminate.
      pose proof (Forall_inv Hd) as Hdig.
      unfold digits_value in Hv. cbn [fold_left] in Hv. unfold is_dec_digit in Hdig.
      unfold digit_value in Hv. destruct (Z.ltb_spec d 58); lia.
  - repeat split; assumption.
Qed.

(** C8: with no name and an explicit index the record carries the name
    "F" + ['%02d' % (t+1)] + "-C" + ['%d' % index]; with no name and no
    index it carries "F" + ['%02d' % (t+1)] + "-" + the lower-case
    hexadecimal digits of the random draw, between one and eight of
    them, which is what a value below 2^32 takes. The formatted numbers
    are decimal digits (two at least for t+1) whose value is the number
    formatted. *)
Theorem name_synthesis (dt : np_int) (rnd : Z) (points : list (Z * Z)) (c z t : Z) :
  (forall index data,
     imagej_create_roi dt rnd points None c z t (Some index) = Ok data ->
     exists name_bytes,
       utf16be_encode
         (str_of_string "F" ++ fmt_02d (t + 1) ++ str_of_string "-C" ++ fmt_d index)
       = Ok name_bytes
       /\ skipn (Z.to_nat (64 + 4 * Z.of_nat (length points) + 52)) data = name_bytes
       /\ (0 <= index ->
           digits_value 10 (fmt_d index) = index /\ Forall is_dec_digit (fmt_d index)))
  /\ (forall data,
        0 <= rnd < 2 ^ 32 - 1 ->
        imagej_create_roi dt rnd points None c z t None = Ok data ->
        exists hex name_bytes,
          utf16be_encode
            (str_of_string "F" ++ fmt_02d (t + 1) ++ str_of_string "-" ++ hex)
          = Ok name_bytes
          /\ skipn (Z.to_nat (64 + 4 * Z.of_nat (length points) + 52)) data = name_bytes
          /\ (1 <= length hex <= 8)%nat
          /\ Forall is_hex_digit hex
          /\ digits_value 16 hex = rnd)
  /\ (0 <= t + 1 ->
      digits_value 10 (fmt_02d (t + 1)) = t + 1
      /\ Forall is_dec_digit (fmt_02d (t + 1))
      /\ (2 <= length (fmt_02d (t + 1)))%nat).
Proof.
  split; [|split].
  - intros index data H.
    destruct (encoded_offsets _ _ _ _ _ _ _ _ _ H) as (_ & _ & nb & _ & _ & Hn & Hs & _).
    exists nb. split; [exact Hn|]. split; [exact Hs|].
    intros Hi. rewrite fmt_d_nonneg by exact Hi. split.
    + apply digits_value_digits; lia.
    + apply digits_decimal.
  - intros data Hr H.
    destruct (encoded_offsets _ _ _ _ _ _ _ _ _ H) as (_ & _ & nb & _ & _ & Hn & Hs & _).
    exists (fmt_x rnd), nb. split; [exact Hn|]. split; [exact Hs|].
    rewrite fmt_x_nonneg by lia. split; [|split].
    + apply digits_length; [lia| |lia]. change (16 ^ Z.of_nat 8) with (2 ^ 32). lia.
    + apply digits_hex.
    + apply digits_value_digits; lia.
  - intros Ht. destruct (fmt_02d_spec (t + 1) Ht) as (H1 & H2 & H3 & _).
    repeat split; assumption.
Qed.

Lemma name_synthesis_witness :
  (exists data,
     imagej_create_roi int64 3735928559 [(10, 20)] None 0 0 2 (Some 5) = Ok data
     /\ utf16be_decode (skipn 120 data) = Ok (str_of_string "F03-C5"))
  /\ (exists data hex name_bytes,
        imagej_create_roi int64 3735928559 [(10, 20)] None 0 0 2 None = Ok data
        /\ utf16be_encode (str_of_string "F03-" ++ hex) = Ok name_bytes
        /\ skipn 120 data = name_bytes
        /\ (1 <= length hex <= 8)%nat
        /\ digits_value 16 hex = 3735928559).
Proof.
  destruct (name_synthesis int64 3735928559 [(10, 20)] 0 0 2) as (H1 & H2 & _).
  split.
  - assert (E : exists data,
               imagej_create_roi int64 3735928559 [(10, 20)] None 0 0 2 (Some 5) = Ok data)
      by (eexists; vm_compute; reflexivity).
    destruct E as [data E]. destruct (H1 5 data E) as (nb & Hn & Hs & _).
    exists data. split; [exact E|].
    change (Z.to_nat (64 + 4 * Z.of_nat (length [(10, 20)]) + 52)) with 120%nat in Hs.
    rewrite Hs. vm_compute in Hn. injection Hn as <-. vm_compute. reflexivity.
  - assert (E : exists data,
               imagej_create_roi int64 3735928559 [(10, 20)] None 0 0 2 None = Ok data)
      by (eexists; vm_compute; reflexivity).
    destruct E as [data E].
    destruct (H2 data ltac:(lia) E) as (hex & nb & Hn & Hs & Hl & _ & Hv).
    exists data, hex, nb. repeat split; try assumption; apply Hl.
Defined.

(** ** The writer session *)

Section SessionProperties.
Context {image value : Type}.
Implicit Types (self : TiffWriter image value) (op : call image value).
Implicit Types (ops before : list (call image value)).

Lemma imagej_prepare_metadata_ok (overlays : list bytes) :
  exists meta_data byte_counts,
    imagej_prepare_metadata overlays = Ok (meta_data, byte_counts).
Proof. eexists _, _. reflexivity. Qed.

Lemma run_snoc self ops op : run self (ops ++ [op]) = step (run self ops) op.
Proof. unfold run. rewrite fold_left_app. reflexivity. Qed.

(** [add_roi] touches neither the flag nor the underlying writer. *)
Lemma add_roi_frame self (dt : np_int) rnd points name c z t :
  let self' := fst (TiffWriter_add_roi self dt rnd points name c z t) in
  ijm_first_written self' = ijm_first_written self
  /\ original_saves self' = original_saves self.
Proof.
  unfold TiffWriter_add_roi.
  destruct name as [name|]; cbv zeta iota beta;
    destruct (imagej_create_roi _ _ _ _ _ _ _ _); split; reflexivity.
Qed.

(** What one [save] does, by the state it finds. *)
Lemma new_save_emits self (data : image) (kwargs : gmap string value) :
  ijm_first_written self = false ->
  ijm_roi_data self <> [] ->
  let self' := fst (TiffWriter_new_save self data kwargs) in
  ijm_first_written self' = true
  /\ ijm_roi_data self' = ijm_roi_data self
  /\ original_saves self'
     = original_saves self ++ [mk_save_call data ∅ (emission_tags (ijm_roi_data self))].
Proof.
  intros Hw Hr. unfold TiffWriter_new_save, emission_tags. rewrite Hw.
  destruct (ijm_roi_data self) as [|r rs] eqn:E; [congruence|]. cbn [length Nat.eqb orb].
  destruct (imagej_prepare_metadata_ok (r :: rs)) as (m & bc & ->).
  repeat split.
Qed.

Lemma new_save_plain self (data : image) (kwargs : gmap string value) :
  ijm_first_written self = true \/ ijm_roi_data self = [] ->
  let self' := fst (TiffWriter_new_save self data kwargs) in
  ijm_first_written self' = ijm_first_written self
  /\ ijm_roi_data self' = ijm_roi_data self
  /\ original_saves self' = original_saves self ++ [mk_save_call data ∅ []].
Proof.
  intros H. unfold TiffWriter_new_save.
  assert (Hc : ijm_first_written self || (length (ijm_roi_data self) =? 0)%nat = true).
  { destruct H as [-> | ->]; [reflexivity|apply orb_true_r]. }
  rewrite Hc. repeat split.
Qed.

Lemma first_written_step self op :
  ijm_first_written self = true -> ijm_first_written (step self op) = true.
Proof.
  intros H. destruct op as [dt rnd points name c z t|data kwargs]; cbn [step].
  - destruct (add_roi_frame self dt rnd points name c z t) as [-> _]. exact H.
  - destruct (new_save_plain self data kwargs (or_introl H)) as (-> & _). exact H.
Qed.

(** The flag is set exactly when an earlier [save] found pending ROI
    records. *)
Lemma first_written_iff before :
  ijm_first_written (run (value := value) TiffWriter___init__ before) = true
  <-> emitted_before before.
Proof.
  induction before as [|op before IH] using rev_ind.
  - split; [discriminate|]. intros (pre & d & kw & post & E & _).
    destruct pre; discriminate.
  - rewrite run_snoc. split.
    + intros H.
      destruct (ijm_first_written (run TiffWriter___init__ before)) eqn:Hw.
      * destruct (proj1 IH eq_refl) as (pre & d & kw & post & -> & Hne).
        exists pre, d, kw, (post ++ [op]). split; [|exact Hne].
        rewrite <- app_assoc. reflexivity.
      * destruct op as [dt rnd points name c z t|data kwargs]; cbn [step] in H.
        -- destruct (add_roi_frame (run TiffWriter___init__ before) dt rnd points name c z t)
             as [E _].
           rewrite E in H. congruence.
        -- exists before, data, kwargs, []. split; [reflexivity|].
           intros Hempty.
           destruct (new_save_plain (run TiffWriter___init__ before) data kwargs
                       (or_intror Hempty)) as (E & _).
           rewrite E in H. congruence.
    + intros (pre & d & kw & post & E & Hne).
      induction post as [|y post' _] using rev_ind.
      * apply app_inj_tail in E as [-> ->]. cbn [step].
        destruct (ijm_first_written (run TiffWriter___init__ pre)) eqn:Hw.
        -- destruct (new_save_plain (run TiffWriter___init__ pre) d kw (or_introl Hw))
             as (-> & _). exact Hw.
        -- destruct (new_save_emits (run TiffWriter___init__ pre) d kw Hw Hne) as (-> & _).
           reflexivity.
      * rewrite app_comm_cons, app_assoc in E. apply app_inj_tail in E as [-> ->].
        apply first_written_step, IH. exists pre, d, kw, post'. split; [reflexivity|exact Hne].
Qed.

Lemma emission_tags_codes (roi_data : list bytes) :
  map tag_code (emission_tags roi_data) = [50838; 50839].
Proof.
  unfold emission_tags. destruct (imagej_prepare_metadata_ok roi_data) as (m & bc & ->).
  reflexivity.
Qed.

(** Over a whole session the calls made to the underlying [save] are
    plain ones, then at most one with tags, then plain ones again. *)
Lemma session_trace ops :
  let self := run (value := value) TiffWriter___init__ ops in
  (ijm_first_written self = false -> Forall plain_call (original_saves self))
  /\ (ijm_first_written self = true ->
      exists earlier emitting later,
        original_saves self = earlier ++ emitting :: later
        /\ Forall plain_call earlier /\ Forall plain_call later
        /\ map tag_code (call_extratags emitting) = [50838; 50839]).
Proof.
  induction ops as [|op ops IH] using rev_ind.
  - split; [constructor|discriminate].
  - rewrite run_snoc. cbv zeta in IH. destruct IH as [IHf IHt].
    set (self := run TiffWriter___init__ ops) in *.
    destruct op as [dt rnd points name c z t|data kwargs]; cbn [step].
    + destruct (add_roi_frame self dt rnd points name c z t) as [-> ->].
      split; assumption.
    + destruct (ijm_first_written self) eqn:Hw.
      * destruct (new_save_plain self data kwargs (or_introl Hw)) as (-> & _ & ->).
        rewrite Hw. split; [discriminate|]. intros _.
        destruct (IHt eq_refl) as (p1 & c & p2 & -> & H1 & H2 & H3).
        exists p1, c, (p2 ++ [mk_save_call data ∅ []]).
        rewrite <- app_assoc. split; [reflexivity|]. split; [exact H1|].
        split; [|exact H3].
        apply Forall_app. split; [exact H2|]. repeat constructor.
      * destruct (ijm_roi_data self) as [|r rs] eqn:Hr.
        -- destruct (new_save_plain self data kwargs (or_intror Hr)) as (-> & _ & ->).
           rewrite Hw. split; [|discriminate]. intros _.
           apply Forall_app. split; [apply IHf; reflexivity|]. repeat constructor.
        -- destruct (new_save_emits self data kwargs Hw) as (-> & _ & ->);
             [rewrite Hr; discriminate|].
           split; [discriminate|]. intros _.
           exists (original_saves self), (mk_save_call data ∅ (emission_tags (ijm_roi_data self))), [].
           split; [reflexivity|]. split; [apply IHf; reflexivity|].
           split; [constructor|apply emission_tags_codes].
Qed.

(** No call a session makes to the underlying [save] carries a keyword
    argument of the caller's. *)
Lemma session_keywords ops :
  Forall (fun c => call_kwargs c = ∅)
    (original_saves (run (value := value) TiffWriter___init__ ops)).
Proof.
  induction ops as [|op ops IH] using rev_ind; [constructor|].
  rewrite run_snoc. set (self := run TiffWriter___init__ ops) in *.
  destruct op as [dt rnd points name c z t|data kwargs]; cbn [step].
  - destruct (add_roi_frame self dt rnd points name c z t) as [_ ->]. exact IH.
  - destruct (ijm_first_written self) eqn:Hw.
    + destruct (new_save_plain self data kwargs (or_introl Hw)) as (_ & _ & ->).
      apply Forall_app. split; [exact IH|]. repeat constructor.
    + destruct (ijm_roi_data self) as [|r rs] eqn:Hr.
      * destruct (new_save_plain self data kwargs (or_intror Hr)) as (_ & _ & ->).
        apply Forall_app. split; [exact IH|]. repeat constructor.
      * destruct (new_save_emits self data kwargs Hw) as (_ & _ & ->);
          [rewrite Hr; discriminate|].
        apply Forall_app. split; [exact IH|]. repeat constructor.
Qed.

End SessionProperties.

(** C5, as stated, fails in its last part: a later [save] does not
    behave as the unmodified underlying [save], because it does not
    pass its keyword arguments on. After the emitting [save] of a
    session, [save(2, compress=6)] calls the underlying [save] with the
    image alone, where the unmodified one would get [compress=6]. *)
Lemma save_drops_keywords :
  let session : list (call Z Z) := [AddRoi int64 0 [(10, 20)] None 0 0 2; Save 1 ∅] in
  let self := run TiffWriter___init__ session in
  let kwargs : gmap string Z := {[ "compress"%string := 6 ]} in
  let saved := fst (TiffWriter_new_save self 2 kwargs) in
  ijm_first_written self = true
  /\ original_saves saved = original_saves self ++ [mk_save_call 2 ∅ []]
  /\ original_saves (original_save self 2 kwargs [])
     = original_saves self ++ [mk_save_call 2 kwargs []]
  /\ saved <> original_save self 2 kwargs [].
Proof.
  intros session self kwargs saved.
  assert (Hw : ijm_first_written self = true) by (vm_compute; reflexivity).
  assert (E : original_saves saved = original_saves self ++ [mk_save_call 2 ∅ []]).
  { unfold saved, TiffWriter_new_save. rewrite Hw. reflexivity. }
  split; [exact Hw|]. split; [exact E|]. split; [reflexivity|].
  intros H. apply (f_equal original_saves) in H. rewrite E in H.
  unfold original_save in H. cbn [original_saves] in H.
  apply app_inv_head in H.
  apply (f_equal (map (fun c => call_kwargs c !! "compress"%string))) in H.
  cbn [map call_kwargs] in H.
  unfold kwargs in H. rewrite lookup_empty, lookup_singleton_eq in H. discriminate.
Qed.

(** C5, amended: on one session, a [save] attaches the two extra tags
    (the byte-count table 50838 and the metadata block 50839) exactly
    when ROI records are pending and no earlier [save] of the session
    found pending records; any other [save] attaches no tags. Every
    [save] hands the image alone to the underlying [save]: the keyword
    arguments it was given are not passed on, whether it attaches the
    tags or not. Hence the calls a session makes to the underlying
    [save] are plain, then at most one with the two tags, then plain
    for ever after, and none carries a keyword argument of the
    caller's. No [save] raises. *)
Theorem one_shot_emission {image value : Type} (before : list (call image value))
    (data : image) (kwargs : gmap string value) :
  let self := run TiffWriter___init__ before in
  let saved := TiffWriter_new_save self data kwargs in
  let first_with_pending := ijm_roi_data self <> [] /\ ~ emitted_before before in
  snd saved = Ok tt
  /\ (first_with_pending ->
      original_saves (fst saved)
      = original_saves self ++ [mk_save_call data ∅ (emission_tags (ijm_roi_data self))]
      /\ map tag_code (emission_tags (ijm_roi_data self)) = [50838; 50839])
  /\ (~ first_with_pending ->
      original_saves (fst saved) = original_saves self ++ [mk_save_call data ∅ []])
  /\ (forall after : list (call image value),
        let final := run (fst saved) after in
        ijm_first_written self = true \/ first_with_pending ->
        exists earlier emitting later,
          original_saves final = earlier ++ emitting :: later
          /\ Forall plain_call earlier /\ Forall plain_call later
          /\ map tag_code (call_extratags emitting) = [50838; 50839])
  /\ (forall after : list (call image value),
        Forall (fun c => call_kwargs c = ∅) (original_saves (run (fst saved) after))).
Proof.
  intros self saved fwp.
  pose proof (first_written_iff before) as Hiff. fold self in Hiff.
  split; [|split; [|split; [|split]]].
  - unfold saved, TiffWriter_new_save.
    destruct (ijm_first_written self || (length (ijm_roi_data self) =? 0)%nat);
      [reflexivity|].
    destruct (imagej_prepare_metadata_ok (ijm_roi_data self)) as (m & bc & ->). reflexivity.
  - intros [Hr Hne].
    assert (Hw : ijm_first_written self = false).
    { destruct (ijm_first_written self); [|reflexivity]. destruct Hne. apply Hiff. reflexivity. }
    destruct (new_save_emits self data kwargs Hw Hr) as (_ & _ & E).
    split; [exact E|apply emission_tags_codes].
  - intros Hn.
    assert (H : ijm_first_written self = true \/ ijm_roi_data self = []).
    { destruct (ijm_first_written self) eqn:Hw; [left; reflexivity|right].
      destruct (ijm_roi_data self) as [|r rs] eqn:Hr; [reflexivity|].
      destruct Hn. split; [discriminate|]. intros He. apply Hiff in He. discriminate. }
    destruct (new_save_plain self data kwargs H) as (_ & _ & E). exact E.
  - intros after final Hcase.
    assert (Hfinal : final = run TiffWriter___init__ (before ++ Save data kwargs :: after)).
    { unfold final, saved, run. rewrite fold_left_app. reflexivity. }
    assert (Hw : ijm_first_written final = true).
    { rewrite Hfinal. apply first_written_iff.
      destruct Hcase as [Hw|[Hr _]].
      - apply Hiff in Hw. destruct Hw as (pre & d & kw & post & -> & Hne).
        exists pre, d, kw, (post ++ Save data kwargs :: after).
        rewrite <- app_assoc. split; [reflexivity|exact Hne].
      - exists before, data, kwargs, after. split; [reflexivity|exact Hr]. }
    rewrite Hfinal in *.
    exact (proj2 (session_trace (before ++ Save data kwargs :: after)) Hw).
  - intros after.
    assert (Hfinal : run (fst saved) after
                     = run TiffWriter___init__ (before ++ Save data kwargs :: after)).
    { unfold saved, self, run. rewrite fold_left_app. reflexivity. }
    rewrite Hfinal. apply session_keywords.
Qed.

Lemma one_shot_emission_witness :
  let first : list (call Z Z) := [AddRoi int64 0 [(10, 20)] None 0 0 2] in
  let second : list (call Z Z) :=
    first ++ [Save 1 ∅; AddRoi int64 0 [(3, 4)] None 0 0 2] in
  let kwargs : gmap string Z := {[ "compress"%string := 6 ]} in
  map (fun c => (call_data c, map tag_code (call_extratags c)))
    (original_saves (fst (TiffWriter_new_save (run TiffWriter___init__ first) 1 ∅)))
  = [(1, [50838; 50839])]
  /\ map (fun c => (call_data c, map tag_code (call_extratags c)))
       (original_saves (fst (TiffWriter_new_save (run TiffWriter___init__ second) 2 kwargs)))
     = [(1, [50838; 50839]); (2, [])].
Proof.
  intros first second kwargs. split.
  - destruct (one_shot_emission first 1 ∅) as (_ & H & _).
    destruct H as [-> Hc].
    + split; [vm_compute; discriminate|].
      intros (pre & d & kw & post & E & _).
      destruct pre as [|? [|? ?]]; discriminate.
    + vm_compute. reflexivity.
  - destruct (one_shot_emission second 2 kwargs) as (_ & _ & H & _).
    rewrite H.
    + vm_compute. reflexivity.
    + intros [_ Hne]. apply Hne.
      exists first, 1, ∅, [AddRoi int64 0 [(3, 4)] None 0 0 2].
      split; [reflexivity|vm_compute; discriminate].
Defined.

(** * Further properties *)

(** ** Reading and writing record fields *)











(** ** When the encoder raises *)

Lemma utf16be_encode_clean (s : pystr) :
  Forall (fun cp => is_surrogate cp = false) s ->
  exists name_bytes,
    utf16be_encode s = Ok name_bytes /\ length name_bytes = (2 * utf16_length s)%nat.
Proof.
  unfold utf16_length.
  induction 1 as [|cp s Hcp _ (nb & IH & Hlen)]; [exists []; split; reflexivity|].
  cbn [utf16be_encode List.filter]. rewrite Hcp, IH. cbn [bind]. unfold is_astral at 1.
  destruct (Z.ltb_spec cp 0x10000), (Z.leb_spec 0x10000 cp); try lia.
  - eexists. split; [reflexivity|]. rewrite length_app, be_bytes_length. cbn [length]. lia.
  - eexists. split; [reflexivity|].
    rewrite !length_app, !be_bytes_length. cbn [length]. lia.
Qed.





(** ** The size of a record *)

(** X3: a record the encoder returns from [n] points is 64 + 4n + 52
    bytes long plus two bytes for each UTF-16 unit of the name; its
    [name_length] field holds the number of characters, which is less
    than the number of units as soon as a character lies above U+FFFF. *)
Theorem encoded_record_size (dt : np_int) (rnd : Z) (points : list (Z * Z)) (name : option pystr)
    (c z t : Z) (index : option Z) (data : bytes) :
  let resolved := synthesize_name rnd name t index in
  imagej_create_roi dt rnd points name c z t index = Ok data ->
  length data = (64 + 4 * length points + 52 + 2 * utf16_length resolved)%nat
  /\ (exists header2,
        new_record IMAGEJ_ROI_HEADER2 (Some data) (64 + 4 * Z.of_nat (length points))
        = Ok header2
        /\ get_int header2 "name_length" = wrap_signed 32 (Z.of_nat (length resolved)))
  /\ (length resolved <= utf16_length resolved)%nat
  /\ (Exists (fun cp => is_astral cp = true) resolved ->
      (length resolved < utf16_length resolved)%nat).
Proof.
  intros resolved H.
  destruct (encoded_offsets _ _ _ _ _ _ _ _ _ H) as (h & h2 & nb & _ & H2 & Hn & _ & _ & _ & H7).
  destruct (imagej_create_roi_inv _ _ _ _ _ _ _ _ _ H)
    as (left & top & nb' & _ & _ & Hfits & Hn' & ->).
  fold resolved in Hn, Hn', H7.
  assert (Hclean : Forall (fun cp => is_surrogate cp = false) resolved).
  { clear -Hn'. revert nb' Hn'. induction resolved as [|cp s IH]; intros nb Hn; [constructor|].
    cbn [utf16be_encode] in Hn. destruct (is_surrogate cp) eqn:E; [discriminate|].
    constructor; [exact E|].
    destruct (utf16be_encode s) as [rest|]; [|discriminate]. apply (IH rest). reflexivity. }
  destruct (utf16be_encode_clean resolved Hclean) as (nb2 & Hn2 & Hlen).
  rewrite Hn' in Hn2. injection Hn2 as <-.
  split; [|split; [|split]].
  - unfold encoded_record.
    rewrite !length_app, encoder_header_length, encoder_header2_length, tobytes_F_length,
      astype_int16_length, translate_length, Hlen. lia.
  - exists h2. split; [exact H2|exact H7].
  - unfold utf16_length. lia.
  - intros Hex. unfold utf16_length.
    enough (0 < length (List.filter is_astral resolved))%nat by lia.
    apply List.Exists_exists in Hex as (cp & Hin & Hcp).
    assert (Hf : In cp (List.filter is_astral resolved)) by (apply filter_In; split; assumption).
    destruct (List.filter is_astral resolved); [destruct Hf|simpl; lia].
Qed.

Lemma encoded_record_size_witness :
  exists data,
    imagej_create_roi int64 0 [(1, 2); (3, 4)] (Some [0x1D49C; 65]) 0 0 2 None = Ok data
    /\ length data = 130%nat.
Proof.
  assert (E : exists data,
             imagej_create_roi int64 0 [(1, 2); (3, 4)] (Some [0x1D49C; 65]) 0 0 2 None = Ok data)
    by (eexists; vm_compute; reflexivity).
  destruct E as [data E]. exists data. split; [exact E|].
  destruct (encoded_record_size int64 0 [(1, 2); (3, 4)] (Some [0x1D49C; 65]) 0 0 2 None data E)
    as (H & _).
  rewrite H. reflexivity.
Defined.

(** ** What the encoder always writes *)

(** X4: whatever the points, every record the encoder returns has
    [roi_type] freehand, [options] 40, [position] t + 1 and
    [n_coordinates] the number of points (each cast to its field), and
    zero in every other field but [left], [top] and the offsets: in
    particular [bottom] and [right] stay 0, so the far corner of the
    bounding box is never written. *)
Theorem encoder_fixed_fields (dt : np_int) (rnd : Z) (points : list (Z * Z)) (name : option pystr)
    (c z t : Z) (index : option Z) (data : bytes) :
  imagej_create_roi dt rnd points name c z t index = Ok data ->
  exists header header2,
    new_record IMAGEJ_ROI_HEADER (Some data) 0 = Ok header
    /\ new_record IMAGEJ_ROI_HEADER2 (Some data) (64 + 4 * Z.of_nat (length points))
       = Ok header2
    /\ get_int header "roi_type" = CONST_IJ_FREEHAND
    /\ get_int header "options" = 40
    /\ get_int header "position" = wrap_signed 32 (t + 1)
    /\ get_int header "n_coordinates" = wrap_signed 16 (Z.of_nat (length points))
    /\ Forall (fun key => getfield header key = Some (PInt 0)) unassigned_header_fields
    /\ Forall (fun key => getfield header2 key = Some (PInt 0)) unassigned_header2_fields
    /\ getfield header2 "float_stroke_width" = Some (PFloat32 0).
Proof.
  intros H.
  destruct (imagej_create_roi_inv _ _ _ _ _ _ _ _ _ H)
    as (left & top & nb & _ & _ & Hfits & _ & ->).
  unfold encoded_record.
  exists (encoder_header left top (Z.of_nat (length points)) t
            (64 + 4 * Z.of_nat (length points))),
    (encoder_header2 (wrap_signed 32 (64 + 4 * Z.of_nat (length points)) + 52)
       (Z.of_nat (length (synthesize_name rnd name t index)))).
  split; [apply new_record_start, encoder_header_length|].
  split.
  { rewrite app_assoc. apply new_record_at; [reflexivity|].
    rewrite length_app, encoder_header_length, tobytes_F_length, astype_int16_length,
      translate_length. lia. }
  split; [reflexivity|]. split; [reflexivity|].
  split; [apply header_position|]. split; [apply header_n_coordinates|].
  split; [repeat constructor|]. split; [repeat constructor|reflexivity].
Qed.

Lemma encoder_fixed_fields_witness :
  exists data header,
    imagej_create_roi int64 0 [(10, 20); (15, 25)] (Some (str_of_string "cellA")) 0 0 2 None
    = Ok data
    /\ new_record IMAGEJ_ROI_HEADER (Some data) 0 = Ok header
    /\ getfield header "bottom" = Some (PInt 0)
    /\ getfield header "right" = Some (PInt 0).
Proof.
  assert (E : exists data,
             imagej_create_roi int64 0 [(10, 20); (15, 25)] (Some (str_of_string "cellA"))
               0 0 2 None = Ok data)
    by (eexists; vm_compute; reflexivity).
  destruct E as [data E].
  destruct (encoder_fixed_fields int64 0 [(10, 20); (15, 25)] (Some (str_of_string "cellA"))
              0 0 2 None data E) as (h & h2 & H1 & _ & _ & _ & _ & _ & Hz & _).
  exists data, h. split; [exact E|]. split; [exact H1|].
  unfold unassigned_header_fields in Hz. rewrite List.Forall_forall in Hz.
  split; apply Hz; cbn; tauto.
Defined.

(** ** Moving the points *)






(** ** The coordinate block *)

Lemma wrap_signed_16_add (v k : Z) : wrap_signed 16 (v + k * 2 ^ 16) = wrap_signed 16 v.
Proof.
  unfold wrap_signed.
  replace (v + k * 2 ^ 16 + 2 ^ (16 - 1)) with (v + 2 ^ (16 - 1) + k * 2 ^ 16) by lia.
  rewrite Z.mod_add by lia. reflexivity.
Qed.

(** Casting to 16 bits forgets an earlier cast to a width of 16 bits or
    more. *)
Lemma wrap_signed_narrow (dt : np_int) (v : Z) :
  16 <= np_bits dt -> wrap_signed 16 (np_cast dt v) = wrap_signed 16 v.
Proof.
  intros Hb. unfold np_cast.
  assert (Hs : forall w, w = np_bits dt ->
               wrap_signed 16 (wrap_signed w v) = wrap_signed 16 v).
  { intros w Hw. unfold wrap_signed at 2.
    pose proof (Z.div_mod (v + 2 ^ (w - 1)) (2 ^ w) ltac:(destruct dt; subst w; cbn; lia)) as E.
    replace ((v + 2 ^ (w - 1)) mod 2 ^ w - 2 ^ (w - 1))
      with (v + (- 2 ^ (w - 16) * ((v + 2 ^ (w - 1)) / 2 ^ w)) * 2 ^ 16).
    - apply wrap_signed_16_add.
    - assert (H2 : 2 ^ w = 2 ^ (w - 16) * 2 ^ 16)
        by (rewrite <- Z.pow_add_r by lia; f_equal; lia).
      rewrite H2 in E at 1. nia. }
  assert (Hu : forall w, w = np_bits dt ->
               wrap_signed 16 (wrap_unsigned w v) = wrap_signed 16 v).
  { intros w Hw. unfold wrap_unsigned.
    pose proof (Z.div_mod v (2 ^ w) ltac:(destruct dt; subst w; cbn; lia)) as E.
    replace (v mod 2 ^ w) with (v + (- 2 ^ (w - 16) * (v / 2 ^ w)) * 2 ^ 16).
    - apply wrap_signed_16_add.
    - assert (H2 : 2 ^ w = 2 ^ (w - 16) * 2 ^ 16)
        by (rewrite <- Z.pow_add_r by lia; f_equal; lia).
      rewrite H2 in E at 1. nia. }
  destruct (np_signed dt); [apply Hs|apply Hu]; reflexivity.
Qed.

(** X6: the coordinates follow the primary header column by column:
    the 16-bit value number [i] of the block comes from [x_i - left]
    and the value number [n + i] from [y_i - top], where [n] is the
    number of points. Each difference is first wrapped to the array's
    own dtype, where the subtraction is done, and then cast to signed
    16 bits; for a dtype of 16 bits or more that is the difference
    cast to signed 16 bits. *)
Theorem coordinate_block_layout (dt : np_int) (rnd : Z) (points : list (Z * Z))
    (name : option pystr) (c z t : Z) (index : option Z) (data : bytes) (left top : Z)
    (i : nat) (p : Z * Z) :
  imagej_create_roi dt rnd points name c z t index = Ok data ->
  array_min (map fst points) = Ok left ->
  array_min (map snd points) = Ok top ->
  nth_error points i = Some p ->
  int16_at (skipn 64 data) i = wrap_signed 16 (np_cast dt (fst p - left))
  /\ int16_at (skipn 64 data) (length points + i) = wrap_signed 16 (np_cast dt (snd p - top))
  /\ (16 <= np_bits dt ->
      int16_at (skipn 64 data) i = wrap_signed 16 (fst p - left)
      /\ int16_at (skipn 64 data) (length points + i) = wrap_signed 16 (snd p - top)).
Proof.
  intros H Hl Ht Hp.
  cut (int16_at (skipn 64 data) i = wrap_signed 16 (np_cast dt (fst p - left))
       /\ int16_at (skipn 64 data) (length points + i)
          = wrap_signed 16 (np_cast dt (snd p - top))).
  { intros [H1 H2]. split; [exact H1|]. split; [exact H2|].
    intros Hb. rewrite H1, H2, !wrap_signed_narrow by exact Hb. split; reflexivity. }
  destruct (imagej_create_roi_inv _ _ _ _ _ _ _ _ _ H)
    as (l & tp & nb & Hl' & Ht' & Hfits & _ & ->).
  rewrite Hl in Hl'. rewrite Ht in Ht'. injection Hl' as <-. injection Ht' as <-.
  unfold encoded_record.
  rewrite skipn_app_exact by (rewrite encoder_header_length; reflexivity).
  set (moved := astype_int16 (translate dt left top points)).
  assert (Hi : (i < length moved)%nat).
  { unfold moved. rewrite astype_int16_length, translate_length.
    apply nth_error_Some. congruence. }
  assert (Hnth : nth i moved (0, 0)
                 = (wrap_signed 16 (np_cast dt (fst p - left)),
                    wrap_signed 16 (np_cast dt (snd p - top)))).
  { apply nth_error_nth. unfold moved, astype_int16, translate.
    rewrite map_map, nth_error_map, Hp. reflexivity. }
  assert (Hw : forall v, wrap_signed 16 (wrap_signed 16 v) = wrap_signed 16 v).
  { intros v. apply wrap_signed_small; [lia|]. apply wrap_signed_range. lia. }
  unfold tobytes_F. split.
  - rewrite <- app_assoc.
    rewrite (int16_at_column fst moved _ i (0, 0) Hi), Hnth. cbn [fst]. apply Hw.
  - assert (Hn : length points = length moved)
      by (unfold moved; rewrite astype_int16_length, translate_length; reflexivity).
    unfold int16_at.
    replace (2 * (length points + i))%nat with (2 * i + 2 * length moved)%nat by lia.
    rewrite <- skipn_skipn, <- app_assoc.
    rewrite skipn_app_exact by (rewrite column_bytes_length; reflexivity).
    pose proof (int16_at_column snd moved
                  (rec_buf (encoder_header2
                              (wrap_signed 32 (64 + 4 * Z.of_nat (length points)) + 52)
                              (Z.of_nat (length (synthesize_name rnd name t index)))) ++ nb)
                  i (0, 0) Hi) as E.
    unfold int16_at in E. rewrite E, Hnth. cbn [snd]. apply Hw.
Qed.

Lemma coordinate_block_layout_witness :
  (exists data,
     imagej_create_roi int64 0 [(10, 20); (15, 25); (12, 40000)] (Some (str_of_string "cellA"))
       0 0 2 None = Ok data
     /\ int16_at (skipn 64 data) 1 = 5
     /\ int16_at (skipn 64 data) (3 + 2) = -25556)
  /\ (exists data,
        imagej_create_roi int8 0 [(-100, 0); (100, 0)] (Some (str_of_string "cellA"))
          0 0 2 None = Ok data
        /\ int16_at (skipn 64 data) 1 = -56).
Proof.
  split.
  - assert (E : exists data,
               imagej_create_roi int64 0 [(10, 20); (15, 25); (12, 40000)]
                 (Some (str_of_string "cellA")) 0 0 2 None = Ok data)
      by (eexists; vm_compute; reflexivity).
    destruct E as [data E]. exists data. split; [exact E|]. split.
    + destruct (coordinate_block_layout int64 0 [(10, 20); (15, 25); (12, 40000)]
                  (Some (str_of_string "cellA")) 0 0 2 None data 10 20 1 (15, 25) E)
        as (H1 & _); [reflexivity|reflexivity|reflexivity|exact H1].
    + destruct (coordinate_block_layout int64 0 [(10, 20); (15, 25); (12, 40000)]
                  (Some (str_of_string "cellA")) 0 0 2 None data 10 20 2 (12, 40000) E)
        as (_ & H2 & _); [reflexivity|reflexivity|reflexivity|exact H2].
  - assert (E : exists data,
               imagej_create_roi int8 0 [(-100, 0); (100, 0)]
                 (Some (str_of_string "cellA")) 0 0 2 None = Ok data)
      by (eexists; vm_compute; reflexivity).
    destruct E as [data E]. exists data. split; [exact E|].
    destruct (coordinate_block_layout int8 0 [(-100, 0); (100, 0)]
                (Some (str_of_string "cellA")) 0 0 2 None data (-100) 0 1 (100, 0) E)
      as (H1 & _); [reflexivity|reflexivity|reflexivity|exact H1].
Defined.

(** ** The name and the counts through a round trip *)






(** ** The decoder on arbitrary buffers *)

Lemma clamp_index_nonneg (len i : Z) : 0 <= len -> 0 <= i -> clamp_index len i = Z.min i len.
Proof.
  intros Hl Hi. unfold clamp_index.
  destruct (Z.ltb_spec i 0) as [|_]; [lia|]. cbv zeta iota.
  destruct (Z.ltb_spec i 0) as [|_]; [lia|].
  destruct (Z.ltb_spec len i); lia.
Qed.

Lemma clamp_index_range (len i : Z) : 0 <= len -> 0 <= clamp_index len i <= len.
Proof.
  intros Hl. unfold clamp_index.
  destruct (Z.ltb_spec i 0); cbv zeta iota;
    repeat match goal with |- context [?a <? ?b] => destruct (Z.ltb_spec a b) end; lia.
Qed.

Lemma py_slice_length {A : Type} (data : list A) (a b : Z) :
  0 <= a <= b ->
  Z.of_nat (length (py_slice data a b))
  = Z.min b (Z.of_nat (length data)) - Z.min a (Z.of_nat (length data)).
Proof.
  intros H. unfold py_slice. rewrite !clamp_index_nonneg by lia.
  rewrite length_firstn, length_skipn. lia.
Qed.

Lemma py_slice_past_end {A : Type} (data : list A) (a b : Z) :
  Z.of_nat (length data) <= a -> py_slice data a b = [].
Proof.
  intros H. unfold py_slice. rewrite (clamp_index_nonneg _ a) by lia.
  pose proof (clamp_index_range (Z.of_nat (length data)) b ltac:(lia)).
  replace (Z.min a (Z.of_nat (length data))) with (Z.of_nat (length data)) by lia.
  rewrite Nat2Z.id, skipn_all. apply firstn_nil.
Qed.

(** How a decode goes once both headers are read. *)
Lemma imagej_parse_overlay_cases (data : bytes) (header header2 : record) :
  new_record IMAGEJ_ROI_HEADER (Some data) 0 = Ok header ->
  new_record IMAGEJ_ROI_HEADER2 (Some data) (get_int header "header2_offset") = Ok header2 ->
  imagej_parse_overlay data
  = do name <- overlay_name data header2;
    do overlay <-
      (if decide (get_int header "roi_type" ∈ IMAGEJ_SUPPORTED_OVERLAYS) then
         do arr <-
           ndarray_F_int16 (get_int header "n_coordinates")
             (py_slice data 64 (64 + 2 * 2 * get_int header "n_coordinates"));
         Ok (<["coordinates"%string := PArray arr]> (initial_overlay name))
       else Ok (initial_overlay name));
    Ok (fold_left insert_fields [header; header2] overlay).
Proof.
  intros H1 H2. rewrite imagej_parse_overlay_unfold, H1. cbn [bind]. rewrite H2. cbn [bind].
  rewrite (new_record_dtype _ _ _ _ H1). reflexivity.
Qed.

Lemma overlay_name_lookup (header header2 : record) (cv : pyobj) (name : pystr) :
  rec_dtype header = IMAGEJ_ROI_HEADER -> rec_dtype header2 = IMAGEJ_ROI_HEADER2 ->
  fold_left insert_fields [header; header2]
    (<["coordinates"%string := cv]> (initial_overlay name)) !! "name"%string
  = Some (PStr name).
Proof.
  intros D1 D2. rewrite overlay_lookup_reserved by (try assumption; left; reflexivity).
  unfold initial_overlay.
  rewrite lookup_insert_ne by discriminate. rewrite lookup_insert_ne by discriminate.
  apply lookup_insert_eq.
Qed.

Lemma overlay_coordinates_lookup (header header2 : record) (cv : pyobj) (name : pystr) :
  rec_dtype header = IMAGEJ_ROI_HEADER -> rec_dtype header2 = IMAGEJ_ROI_HEADER2 ->
  fold_left insert_fields [header; header2]
    (<["coordinates"%string := cv]> (initial_overlay name)) !! "coordinates"%string
  = Some cv.
Proof.
  intros D1 D2. rewrite overlay_lookup_reserved by (try assumption; right; reflexivity).
  apply lookup_insert_eq.
Qed.

(** X8: a [name_offset] of zero or less, or one at or past the end of
    the buffer, never makes the decoder raise on the name: the slice is
    empty and the name is the empty string, whatever [name_length] is. *)
Theorem name_offset_out_of_range (data : bytes) (header header2 : record) :
  new_record IMAGEJ_ROI_HEADER (Some data) 0 = Ok header ->
  new_record IMAGEJ_ROI_HEADER2 (Some data) (get_int header "header2_offset") = Ok header2 ->
  get_int header2 "name_offset" <= 0
  \/ Z.of_nat (length data) <= get_int header2 "name_offset" ->
  match imagej_parse_overlay data with
  | Ok overlay => overlay !! "name"%string = Some (PStr [])
  | Raise e => e <> UnicodeDecodeError
  end.
Proof.
  intros H1 H2 Hoff.
  pose proof (new_record_dtype _ _ _ _ H1) as D1.
  pose proof (new_record_dtype _ _ _ _ H2) as D2.
  rewrite (imagej_parse_overlay_cases data header header2 H1 H2).
  assert (Hname : overlay_name data header2 = Ok []).
  { unfold overlay_name. destruct (Z.ltb_spec 0 (get_int header2 "name_offset")); [|reflexivity].
    destruct Hoff as [Hoff|Hoff]; [lia|].
    rewrite py_slice_past_end by exact Hoff. reflexivity. }
  rewrite Hname. cbn [bind].
  destruct (decide (get_int header "roi_type" ∈ IMAGEJ_SUPPORTED_OVERLAYS)).
  - unfold ndarray_F_int16.
    destruct (_ <? 0); [discriminate|]. destruct (_ <? _); [discriminate|].
    cbn [bind]. apply overlay_name_lookup; assumption.
  - cbn [bind]. unfold initial_overlay at 1.
    rewrite <- (insert_insert_eq (<["name"%string := PStr []]> ∅) "coordinates"%string
                  PNone PNone).
    apply (overlay_name_lookup header header2 PNone []); assumption.
Qed.

Lemma name_offset_out_of_range_witness :
  let data :=
    match imagej_create_roi int64 0 [(10, 20); (15, 20)] (Some (str_of_string "cellA")) 0 0 2 None with
    | Ok d => firstn 88 d ++ be_bytes 4 1000 ++ skipn 92 d
    | Raise _ => []
    end in
  match imagej_parse_overlay data with
  | Ok overlay => overlay !! "name"%string = Some (PStr [])
  | Raise e => e <> UnicodeDecodeError
  end.
Proof.
  intros data.
  assert (Hoff : get_int (mk_record IMAGEJ_ROI_HEADER2 (firstn 52 (skipn 72 data)))
                   "name_offset" = 1000) by (vm_compute; reflexivity).
  apply (name_offset_out_of_range data
           (mk_record IMAGEJ_ROI_HEADER (firstn 64 data))
           (mk_record IMAGEJ_ROI_HEADER2 (firstn 52 (skipn 72 data)))).
  - vm_compute. reflexivity.
  - vm_compute. reflexivity.
  - right. rewrite Hoff. vm_compute. discriminate.
Defined.

Lemma ndarray_F_int16_length (n : Z) (buffer : bytes) (arr : list (Z * Z)) :
  ndarray_F_int16 n buffer = Ok arr -> Z.of_nat (length arr) = n.
Proof.
  unfold ndarray_F_int16. destruct (Z.ltb_spec n 0); [discriminate|].
  destruct (_ <? _); [discriminate|]. intros [= <-].
  rewrite length_map, length_seq. lia.
Qed.

Lemma supported_values (v : Z) :
  v ∈ IMAGEJ_SUPPORTED_OVERLAYS
  <-> v = CONST_IJ_POLYGON \/ v = CONST_IJ_FREEHAND \/ v = CONST_IJ_TRACED
      \/ v = CONST_IJ_POLYLINE \/ v = CONST_IJ_FREELINE \/ v = CONST_IJ_ANGLE
      \/ v = CONST_IJ_POINT.
Proof.
  unfold IMAGEJ_SUPPORTED_OVERLAYS. rewrite !elem_of_union, !elem_of_singleton. tauto.
Qed.

Lemma unknown_not_supported_rect : CONST_IJ_RECT ∉ IMAGEJ_SUPPORTED_OVERLAYS.
Proof.
  rewrite supported_values.
  unfold CONST_IJ_RECT, CONST_IJ_POLYGON, CONST_IJ_FREEHAND, CONST_IJ_TRACED,
    CONST_IJ_POLYLINE, CONST_IJ_FREELINE, CONST_IJ_ANGLE, CONST_IJ_POINT. lia.
Qed.

(** X9: in a decoded overlay the coordinates are an array exactly when
    [roi_type] is polygon, freehand, traced, polyline, freeline, angle
    or point, and then the array has [n_coordinates] rows; for every
    other type, rectangle, oval, line and no-ROI included, the
    coordinates are [None]. *)
Theorem coordinates_presence (data : bytes) (overlay : gmap string pyobj) :
  imagej_parse_overlay data = Ok overlay ->
  exists header,
    new_record IMAGEJ_ROI_HEADER (Some data) 0 = Ok header
    /\ (get_int header "roi_type" ∈ IMAGEJ_SUPPORTED_OVERLAYS ->
        exists arr,
          overlay !! "coordinates"%string = Some (PArray arr)
          /\ Z.of_nat (length arr) = get_int header "n_coordinates")
    /\ (get_int header "roi_type" ∉ IMAGEJ_SUPPORTED_OVERLAYS ->
        overlay !! "coordinates"%string = Some PNone)
    /\ (get_int header "roi_type" ∈ IMAGEJ_SUPPORTED_OVERLAYS
        <-> get_int header "roi_type" ∈ [0; 4; 5; 7; 8; 9; 10]).
Proof.
  intros H.
  destruct (imagej_parse_overlay_inv _ _ H) as (h & h2 & nm & cv & H1 & H2 & H3 & _).
  pose proof (new_record_dtype _ _ _ _ H1) as D1.
  pose proof (new_record_dtype _ _ _ _ H2) as D2.
  rewrite (imagej_parse_overlay_cases data h h2 H1 H2), H3 in H. cbn [bind] in H.
  exists h. split; [exact H1|].
  destruct (decide (get_int h "roi_type" ∈ IMAGEJ_SUPPORTED_OVERLAYS)) as [Hin|Hnot].
  - destruct (ndarray_F_int16 _ _) as [arr|] eqn:Ha; [|discriminate].
    cbn [bind] in H. injection H as <-. split; [|split].
    + intros _. exists arr. split; [apply overlay_coordinates_lookup; assumption|].
      apply (ndarray_F_int16_length _ _ _ Ha).
    + intros Hn. destruct (Hn Hin).
    + rewrite supported_values, !elem_of_cons, elem_of_nil.
      unfold CONST_IJ_POLYGON, CONST_IJ_FREEHAND, CONST_IJ_TRACED, CONST_IJ_POLYLINE,
        CONST_IJ_FREELINE, CONST_IJ_ANGLE, CONST_IJ_POINT. lia.
  - cbn [bind] in H. injection H as <-. split; [|split].
    + intros Hin. destruct (Hnot Hin).
    + intros _. unfold initial_overlay at 1.
      rewrite <- (insert_insert_eq (<["name"%string := PStr nm]> ∅) "coordinates"%string
                    PNone PNone).
      apply (overlay_coordinates_lookup h h2 PNone nm); assumption.
    + rewrite supported_values, !elem_of_cons, elem_of_nil.
      unfold CONST_IJ_POLYGON, CONST_IJ_FREEHAND, CONST_IJ_TRACED, CONST_IJ_POLYLINE,
        CONST_IJ_FREELINE, CONST_IJ_ANGLE, CONST_IJ_POINT. lia.
Qed.

Lemma coordinates_presence_witness :
  let data :=
    match imagej_create_roi int64 0 [(10, 20); (15, 20)] (Some (str_of_string "cellA")) 0 0 2 None with
    | Ok d => firstn 6 d ++ [x01] ++ skipn 7 d
    | Raise _ => []
    end in
  exists overlay,
    imagej_parse_overlay data = Ok overlay
    /\ overlay !! "coordinates"%string = Some PNone.
Proof.
  intros data.
  assert (E : match imagej_parse_overlay data with Ok _ => True | Raise _ => False end)
    by (vm_compute; exact I).
  destruct (imagej_parse_overlay data) as [ov|] eqn:Hp; [|destruct E].
  exists ov. split; [reflexivity|].
  destruct (coordinates_presence data ov Hp) as (h & H1 & _ & Hnone & _).
  apply Hnone.
  assert (Hh : h = mk_record IMAGEJ_ROI_HEADER (firstn 64 data)).
  { assert (E1 : new_record IMAGEJ_ROI_HEADER (Some data) 0
                 = Ok (mk_record IMAGEJ_ROI_HEADER (firstn 64 data)))
      by (vm_compute; reflexivity).
    pose proof (eq_trans (eq_sym H1) E1) as E2. injection E2 as ->. reflexivity. }
  rewrite Hh.
  replace (get_int (mk_record IMAGEJ_ROI_HEADER (firstn 64 data)) "roi_type") with 1
    by (vm_compute; reflexivity).
  apply unknown_not_supported_rect.
Defined.

(** X10: for a record of a coordinate-bearing type whose headers and
    name can be read, the decoder raises "negative dimensions" when
    [n_coordinates] is negative, "buffer is too small" when the buffer
    ends before the 4 * [n_coordinates] bytes that follow the primary
    header, and succeeds otherwise. *)
Theorem coordinate_block_errors (data : bytes) (header header2 : record) (name : pystr) :
  new_record IMAGEJ_ROI_HEADER (Some data) 0 = Ok header ->
  new_record IMAGEJ_ROI_HEADER2 (Some data) (get_int header "header2_offset") = Ok header2 ->
  overlay_name data header2 = Ok name ->
  get_int header "roi_type" ∈ IMAGEJ_SUPPORTED_OVERLAYS ->
  let n := get_int header "n_coordinates" in
  (n < 0 -> imagej_parse_overlay data = Raise NegativeDimensions)
  /\ (0 <= n -> Z.of_nat (length data) < 64 + 4 * n ->
      imagej_parse_overlay data = Raise BufferTooSmall)
  /\ (0 <= n -> 64 + 4 * n <= Z.of_nat (length data) ->
      exists overlay, imagej_parse_overlay data = Ok overlay).
Proof.
  intros H1 H2 H3 Hty n.
  rewrite (imagej_parse_overlay_cases data header header2 H1 H2), H3. cbn [bind].
  destruct (decide (get_int header "roi_type" ∈ IMAGEJ_SUPPORTED_OVERLAYS)) as [_|Hn];
    [|destruct (Hn Hty)].
  fold n. unfold ndarray_F_int16.
  assert (Hlen : 64 <= Z.of_nat (length data)).
  { unfold new_record in H1.
    destruct (Z.ltb_spec (Z.of_nat (length data)) (0 + Z.of_nat (itemsize IMAGEJ_ROI_HEADER)))
      as [|Hge]; [discriminate|].
    change (Z.of_nat (itemsize IMAGEJ_ROI_HEADER)) with 64 in Hge. lia. }
  split; [|split].
  - intros Hneg. destruct (Z.ltb_spec n 0); [reflexivity|lia].
  - intros Hpos Hshort. destruct (Z.ltb_spec n 0); [lia|].
    rewrite py_slice_length by lia.
    destruct (Z.ltb_spec (Z.min (64 + 2 * 2 * n) (Z.of_nat (length data))
                          - Z.min 64 (Z.of_nat (length data))) (2 * (n * 2)));
      [reflexivity|lia].
  - intros Hpos Hfit. destruct (Z.ltb_spec n 0); [lia|].
    rewrite py_slice_length by lia.
    destruct (Z.ltb_spec (Z.min (64 + 2 * 2 * n) (Z.of_nat (length data))
                          - Z.min 64 (Z.of_nat (length data))) (2 * (n * 2)));
      [lia|].
    cbn [bind]. eexists. reflexivity.
Qed.

Lemma coordinate_block_errors_witness :
  let data :=
    match imagej_create_roi int64 0 [(10, 20); (15, 20)] (Some (str_of_string "")) 0 0 2 None with
    | Ok d => firstn 16 d ++ be_bytes 2 100 ++ skipn 18 d
    | Raise _ => []
    end in
  imagej_parse_overlay data = Raise BufferTooSmall.
Proof.
  intros data.
  assert (Hn : get_int (mk_record IMAGEJ_ROI_HEADER (firstn 64 data)) "n_coordinates" = 100)
    by (vm_compute; reflexivity).
  destruct (coordinate_block_errors data
              (mk_record IMAGEJ_ROI_HEADER (firstn 64 data))
              (mk_record IMAGEJ_ROI_HEADER2 (firstn 52 (skipn 72 data))) [])
    as (_ & H & _).
  - vm_compute. reflexivity.
  - vm_compute. reflexivity.
  - vm_compute. reflexivity.
  - replace (get_int (mk_record IMAGEJ_ROI_HEADER (firstn 64 data)) "roi_type")
      with CONST_IJ_FREEHAND by (vm_compute; reflexivity).
    apply supported_freehand.
  - apply H; rewrite Hn; [lia|]. vm_compute. reflexivity.
Defined.

(** X11: the keys of a decoded overlay are [name], [coordinates] and
    the fields of the two headers whose name does not start with an
    underscore, and nothing else: [_iout], [_pad_byte] and [_nil] are
    never exposed. *)
Theorem overlay_key_set (data : bytes) (overlay : gmap string pyobj) (key : string) :
  imagej_parse_overlay data = Ok overlay ->
  (is_Some (overlay !! key) <-> key ∈ overlay_keys)
  /\ overlay !! "_iout"%string = None
  /\ overlay !! "_pad_byte"%string = None
  /\ overlay !! "_nil"%string = None.
Proof.
  intros H.
  destruct (imagej_parse_overlay_inv _ _ H) as (h & h2 & nm & cv & H1 & H2 & _ & ->).
  pose proof (new_record_dtype _ _ _ _ H1) as D1.
  pose proof (new_record_dtype _ _ _ _ H2) as D2.
  assert (Hout : forall k, k ∉ overlay_keys ->
            fold_left insert_fields [h; h2]
              (<["coordinates"%string := cv]> (initial_overlay nm)) !! k = None).
  { intros k Hk. unfold overlay_keys in Hk.
    rewrite !not_elem_of_cons, not_elem_of_app in Hk. destruct Hk as (N1 & N2 & N3 & N4).
    cbn [fold_left]. rewrite !insert_fields_other by (rewrite ?D1, ?D2; assumption).
    unfold initial_overlay. rewrite !lookup_insert_ne by congruence. apply lookup_empty. }
  split; [split|].
  - intros Hs. destruct (decide (key ∈ overlay_keys)) as [Hin|Hnin]; [exact Hin|].
    rewrite (Hout key Hnin) in Hs. destruct Hs as [? Hs]. discriminate.
  - intros Hk. unfold overlay_keys in Hk.
    apply elem_of_cons in Hk as [->|Hk]; [rewrite overlay_name_lookup by assumption; eauto|].
    apply elem_of_cons in Hk as [->|Hk];
      [rewrite overlay_coordinates_lookup by assumption; eauto|].
    apply elem_of_app in Hk as [Hk|Hk].
    + destruct (overlay_lookup_header h h2
                  (<["coordinates"%string := cv]> (initial_overlay nm)) key D1 D2 Hk)
        as (v & _ & ->). eauto.
    + destruct (overlay_lookup_header2 h h2
                  (<["coordinates"%string := cv]> (initial_overlay nm)) key D2 Hk)
        as (v & _ & ->). eauto.
  - repeat split; apply Hout; compute_done.
Qed.

Lemma overlay_key_set_witness :
  exists data overlay,
    imagej_create_roi int64 0 [(10, 20); (15, 20)] (Some (str_of_string "cellA")) 0 0 2 None
    = Ok data
    /\ imagej_parse_overlay data = Ok overlay
    /\ overlay !! "_iout"%string = None
    /\ is_Some (overlay !! "position"%string).
Proof.
  assert (E : exists data,
             imagej_create_roi int64 0 [(10, 20); (15, 20)] (Some (str_of_string "cellA"))
               0 0 2 None = Ok data
             /\ match imagej_parse_overlay data with Ok _ => True | Raise _ => False end).
  { eexists. split; [vm_compute; reflexivity|]. vm_compute. exact I. }
  destruct E as (data & E & Hp).
  destruct (imagej_parse_overlay data) as [ov|] eqn:Hov; [|destruct Hp].
  destruct (overlay_key_set data ov "position" Hov) as (Hk & Hi & _).
  exists data, ov. split; [exact E|]. split; [exact Hov|]. split; [exact Hi|].
  apply Hk. compute_done.
Defined.

(** ** Splitting the metadata block *)

Lemma total_lengths (rs : list bytes) :
  total (map (fun r => Z.of_nat (length r)) rs) = Z.of_nat (length (concat rs)).
Proof.
  induction rs as [|r rs IH]; [reflexivity|].
  cbn [map total fold_right concat]. fold (total (map (fun r => Z.of_nat (length r)) rs)).
  rewrite IH, length_app. lia.
Qed.

(** X12: the byte counts add up to the length of the block, and they
    cut it back into its records: the record number [k] of the input
    is the segment that starts after the first [k + 1] counts (the
    header's and those of the records before) and has the length given
    by count number [k + 1]. *)
Theorem byte_counts_split (overlays : list bytes) :
  exists block byte_counts,
    imagej_prepare_metadata overlays = Ok (block, byte_counts)
    /\ total byte_counts = Z.of_nat (length block)
    /\ forall before r after,
         overlays = before ++ r :: after ->
         let k := length before in
         nth (S k) byte_counts 0 = Z.of_nat (length r)
         /\ py_slice block (total (firstn (S k) byte_counts))
              (total (firstn (S k) byte_counts) + nth (S k) byte_counts 0)
            = r.
Proof.
  exists (be_bytes 4 0x494A494A ++ be_bytes 4 0x6F766572
          ++ be_bytes 4 (Z.of_nat (length overlays)) ++ concat overlays),
    (12 :: map (fun r => Z.of_nat (length r)) overlays).
  split; [reflexivity|]. split.
  { cbn [total fold_right]. fold (total (map (fun r => Z.of_nat (length r)) overlays)).
    rewrite total_lengths, !length_app, !be_bytes_length. lia. }
  intros before r after -> k.
  assert (Hnth : nth (S k) (12 :: map (fun r => Z.of_nat (length r)) (before ++ r :: after)) 0
                 = Z.of_nat (length r)).
  { cbn [nth]. rewrite map_app. unfold k.
    rewrite app_nth2 by (rewrite length_map; lia).
    rewrite length_map, Nat.sub_diag. reflexivity. }
  assert (Htot : total (firstn (S k) (12 :: map (fun r => Z.of_nat (length r))
                                            (before ++ r :: after)))
                 = 12 + Z.of_nat (length (concat before))).
  { cbn [firstn total fold_right]. rewrite map_app.
    rewrite firstn_app_exact by (rewrite length_map; reflexivity).
    fold (total (map (fun r => Z.of_nat (length r)) before)).
    rewrite total_lengths. reflexivity. }
  split; [exact Hnth|].
  rewrite Htot, Hnth, concat_app. cbn [concat].
  rewrite !app_assoc. rewrite <- (app_assoc _ r).
  apply py_slice_middle.
  - rewrite !length_app, !be_bytes_length. lia.
  - rewrite !length_app, !be_bytes_length. lia.
Qed.

Lemma byte_counts_split_witness :
  exists block byte_counts,
    imagej_prepare_metadata [[x01; x02]; []; [x03; x04; x05]] = Ok (block, byte_counts)
    /\ py_slice block (total (firstn 3 byte_counts))
         (total (firstn 3 byte_counts) + nth 3 byte_counts 0)
       = [x03; x04; x05].
Proof.
  destruct (byte_counts_split [[x01; x02]; []; [x03; x04; x05]])
    as (block & counts & H1 & _ & H3).
  exists block, counts. split; [exact H1|].
  apply (H3 [[x01; x02]; []] [x03; x04; x05] []). reflexivity.
Defined.

(** ** The session's counters and pending records *)

Section SessionCounters.
Context {image value : Type}.
Implicit Types (self : TiffWriter image value) (op : call image value).
Implicit Types (ops : list (call image value)).

Lemma new_save_frame self (data : image) (kwargs : gmap string value) :
  let self' := fst (TiffWriter_new_save self data kwargs) in
  ijm_roi_data self' = ijm_roi_data self
  /\ ijm_rois_per_frame self' = ijm_rois_per_frame self.
Proof.
  unfold TiffWriter_new_save.
  destruct (ijm_first_written self || (length (ijm_roi_data self) =? 0)%nat);
    [split; reflexivity|].
  destruct (imagej_prepare_metadata_ok (ijm_roi_data self)) as (m & bc & ->).
  split; reflexivity.
Qed.

Lemma add_roi_named self (dt : np_int) rnd points (name : pystr) c z t :
  ijm_rois_per_frame (fst (TiffWriter_add_roi self dt rnd points (Some name) c z t))
  = ijm_rois_per_frame self.
Proof.
  unfold TiffWriter_add_roi. cbv zeta iota beta.
  destruct (imagej_create_roi _ _ _ _ _ _ _ _); reflexivity.
Qed.

Lemma add_roi_unnamed self (dt : np_int) rnd points c z t :
  let k := default 0 (ijm_rois_per_frame self !! t) + 1 in
  let added := TiffWriter_add_roi self dt rnd points None c z t in
  ijm_rois_per_frame (fst added) = <[t := k]> (ijm_rois_per_frame self)
  /\ match imagej_create_roi dt rnd points None c z t (Some k) with
     | Ok roi => snd added = Ok tt /\ ijm_roi_data (fst added) = ijm_roi_data self ++ [roi]
     | Raise e => snd added = Raise e /\ ijm_roi_data (fst added) = ijm_roi_data self
     end.
Proof.
  intros k added. unfold added, TiffWriter_add_roi. cbv zeta iota beta.
  assert (Hmap : <[t := default 0
                      ((if decide (is_Some (ijm_rois_per_frame self !! t))
                        then ijm_rois_per_frame self
                        else <[t := 0]> (ijm_rois_per_frame self)) !! t) + 1]>
                   (if decide (is_Some (ijm_rois_per_frame self !! t))
                    then ijm_rois_per_frame self
                    else <[t := 0]> (ijm_rois_per_frame self))
                 = <[t := k]> (ijm_rois_per_frame self)).
  { unfold k. destruct (decide (is_Some (ijm_rois_per_frame self !! t))) as [Hs|Hn];
      [reflexivity|].
    rewrite lookup_insert_eq, insert_insert_eq.
    destruct (ijm_rois_per_frame self !! t) eqn:E; [destruct Hn; eauto|reflexivity]. }
  rewrite Hmap, lookup_insert_eq.
  destruct (imagej_create_roi dt rnd points None c z t (Some k)); repeat split; reflexivity.
Qed.

Lemma unnamed_adds_snoc (t : Z) ops op :
  unnamed_adds t (ops ++ [op])
  = unnamed_adds t ops
    + match op with
      | AddRoi _ _ _ None _ _ t' => if Z.eqb t' t then 1 else 0
      | _ => 0
      end.
Proof.
  unfold unnamed_adds. rewrite List.filter_app, length_app. cbn [List.filter].
  destruct op as [dt rnd points [name|] c z t'|data kwargs]; cbn [length]; try lia.
  destruct (Z.eqb t' t); cbn [length]; lia.
Qed.

Lemma unnamed_adds_nonneg (t : Z) ops : 0 <= unnamed_adds t ops.
Proof. unfold unnamed_adds. lia. Qed.

(** The counter of a frame is the number of unnamed [add_roi] calls
    made for it, and is missing before the first one. *)
Lemma counter_invariant ops (t : Z) :
  ijm_rois_per_frame (run (image := image) TiffWriter___init__ ops) !! t
  = if unnamed_adds t ops =? 0 then None else Some (unnamed_adds t ops).
Proof.
  induction ops as [|op ops IH] using rev_ind; [reflexivity|].
  rewrite run_snoc, unnamed_adds_snoc.
  pose proof (unnamed_adds_nonneg t ops) as Hk.
  set (self := run TiffWriter___init__ ops) in *.
  destruct op as [dt rnd points [name|] c z t'|data kwargs]; cbn [step].
  - rewrite add_roi_named, IH, Z.add_0_r. reflexivity.
  - destruct (add_roi_unnamed self dt rnd points c z t') as [-> _].
    destruct (Z.eqb_spec t' t) as [->|Hne].
    + rewrite lookup_insert_eq, IH.
      destruct (Z.eqb_spec (unnamed_adds t ops) 0) as [->|Hnz]; [reflexivity|].
      destruct (Z.eqb_spec (unnamed_adds t ops + 1) 0); [lia|]. reflexivity.
    + rewrite lookup_insert_ne by exact Hne. rewrite IH, Z.add_0_r. reflexivity.
  - destruct (new_save_frame self data kwargs) as [_ ->]. rewrite IH, Z.add_0_r. reflexivity.
Qed.

Lemma roi_data_step self op :
  exists added, ijm_roi_data (step self op) = ijm_roi_data self ++ added.
Proof.
  destruct op as [dt rnd points [name|] c z t|data kwargs]; cbn [step].
  - unfold TiffWriter_add_roi. cbv zeta iota beta.
    destruct (imagej_create_roi _ _ _ _ _ _ _ _) as [roi|];
      [exists [roi]|exists []; rewrite app_nil_r]; reflexivity.
  - destruct (add_roi_unnamed self dt rnd points c z t) as [_ H].
    destruct (imagej_create_roi _ _ _ _ _ _ _ _) as [roi|]; destruct H as [_ ->];
      [exists [roi]|exists []; rewrite app_nil_r]; reflexivity.
  - destruct (new_save_frame self data kwargs) as [-> _]. exists []. rewrite app_nil_r.
    reflexivity.
Qed.

End SessionCounters.

(** X13: in a session, an [add_roi] without a name for frame [t] is
    encoded with index k + 1, where k counts the earlier unnamed
    [add_roi] calls for that frame, those that raised included; on
    success its record goes to the end of the pending list; when the
    encoder raises nothing is appended but the frame's counter is
    advanced all the same; no other frame's counter moves. *)
Theorem unnamed_roi_numbering {image value : Type} (ops : list (call image value))
    (dt : np_int) (rnd : Z) (points : list (Z * Z)) (c z t : Z) :
  let self : TiffWriter image value := run TiffWriter___init__ ops in
  let k := unnamed_adds t ops in
  let added := TiffWriter_add_roi self dt rnd points None c z t in
  ijm_rois_per_frame (fst added) !! t = Some (k + 1)
  /\ (forall t', t' <> t ->
      ijm_rois_per_frame (fst added) !! t' = ijm_rois_per_frame self !! t')
  /\ match imagej_create_roi dt rnd points None c z t (Some (k + 1)) with
     | Ok roi => snd added = Ok tt /\ ijm_roi_data (fst added) = ijm_roi_data self ++ [roi]
     | Raise e => snd added = Raise e /\ ijm_roi_data (fst added) = ijm_roi_data self
     end.
Proof.
  intros self k added.
  pose proof (counter_invariant (value := value) ops t) as Hinv. fold self k in Hinv.
  pose proof (unnamed_adds_nonneg t ops) as Hk. fold k in Hk.
  assert (Hd : default 0 (ijm_rois_per_frame self !! t) + 1 = k + 1).
  { rewrite Hinv. destruct (Z.eqb_spec k 0) as [->|_]; reflexivity. }
  destruct (add_roi_unnamed self dt rnd points c z t) as [Hmap Hres].
  cbv zeta in Hmap, Hres. rewrite Hd in Hmap, Hres. fold added in Hmap, Hres.
  split; [rewrite Hmap; apply lookup_insert_eq|].
  split; [intros t' Hne; rewrite Hmap; apply lookup_insert_ne; congruence|].
  exact Hres.
Qed.

Lemma unnamed_roi_numbering_witness :
  let ops : list (call Z Z) :=
    [AddRoi int64 0 [(1, 2)] None 0 0 2; AddRoi int64 0 [] None 0 0 2; Save 1 ∅;
     AddRoi int64 0 [(1, 2)] None 0 0 5] in
  let added :=
    TiffWriter_add_roi (run TiffWriter___init__ ops) int64 0 [(3, 4)] None 0 0 2 in
  ijm_rois_per_frame (fst added) !! 2 = Some 3
  /\ imagej_create_roi int64 0 [(3, 4)] None 0 0 2 (Some 3)
     = Ok (List.last (ijm_roi_data (fst added)) []).
Proof.
  intros ops added.
  destruct (unnamed_roi_numbering ops int64 0 [(3, 4)] 0 0 2) as (H1 & _ & H3).
  change (unnamed_adds 2 ops + 1) with 3 in H1, H3. fold added in H1, H3.
  split; [exact H1|].
  destruct (imagej_create_roi int64 0 [(3, 4)] None 0 0 2 (Some 3)) as [roi|e] eqn:E.
  - destruct H3 as [_ ->]. rewrite last_last. reflexivity.
  - exfalso. clear -E. vm_compute in E. discriminate.
Defined.

Lemma roi_data_run {image value : Type} (self : TiffWriter image value)
    (ops : list (call image value)) :
  exists added, ijm_roi_data (run self ops) = ijm_roi_data self ++ added.
Proof.
  induction ops as [|op ops (added & IH)] using rev_ind.
  - exists []. rewrite app_nil_r. reflexivity.
  - rewrite run_snoc. destruct (roi_data_step (run self ops) op) as (more & ->).
    exists (added ++ more). rewrite IH, app_assoc. reflexivity.
Qed.

(** X14: the [save] that emits passes on exactly the records pending
    at that moment, in the order they were added: tag 50838 holds 12
    and then the length of each record, so one value more than there
    are records; tag 50839 holds the 12-byte block header followed by
    the records, its count being 12 plus their total length. The
    pending list is not cleared by it, and only grows afterwards. *)
Theorem emitted_tags_contents {image value : Type} (self : TiffWriter image value)
    (data : image) (kwargs : gmap string value) :
  ijm_first_written self = false ->
  ijm_roi_data self <> [] ->
  let rois := ijm_roi_data self in
  let saved := fst (TiffWriter_new_save self data kwargs) in
  original_saves saved
  = original_saves self
    ++ [ mk_save_call data ∅
           [ mk_extratag 50838 "I" (Z.of_nat (length rois) + 1)
               (TagInts (12 :: map (fun r => Z.of_nat (length r)) rois)) true;
             mk_extratag 50839 "B" (12 + Z.of_nat (length (concat rois)))
               (TagBytes
                  ((be_bytes 4 CONSTANT_MAGIC_NUMBER ++ be_bytes 4 CONSTANT_OVERLAY
                    ++ be_bytes 4 (Z.of_nat (length rois))) ++ concat rois))
               true ] ]
  /\ forall ops : list (call image value),
       exists added, ijm_roi_data (run saved ops) = rois ++ added.
Proof.
  intros Hw Hr rois saved. split.
  - unfold saved, rois, TiffWriter_new_save. rewrite Hw.
    destruct (ijm_roi_data self) as [|r rs]; [congruence|]. cbn [length Nat.eqb orb].
    assert (Hp : imagej_prepare_metadata (r :: rs)
                 = Ok ((be_bytes 4 CONSTANT_MAGIC_NUMBER ++ be_bytes 4 CONSTANT_OVERLAY
                        ++ be_bytes 4 (Z.of_nat (length (r :: rs)))) ++ concat (r :: rs),
                       12 :: map (fun r => Z.of_nat (length r)) (r :: rs)))
      by reflexivity.
    rewrite Hp. unfold original_save. cbn [fst original_saves].
    assert (C1 : Z.of_nat (length (12 :: map (fun r => Z.of_nat (length r)) (r :: rs)))
                 = Z.of_nat (length (r :: rs)) + 1)
      by (cbn [length]; rewrite length_map; cbn [length]; unfold bytes; lia).
    assert (C2 : Z.of_nat
                   (length ((be_bytes 4 CONSTANT_MAGIC_NUMBER ++ be_bytes 4 CONSTANT_OVERLAY
                             ++ be_bytes 4 (Z.of_nat (length (r :: rs))))
                            ++ concat (r :: rs)))
                 = 12 + Z.of_nat (length (concat (r :: rs))))
      by (rewrite !length_app, !be_bytes_length; unfold bytes; lia).
    rewrite C1, C2. reflexivity.
  - intros ops. destruct (roi_data_run saved ops) as (added & ->).
    unfold saved, rois. destruct (new_save_frame self data kwargs) as [-> _].
    exists added. reflexivity.
Qed.

Lemma emitted_tags_contents_witness :
  let self : TiffWriter Z Z :=
    fst (TiffWriter_add_roi TiffWriter___init__ int64 0 [(1, 2)]
           (Some (str_of_string "a")) 0 0 0) in
  let kwargs : gmap string Z := {[ "compress"%string := 6 ]} in
  map (fun c => map (fun tag => (tag_code tag, tag_count tag)) (call_extratags c))
    (original_saves (fst (TiffWriter_new_save self 7 kwargs)))
  = [[(50838, 2); (50839, 134)]].
Proof.
  intros self kwargs.
  destruct (emitted_tags_contents self 7 kwargs) as [H _].
  - reflexivity.
  - vm_compute. discriminate.
  - rewrite H. vm_compute. reflexivity.
Defined.

(** ** Reading metadata back *)

Section MetadataProperties.
Context {other : Type}.

Lemma parse_overlays_ok (buffers : list bytes) (parsed : list (gmap string pyobj)) :
  parse_overlays buffers = Ok parsed <->
  Forall2 (fun data overlay => imagej_parse_overlay data = Ok overlay) buffers parsed.
Proof.
  revert parsed. induction buffers as [|data rest IH]; intros parsed.
  - split; [intros [= <-]; constructor|]. intros H. inversion H. reflexivity.
  - cbn [parse_overlays]. split.
    + destruct (imagej_parse_overlay data) as [ov|] eqn:E; [|discriminate]. cbn [bind].
      destruct (parse_overlays rest) as [ovs|] eqn:E2; [|discriminate]. cbn [bind].
      intros [= <-]. constructor; [exact E|]. apply IH. reflexivity.
    + intros H. inversion H as [|? ov ? ovs Hov Hrest]; subst.
      rewrite Hov. cbn [bind]. apply IH in Hrest. rewrite Hrest. reflexivity.
Qed.

Lemma parse_overlays_raise (good : list bytes) (parsed : list (gmap string pyobj))
    (bad : bytes) (rest : list bytes) (e : pyexc) :
  parse_overlays good = Ok parsed ->
  imagej_parse_overlay bad = Raise e ->
  parse_overlays (good ++ bad :: rest) = Raise e.
Proof.
  revert parsed. induction good as [|data good IH]; intros parsed Hg Hb.
  - cbn [app parse_overlays]. rewrite Hb. reflexivity.
  - cbn [app parse_overlays] in *.
    destruct (imagej_parse_overlay data); [|discriminate]. cbn [bind] in *.
    destruct (parse_overlays good) as [ovs|]; [|discriminate].
    rewrite (IH ovs eq_refl Hb). reflexivity.
Qed.

End MetadataProperties.

(** X15: [new_imagej_metadata] returns the library's dictionary as it
    is when it has no [overlays] entry. When it has one and every
    buffer decodes, it adds under [parsed_overlays] the decoded
    overlays, one per buffer and in the same order, keeps [overlays]
    and leaves every other entry alone. When a buffer does not decode,
    the call ends as the decoding of the first such buffer does (with
    the exception it raises, or at its read in front of the buffer) and
    returns no dictionary. *)
Theorem new_imagej_metadata_behaviour {other : Type} (original : metadata other) :
  (md_overlays original = None -> new_imagej_metadata original = Ok original)
  /\ (forall buffers parsed,
        md_overlays original = Some buffers ->
        Forall2 (fun data overlay => imagej_parse_overlay data = Ok overlay) buffers parsed ->
        exists result,
          new_imagej_metadata original = Ok result
          /\ md_overlays result = Some buffers
          /\ md_rest result !! "parsed_overlays"%string = Some (MRecords parsed)
          /\ length parsed = length buffers
          /\ forall key, key <> "parsed_overlays"%string ->
               md_rest result !! key = md_rest original !! key)
  /\ (forall good parsed bad rest e,
        md_overlays original = Some (good ++ bad :: rest) ->
        Forall2 (fun data overlay => imagej_parse_overlay data = Ok overlay) good parsed ->
        imagej_parse_overlay bad = Raise e ->
        new_imagej_metadata original = Raise e).
Proof.
  split; [|split].
  - intros H. unfold new_imagej_metadata. rewrite H. reflexivity.
  - intros buffers parsed H Hall. unfold new_imagej_metadata. rewrite H.
    rewrite (proj2 (parse_overlays_ok buffers parsed) Hall). cbn [bind].
    eexists. split; [reflexivity|]. cbn [md_overlays md_rest].
    split; [reflexivity|]. split; [apply lookup_insert_eq|].
    split; [symmetry; apply (Forall2_length _ _ _ Hall)|].
    intros key Hne. apply lookup_insert_ne. congruence.
  - intros good parsed bad rest e H Hall Hbad. unfold new_imagej_metadata. rewrite H.
    rewrite (parse_overlays_raise good parsed bad rest e); [reflexivity| |exact Hbad].
    apply parse_overlays_ok, Hall.
Qed.

Lemma new_imagej_metadata_behaviour_witness :
  new_imagej_metadata (mk_metadata (other := Z) (Some [repeat x00 10]) ∅)
  = Raise BufferTooSmall
  /\ new_imagej_metadata (mk_metadata (other := Z) None (<["info"%string := MOther 5]> ∅))
     = Ok (mk_metadata None (<["info"%string := MOther 5]> ∅)).
Proof.
  split.
  - apply (new_imagej_metadata_behaviour
             (mk_metadata (other := Z) (Some [repeat x00 10]) ∅))
      with (good := []) (parsed := []) (bad := repeat x00 10) (rest := []).
    + reflexivity.
    + constructor.
    + reflexivity.
  - apply (new_imagej_metadata_behaviour
             (mk_metadata (other := Z) None (<["info"%string := MOther 5]> ∅))).
    reflexivity.
Defined.
